(** * WhatsApp bulk-messenger dashboard: the Express backend, embedded in Rocq

    The development follows the two revisions of the backend that the
    repository holds ([backend/server.js], called [V1] below, and the
    serverless revision with the AI proxy and the cached database
    connection, called [V2]), the Mongoose schema of
    [backend/models/Contact.js], the client-side gateway of
    [services/geminiService.ts], and the client: [services/apiService.ts]
    and the components of the dashboard, with the URL of a request and
    its routing where an id travels in the path.

    Conventions.
    - A JavaScript string is represented by its UTF-8 encoding, one [ascii]
      per byte.  [undefined] and [null] fields are [None].
    - The MongoDB collection is the list of its documents; the unique indexes
      ([_id], and [phone] from the schema) are enforced by the insert.
    - Values the environment supplies ([new ObjectId()], [Date.now()], the
      answer of the text-generation service) are explicit arguments.
    - Route handlers are written in a state-and-exception monad over the
      database handle, so that [try]/[catch] reads as in the source. *)

From Stdlib Require Import String Ascii List Bool Arith ZArith Lia.
From Stdlib Require Import Permutation Sorted.
From Stdlib.Strings Require Import Byte.
Import ListNotations.
Local Open Scope string_scope.
Local Open Scope nat_scope.

(* ===================================================================== *)
(** ** JavaScript strings *)
(* ===================================================================== *)

Module JsString.

(** [!s] for a string: only the empty string is falsy. *)
Definition truthy (s : string) : bool :=
  match s with EmptyString => false | String _ _ => true end.

(** [!v] for a value that is a string or [undefined]. *)
Definition truthy_opt (v : option string) : bool :=
  match v with Some s => truthy s | None => false end.

Definition code (c : ascii) : nat := nat_of_ascii c.

(** One-byte white space and line terminators:
    TAB, LF, VT, FF, CR, SPACE. *)
Definition ws1 (a : ascii) : bool :=
  ((9 <=? code a) && (code a <=? 13)) || (code a =? 32).

(** Two-byte white space: U+00A0 (C2 A0). *)
Definition ws2 (a b : ascii) : bool :=
  (code a =? 194) && (code b =? 160).

(** Three-byte white space: U+1680, U+2000..U+200A, U+2028, U+2029,
    U+202F, U+205F, U+3000, U+FEFF. *)
Definition ws3 (a b c : ascii) : bool :=
  ((code a =? 225) && (code b =? 154) && (code c =? 128))
  || ((code a =? 226) && (code b =? 128)
      && (((128 <=? code c) && (code c <=? 138))
          || (code c =? 168) || (code c =? 169) || (code c =? 175)))
  || ((code a =? 226) && (code b =? 129) && (code c =? 159))
  || ((code a =? 227) && (code b =? 128) && (code c =? 128))
  || ((code a =? 239) && (code b =? 187) && (code c =? 191)).

(** [String.prototype.trimStart]. *)
Fixpoint trimStart (s : list ascii) : list ascii :=
  match s with
  | [] => []
  | a :: s1 =>
      if ws1 a then trimStart s1
      else match s1 with
           | b :: s2 =>
               if ws2 a b then trimStart s2
               else match s2 with
                    | c :: s3 => if ws3 a b c then trimStart s3 else s
                    | [] => s
                    end
           | [] => s
           end
  end.

(** The same scan on the reversed string, for [trimEnd]: the bytes of a
    white-space character arrive last byte first. *)
Fixpoint trimStart_rev (s : list ascii) : list ascii :=
  match s with
  | [] => []
  | a :: s1 =>
      if ws1 a then trimStart_rev s1
      else match s1 with
           | b :: s2 =>
               if ws2 b a then trimStart_rev s2
               else match s2 with
                    | c :: s3 => if ws3 c b a then trimStart_rev s3 else s
                    | [] => s
                    end
           | [] => s
           end
  end.

(** [String.prototype.trim]. *)
Definition trim (s : string) : string :=
  string_of_list_ascii
    (rev (trimStart_rev (rev (trimStart (list_ascii_of_string s))))).

(** [a + b]. *)
Definition concat (a b : string) : string := a ++ b.

(** [Array.prototype.join]. *)
Fixpoint join (sep : string) (l : list string) : string :=
  match l with
  | [] => ""
  | [x] => x
  | x :: rest => x ++ sep ++ join sep rest
  end.

(** Decimal rendering of a length, as a template literal does. *)
Fixpoint digits (fuel n : nat) (acc : string) : string :=
  match fuel with
  | O => acc
  | S fuel' =>
      let acc' := String (ascii_of_nat (48 + n mod 10)) acc in
      if n / 10 =? 0 then acc' else digits fuel' (n / 10) acc'
  end.

Definition of_nat (n : nat) : string := digits (S n) n "".

End JsString.

(* ===================================================================== *)
(** ** Anchored regular expressions *)
(* ===================================================================== *)

Module RegExp.

(** A pattern [^ i1 i2 ... in $] is the list of its items: a character
    class, or a character class under a bounded quantifier [{lo,hi}]. *)
Inductive item : Type :=
| One (cls : ascii -> bool)
| Rep (cls : ascii -> bool) (lo hi : nat).

Definition regexp := list item.

(** [\+] *)
Definition lit (c : ascii) : ascii -> bool := fun a => Ascii.eqb a c.

(** [[a-b]] *)
Definition range (a b : ascii) : ascii -> bool :=
  fun c => (nat_of_ascii a <=? nat_of_ascii c)
           && (nat_of_ascii c <=? nat_of_ascii b).

(** [\d]: without the [u]/[v] flags it is exactly [[0-9]]. *)
Definition digit : ascii -> bool := range "0" "9".

(** [cls{lo,hi}] followed by the continuation [k]; the quantifier is
    tried by backtracking. *)
Fixpoint rep (cls : ascii -> bool) (k : list ascii -> bool)
         (lo hi : nat) (s : list ascii) : bool :=
  match hi with
  | O => (lo =? 0) && k s
  | S hi' =>
      ((lo =? 0) && k s)
      || match s with
         | a :: s' => cls a && rep cls k (pred lo) hi' s'
         | [] => false
         end
  end.

Fixpoint matches (r : regexp) : list ascii -> bool :=
  match r with
  | [] => fun s => match s with [] => true | _ :: _ => false end
  | One cls :: r' =>
      fun s => match s with
               | a :: s' => cls a && matches r' s'
               | [] => false
               end
  | Rep cls lo hi :: r' => rep cls (matches r') lo hi
  end.

(** [RegExp.prototype.test] for an anchored pattern. *)
Definition test (r : regexp) (s : string) : bool :=
  matches r (list_ascii_of_string s).

End RegExp.

(* ===================================================================== *)
(** ** BSON object identifiers *)
(* ===================================================================== *)

Module ObjectId.

(** An ObjectId is twelve bytes. *)
Definition t : Type :=
  (byte * byte * byte * byte * byte * byte
   * byte * byte * byte * byte * byte * byte)%type.

Definition bytes (o : t) : list byte :=
  let '(b0, b1, b2, b3, b4, b5, b6, b7, b8, b9, b10, b11) := o in
  [b0; b1; b2; b3; b4; b5; b6; b7; b8; b9; b10; b11].

Definition of_bytes (l : list byte) : option t :=
  match l with
  | [b0; b1; b2; b3; b4; b5; b6; b7; b8; b9; b10; b11] =>
      Some (b0, b1, b2, b3, b4, b5, b6, b7, b8, b9, b10, b11)
  | _ => None
  end.

Definition hex_digit (n : nat) : ascii :=
  if n <? 10 then ascii_of_nat (48 + n) else ascii_of_nat (87 + n).

(** Value of a hexadecimal digit, either case. *)
Definition hex_value (c : ascii) : option nat :=
  let n := nat_of_ascii c in
  if (48 <=? n) && (n <=? 57) then Some (n - 48)
  else if (97 <=? n) && (n <=? 102) then Some (n - 87)
  else if (65 <=? n) && (n <=? 70) then Some (n - 55)
  else None.

Fixpoint encode (l : list byte) : list ascii :=
  match l with
  | [] => []
  | b :: l' =>
      hex_digit (Byte.to_nat b / 16) :: hex_digit (Byte.to_nat b mod 16)
      :: encode l'
  end.

Fixpoint decode (s : list ascii) : option (list byte) :=
  match s with
  | [] => Some []
  | hi :: lo :: s' =>
      match hex_value hi, hex_value lo, decode s' with
      | Some h, Some l, Some bs =>
          match Byte.of_nat (16 * h + l) with
          | Some b => Some (b :: bs)
          | None => None
          end
      | _, _, _ => None
      end
  | [_] => None
  end.

(** [ObjectId.prototype.toString]: 24 lower-case hexadecimal digits. *)
Definition toString (o : t) : string :=
  string_of_list_ascii (encode (bytes o)).

(** The cast of a route parameter to an ObjectId: a string of 24
    hexadecimal digits. *)
Definition ofString (s : string) : option t :=
  match decode (list_ascii_of_string s) with
  | Some bs => of_bytes bs
  | None => None
  end.

(** [mongoose.Types.ObjectId.isValid] on a string, as the BSON library
    of Mongoose 8 decides it: 24 hexadecimal digits. *)
Definition isValid (s : string) : bool :=
  match ofString s with Some _ => true | None => false end.

Definition eqb (a b : t) : bool :=
  String.eqb (toString a) (toString b).

End ObjectId.

(* ===================================================================== *)
(** ** [JSON.parse] *)
(* ===================================================================== *)

Module JSON.

(** A parsed value.  Number and string lexemes are kept as written, and
    so are the keys of an object: the backend inspects the shape of the
    value and reads two of its properties. *)
#[local] Unset Elimination Schemes.
Inductive value : Type :=
| Null
| Bool (b : bool)
| Number (lexeme : list ascii)
| Str (raw : list ascii)
| Array (elements : list value)
| Object (members : list (list ascii * value)).
#[local] Set Elimination Schemes.

Definition dquote : ascii := ascii_of_nat 34.
Definition backslash : ascii := ascii_of_nat 92.

Definition is_ws (c : ascii) : bool :=
  let n := nat_of_ascii c in
  (n =? 32) || (n =? 9) || (n =? 10) || (n =? 13).

Fixpoint skip_ws (s : list ascii) : list ascii :=
  match s with
  | c :: s' => if is_ws c then skip_ws s' else s
  | [] => []
  end.

Fixpoint strip_prefix (p s : list ascii) : option (list ascii) :=
  match p, s with
  | [], _ => Some s
  | a :: p', b :: s' => if Ascii.eqb a b then strip_prefix p' s' else None
  | _ :: _, [] => None
  end.

Definition is_hex (c : ascii) : bool :=
  match ObjectId.hex_value c with Some _ => true | None => false end.

(** Longest prefix of decimal digits, and the rest. *)
Fixpoint span_digits (s : list ascii) : list ascii * list ascii :=
  match s with
  | c :: s' =>
      if RegExp.digit c
      then let (ds, r) := span_digits s' in (c :: ds, r)
      else ([], s)
  | [] => ([], [])
  end.

(** [0], or a digit [1-9] followed by digits; [sign] is what was read
    before. *)
Definition int_digits (sign s : list ascii)
  : option (list ascii * list ascii) :=
  match s with
  | c :: r =>
      if Ascii.eqb c "0" then Some ((sign ++ [c])%list, r)
      else if RegExp.range "1" "9" c
      then let (ds, r') := span_digits r in
           Some ((sign ++ c :: ds)%list, r')
      else None
  | [] => None
  end.

(** An optional minus sign, then the integer digits. *)
Definition int_part (s : list ascii) : option (list ascii * list ascii) :=
  match s with
  | c :: r => if Ascii.eqb c "-" then int_digits [c] r else int_digits [] s
  | [] => None
  end.

(** Optionally: a dot followed by at least one digit. *)
Definition frac_part (s : list ascii) : option (list ascii * list ascii) :=
  match s with
  | c :: r =>
      if Ascii.eqb c "."
      then match span_digits r with
           | ([], _) => None
           | (ds, r') => Some (c :: ds, r')
           end
      else Some ([], s)
  | [] => Some ([], s)
  end.

(** At least one digit; [mark] is what was read before. *)
Definition exp_digits (mark s : list ascii)
  : option (list ascii * list ascii) :=
  match span_digits s with
  | ([], _) => None
  | (ds, r) => Some ((mark ++ ds)%list, r)
  end.

(** Optionally: [e] or [E], an optional sign, at least one digit. *)
Definition exp_part (s : list ascii) : option (list ascii * list ascii) :=
  match s with
  | c :: r =>
      if Ascii.eqb c "e" || Ascii.eqb c "E"
      then
        match r with
        | d :: r' =>
            if Ascii.eqb d "+" || Ascii.eqb d "-"
            then exp_digits [c; d] r' else exp_digits [c] r
        | [] => None
        end
      else Some ([], s)
  | [] => Some ([], s)
  end.

Definition number (s : list ascii) : option (list ascii * list ascii) :=
  match int_part s with
  | Some (i, r1) =>
      match frac_part r1 with
      | Some (f, r2) =>
          match exp_part r2 with
          | Some (e, r3) => Some ((i ++ f ++ e)%list, r3)
          | None => None
          end
      | None => None
      end
  | None => None
  end.

Definition is_escape (c : ascii) : bool :=
  Ascii.eqb c dquote || Ascii.eqb c backslash || Ascii.eqb c "/"
  || Ascii.eqb c "b" || Ascii.eqb c "f" || Ascii.eqb c "n"
  || Ascii.eqb c "r" || Ascii.eqb c "t".

(** The characters of a string after its opening quote, up to the
    closing quote; [acc] holds them in reverse. *)
Fixpoint string_body (s acc : list ascii)
  : option (list ascii * list ascii) :=
  match s with
  | [] => None
  | c :: r =>
      if Ascii.eqb c dquote then Some (rev acc, r)
      else if Ascii.eqb c backslash then
        match r with
        | e :: r1 =>
            if is_escape e then string_body r1 (e :: c :: acc)
            else if Ascii.eqb e "u" then
              match r1 with
              | h1 :: h2 :: h3 :: h4 :: r2 =>
                  if is_hex h1 && is_hex h2 && is_hex h3 && is_hex h4
                  then string_body r2 (h4 :: h3 :: h2 :: h1 :: e :: c :: acc)
                  else None
              | _ => None
              end
            else None
        | [] => None
        end
      else if nat_of_ascii c <? 32 then None
      else string_body r (c :: acc)
  end.

(** Recursive descent; [fuel] bounds the depth of the calls. *)
Fixpoint parse_value (fuel : nat) (s : list ascii)
  : option (value * list ascii) :=
  match fuel with
  | O => None
  | S fuel' =>
      match skip_ws s with
      | [] => None
      | c :: r =>
          if Ascii.eqb c "[" then
            match skip_ws r with
            | c' :: r' =>
                if Ascii.eqb c' "]" then Some (Array [], r')
                else parse_elements fuel' r []
            | [] => None
            end
          else if Ascii.eqb c "{" then
            match skip_ws r with
            | c' :: r' =>
                if Ascii.eqb c' "}" then Some (Object [], r')
                else parse_members fuel' r []
            | [] => None
            end
          else if Ascii.eqb c dquote then
            match string_body r [] with
            | Some (raw, r') => Some (Str raw, r')
            | None => None
            end
          else
            match strip_prefix (list_ascii_of_string "null") (c :: r),
                  strip_prefix (list_ascii_of_string "true") (c :: r),
                  strip_prefix (list_ascii_of_string "false") (c :: r) with
            | Some r', _, _ => Some (Null, r')
            | _, Some r', _ => Some (Bool true, r')
            | _, _, Some r' => Some (Bool false, r')
            | None, None, None =>
                match number (c :: r) with
                | Some (lexeme, r') => Some (Number lexeme, r')
                | None => None
                end
            end
      end
  end

with parse_elements (fuel : nat) (s : list ascii) (acc : list value)
  : option (value * list ascii) :=
  match fuel with
  | O => None
  | S fuel' =>
      match parse_value fuel' s with
      | Some (v, r) =>
          match skip_ws r with
          | c :: r' =>
              if Ascii.eqb c "," then parse_elements fuel' r' (v :: acc)
              else if Ascii.eqb c "]"
              then Some (Array (rev (v :: acc)), r')
              else None
          | [] => None
          end
      | None => None
      end
  end

with parse_members (fuel : nat) (s : list ascii)
       (acc : list (list ascii * value))
  : option (value * list ascii) :=
  match fuel with
  | O => None
  | S fuel' =>
      match skip_ws s with
      | q :: r0 =>
          if Ascii.eqb q dquote then
            match string_body r0 [] with
            | Some (key, r1) =>
                match skip_ws r1 with
                | c :: r2 =>
                    if Ascii.eqb c ":" then
                      match parse_value fuel' r2 with
                      | Some (v, r3) =>
                          match skip_ws r3 with
                          | d :: r4 =>
                              if Ascii.eqb d ","
                              then parse_members fuel' r4 ((key, v) :: acc)
                              else if Ascii.eqb d "}"
                              then Some (Object (rev ((key, v) :: acc)), r4)
                              else None
                          | [] => None
                          end
                      | None => None
                      end
                    else None
                | [] => None
                end
            | None => None
            end
          else None
      | [] => None
      end
  end.

(** [JSON.parse(text)]: [None] stands for the [SyntaxError].  Every call
    in a chain consumes a character before the second next one, so twice
    the length of the text bounds the depth: no larger fuel yields another
    result ([JSON_parse_complete] below). *)
Definition parse (text : string) : option value :=
  let s := list_ascii_of_string text in
  match parse_value (2 * length s + 2) s with
  | Some (v, r) =>
      match skip_ws r with
      | [] => Some v
      | _ :: _ => None
      end
  | None => None
  end.

(** [ToString] of an argument that is a string or [undefined]. *)
Definition ToString (v : option string) : string :=
  match v with Some s => s | None => "undefined" end.

(** The character that a one-letter escape denotes: [b], [f], [n], [r]
    and [t] stand for control characters, the quote, the backslash and
    the slash for themselves. *)
Definition escape_denotes (e : ascii) : ascii :=
  if Ascii.eqb e "b" then ascii_of_nat 8
  else if Ascii.eqb e "f" then ascii_of_nat 12
  else if Ascii.eqb e "n" then ascii_of_nat 10
  else if Ascii.eqb e "r" then ascii_of_nat 13
  else if Ascii.eqb e "t" then ascii_of_nat 9
  else e.

(** The code unit that the four digits of a [u] escape denote. *)
Definition hex4 (h1 h2 h3 h4 : ascii) : option nat :=
  match ObjectId.hex_value h1, ObjectId.hex_value h2,
        ObjectId.hex_value h3, ObjectId.hex_value h4 with
  | Some a, Some b, Some c, Some d => Some (4096 * a + 256 * b + 16 * c + d)
  | _, _, _, _ => None
  end.

(** Whether the lexeme [raw] of a key, escapes included, denotes the
    property name [name]; [name] is made of ASCII characters, each of
    which is one character of the key, written plainly or escaped. *)
Fixpoint denotes (name raw : list ascii) : bool :=
  match name, raw with
  | [], [] => true
  | n :: name', c :: raw' =>
      if Ascii.eqb c backslash then
        match raw' with
        | e :: raw1 =>
            if Ascii.eqb e "u" then
              match raw1 with
              | h1 :: h2 :: h3 :: h4 :: raw2 =>
                  match hex4 h1 h2 h3 h4 with
                  | Some u => (u =? nat_of_ascii n) && denotes name' raw2
                  | None => false
                  end
              | _ => false
              end
            else Ascii.eqb (escape_denotes e) n && denotes name' raw1
        | [] => false
        end
      else Ascii.eqb c n && denotes name' raw'
  | _, _ => false
  end.

(** The own property [name] of an object that [JSON.parse] made: every
    member is an own data property, and of two members with one name the
    later stands.  [None] is for no such property. *)
Definition own_property (name : string) (members : list (list ascii * value))
  : option value :=
  fold_left
    (fun found member =>
       if denotes (list_ascii_of_string name) (fst member)
       then Some (snd member) else found)
    members None.

(** [O.name] and [O.phone] for a value [O] other than [null]: the own
    property of an object, and [undefined] ([None]) otherwise, since
    neither an array, a string, a number or a boolean nor a prototype of
    theirs has a property of these names. *)
Definition Get (O : value) (P : string) : option value :=
  match O with
  | Object members => own_property P members
  | _ => None
  end.

(** Whether [ToString(v)] throws a [TypeError].  An object with an own
    property [toString] has no string form: whatever JSON can hold there
    is not callable, and [valueOf] yields the object itself.  Without
    one, [Object.prototype.toString] answers.  An array joins the string
    forms of its elements, [null] counting as the empty string.  The
    other values are primitive. *)
Fixpoint ToString_throws (v : value) : bool :=
  match v with
  | Object members =>
      match own_property "toString" members with
      | Some _ => true
      | None => false
      end
  | Array elements => existsb ToString_throws elements
  | _ => false
  end.

(** The same for the value of a property, which may be [undefined]. *)
Definition substitution_throws (v : option value) : bool :=
  match v with
  | Some v' => ToString_throws v'
  | None => false
  end.

End JSON.

(* ===================================================================== *)
(** ** Exceptions and the handler monad *)
(* ===================================================================== *)

(** What a [catch (err)] clause of the backend can observe of [err]. *)
Inductive Thrown : Type :=
| MongoServerError (code : Z)
| ValidationError (errors : list (string * string))
| OtherError (message : string).

(** [err.code] *)
Definition err_code (e : Thrown) : option Z :=
  match e with
  | MongoServerError c => Some c
  | ValidationError _ | OtherError _ => None
  end.

(** [err.name] *)
Definition err_name (e : Thrown) : string :=
  match e with
  | MongoServerError _ => "MongoServerError"
  | ValidationError _ => "ValidationError"
  | OtherError _ => "Error"
  end.

(** [err.errors], one entry per failed path: (path, message). *)
Definition err_errors (e : Thrown) : list (string * string) :=
  match e with
  | ValidationError errs => errs
  | MongoServerError _ | OtherError _ => []
  end.

Module Monad.

(** A computation over a state [S] that returns or throws. *)
Definition M (S A : Type) : Type := S -> (Thrown + A) * S.

Definition ret {S A} (a : A) : M S A := fun s => (inr a, s).

Definition throw {S A} (e : Thrown) : M S A := fun s => (inl e, s).

Definition bind {S A B} (m : M S A) (f : A -> M S B) : M S B :=
  fun s =>
    match m s with
    | (inr a, s') => f a s'
    | (inl e, s') => (inl e, s')
    end.

(** [try { body } catch (err) { handler }] *)
Definition try_catch {S A} (body : M S A) (handler : Thrown -> M S A)
  : M S A :=
  fun s =>
    match body s with
    | (inr a, s') => (inr a, s')
    | (inl e, s') => handler e s'
    end.

Definition get {S} : M S S := fun s => (inr s, s).
Definition put {S} (s : S) : M S unit := fun _ => (inr tt, s).

End Monad.

Import Monad.

Declare Scope monad_scope.
Delimit Scope monad_scope with monad.
Notation "x <- m ;; k" := (bind m (fun x => k))
  (at level 61, m at next level, right associativity) : monad_scope.
Notation "m ;;; k" := (bind m (fun _ => k))
  (at level 61, right associativity) : monad_scope.
Local Open Scope monad_scope.

(* ===================================================================== *)
(** ** The Mongoose model [Contact] *)
(* ===================================================================== *)

(** [/^\+[1-9]\d{1,14}$/] *)
Definition E164_REGEX : RegExp.regexp :=
  [ RegExp.One (RegExp.lit "+");
    RegExp.One (RegExp.range "1" "9");
    RegExp.Rep RegExp.digit 1 14 ].

Module Schema.

(** The options of a [String] path that the schema uses. *)
Record StringPath : Type := {
  required : option string;              (* [true, message] *)
  trim : bool;
  unique : bool;
  match_ : option (RegExp.regexp * string) (* [regexp, message] *)
}.

(** Setters run when the document is built. *)
Definition set (p : StringPath) (v : option string) : option string :=
  if trim p then option_map JsString.trim v else v.

(** Validators of one path, in declaration order; the first failure is
    the error of the path.  [required] rejects a missing or empty
    string; [match] is skipped on a missing or empty string. *)
Definition validate (p : StringPath) (v : option string) : option string :=
  match required p, JsString.truthy_opt v with
  | Some msg, false => Some msg
  | _, _ =>
      match match_ p, v with
      | Some (re, msg), Some s =>
          if JsString.truthy s && negb (RegExp.test re s)
          then Some msg else None
      | _, _ => None
      end
  end.

End Schema.

Module Contact.

(** [ContactSchema.name] *)
Definition ContactSchema_name : Schema.StringPath :=
  {| Schema.required := Some "Please provide a name";
     Schema.trim := true;
     Schema.unique := false;
     Schema.match_ := None |}.

(** [ContactSchema.phone] *)
Definition ContactSchema_phone : Schema.StringPath :=
  {| Schema.required := Some "Please provide a phone number";
     Schema.trim := false;
     Schema.unique := true;
     Schema.match_ :=
       Some (E164_REGEX,
             "Please provide a valid phone number in E.164 format") |}.

(** A stored document. *)
Record t : Type := {
  _id : ObjectId.t;
  name : string;
  phone : string;
  createdAt : Z
}.

(** A document under construction: [new Contact({ name, phone })]. *)
Record draft : Type := {
  d_id : ObjectId.t;
  d_name : option string;
  d_phone : option string;
  d_createdAt : Z
}.

(** The collection, in insertion order; [None] when no connection to
    the database can be used. *)
Definition collection : Type := list t.
Definition Db : Type := option collection.

(** [new Contact({ name, phone })]: the driver draws the [_id], the
    default of [createdAt] is [Date.now()], setters are applied. *)
Definition new (oid : ObjectId.t) (now : Z) (name phone : option string)
  : draft :=
  {| d_id := oid;
     d_name := Schema.set ContactSchema_name name;
     d_phone := Schema.set ContactSchema_phone phone;
     d_createdAt := now |}.

(** [doc.validateSync().errors], in schema order. *)
Definition validate (d : draft) : list (string * string) :=
  (match Schema.validate ContactSchema_name (d_name d) with
   | Some msg => [("name", msg)]
   | None => []
   end
   ++
   match Schema.validate ContactSchema_phone (d_phone d) with
   | Some msg => [("phone", msg)]
   | None => []
   end)%list.

(** The document written for a draft that passed validation. *)
Definition document (d : draft) : t :=
  {| _id := d_id d;
     name := match d_name d with Some s => s | None => "" end;
     phone := match d_phone d with Some s => s | None => "" end;
     createdAt := d_createdAt d |}.

Definition has_id (oid : ObjectId.t) (c : t) : bool :=
  ObjectId.eqb (_id c) oid.

Definition has_phone (p : string) (c : t) : bool :=
  String.eqb (phone c) p.

(** The insert of the driver: the unique indexes on [_id] and [phone]
    reject a duplicate key with error code 11000. *)
Definition insertOne (c : t) : M Db t :=
  db <- get ;;
  match db with
  | None => throw (OtherError "MongooseError: no connection")
  | Some docs =>
      if existsb (has_id (_id c)) docs || existsb (has_phone (phone c)) docs
      then throw (MongoServerError 11000)
      else put (Some (docs ++ [c])%list) ;;; ret c
  end.

(** [doc.save()]: validation first, then the write. *)
Definition save (d : draft) : M Db t :=
  match validate d with
  | [] => insertOne (document d)
  | errs => throw (ValidationError errs)
  end.

(** Insertion of a document into a list sorted by name. *)
Fixpoint insert_by_name (c : t) (l : list t) : list t :=
  match l with
  | [] => [c]
  | x :: l' =>
      if String.leb (name c) (name x) then c :: l
      else x :: insert_by_name c l'
  end.

(** [.sort({ name: 1 })]: ascending, strings compared byte-wise. *)
Fixpoint sort_by_name (l : list t) : list t :=
  match l with
  | [] => []
  | x :: l' => insert_by_name x (sort_by_name l')
  end.

(** [Contact.find().sort({ name: 1 })] *)
Definition find_sort_name : M Db (list t) :=
  db <- get ;;
  match db with
  | None => throw (OtherError "MongooseError: no connection")
  | Some docs => ret (sort_by_name docs)
  end.

(** Removal of the first document with the given [_id]. *)
Fixpoint remove_id (oid : ObjectId.t) (l : list t) : list t :=
  match l with
  | [] => []
  | x :: l' => if has_id oid x then l' else x :: remove_id oid l'
  end.

(** [Contact.findByIdAndDelete(id)]: the deleted document, or [null]. *)
Definition findByIdAndDelete (id : string) : M Db (option t) :=
  db <- get ;;
  match db with
  | None => throw (OtherError "MongooseError: no connection")
  | Some docs =>
      match ObjectId.ofString id with
      | None => throw (OtherError "CastError")
      | Some oid =>
          match find (has_id oid) docs with
          | None => ret None
          | Some c => put (Some (remove_id oid docs)) ;;; ret (Some c)
          end
      end
  end.

End Contact.

(* ===================================================================== *)
(** ** HTTP requests and responses *)
(* ===================================================================== *)

(** A value of [req.query]: absent, a string, or the array or object that
    the query-string parser builds from repeated or bracketed keys. *)
Inductive QueryValue : Type :=
| QUndefined
| QString (s : string)
| QNested.

(** Truthiness: arrays and objects are truthy. *)
Definition q_truthy (v : QueryValue) : bool :=
  match v with
  | QUndefined => false
  | QString s => JsString.truthy s
  | QNested => true
  end.

(** [v === s] for a string [s]. *)
Definition q_strict_eq (v : QueryValue) (s : string) : bool :=
  match v with
  | QString s' => String.eqb s' s
  | QUndefined | QNested => false
  end.

(** The result of [transformContact]. *)
Record ContactJson : Type := {
  id : string;
  json_name : string;
  json_phone : string;
  json_createdAt : Z
}.

Inductive Body : Type :=
| JsonContacts (l : list ContactJson)
| JsonContact (c : ContactJson)
| JsonMessage (message : string)      (* [{ message }] *)
| JsonSuccess                         (* [{ success: true }] *)
| JsonContent (content : option string) (* [{ content }] *)
| Send (v : QueryValue)               (* [res.send(v)] *)
| StatusText                          (* [res.sendStatus(code)] *)
| DefaultErrorPage.                   (* Express's own error handler *)

Record Response : Type := {
  status : nat;
  body : Body
}.

(** [res.status(code).json({ message })] *)
Definition message_response (code : nat) (message : string) : Response :=
  {| status := code; body := JsonMessage message |}.

(** [process.env] *)
Record Env : Type := {
  API_KEY : option string;
  WEBHOOK_VERIFY_TOKEN : option string
}.

(** [process.env.X || fallback] *)
Definition env_or (v : option string) (fallback : string) : string :=
  match v with
  | Some s => if JsString.truthy s then s else fallback
  | None => fallback
  end.

(** [req.body] of [POST /api/contacts]. *)
Record ContactBody : Type := {
  body_name : option string;
  body_phone : option string
}.

(** [req.query] of [GET /api/webhook]. *)
Record WebhookQuery : Type := {
  hub_mode : QueryValue;
  hub_verify_token : QueryValue;
  hub_challenge : QueryValue
}.

(** [req.file], as the upload middleware leaves it. *)
Record File : Type := {
  originalname : string;
  mimetype : string
}.

(** [req.body] and [req.file] of [POST /api/send-bulk], decoded from the
    multipart form. *)
Record SendBulk : Type := {
  heading : option string;
  content : option string;
  contactsJSON : option string;
  mediaFile : option File
}.

(** The requests that touch the collection.  The [_id] drawn by the driver
    and the clock reading come with the request. *)
Inductive Request : Type :=
| GetContacts
| PostContacts (oid : ObjectId.t) (now : Z) (b : ContactBody)
| DeleteContacts (id : string).

(** [transformContact] *)
Definition transformContact (contact : Contact.t) : ContactJson :=
  {| id := ObjectId.toString (Contact._id contact);
     json_name := Contact.name contact;
     json_phone := Contact.phone contact;
     json_createdAt := Contact.createdAt contact |}.

(* ===================================================================== *)
(** ** Calls to the text-generation service *)
(* ===================================================================== *)

Module Gateway.

(** A computation that may call [ai.models.generateContent] and goes on
    with its outcome: the text of the response ([response.text], which
    may be [undefined]) or the exception of the call. *)
Inductive t (A : Type) : Type :=
| Done (a : A)
| GenerateContent (apiKey model prompt : string)
                  (k : Thrown + option string -> t A).

Arguments Done {A} a.
Arguments GenerateContent {A} apiKey model prompt k.

(** The service, as the environment provides it. *)
Definition service : Type := string -> string -> Thrown + option string.

(** The result, and the calls made, first call first. *)
Fixpoint run {A} (svc : service) (g : t A) : A * list (string * string) :=
  match g with
  | Done a => (a, [])
  | GenerateContent _ model prompt k =>
      let (a, calls) := run svc (k (svc model prompt)) in
      (a, (model, prompt) :: calls)
  end.

Definition quote : string := String (ascii_of_nat 34) "".

(** The template literal of the prompt. *)
Definition prompt (heading : string) : string :=
  "You are a marketing expert. Write a short, engaging, and friendly message for a WhatsApp broadcast. The main topic or heading is: "
  ++ quote ++ heading ++ quote
  ++ ". The message should be concise, clear, and have a compelling call to action if appropriate. Do not include placeholders like "
  ++ quote ++ "[Your Company Name]" ++ quote ++ ".".

End Gateway.

(* ===================================================================== *)
(** ** Routes shared by both revisions *)
(* ===================================================================== *)

Module Routes.

Import Contact.

(** Body of [app.get('/api/contacts')] after the connection step. *)
Definition list_contacts : M Db Response :=
  contacts <- Contact.find_sort_name ;;
  ret {| status := 200;
         body := JsonContacts (map transformContact contacts) |}.

Definition list_contacts_catch (err : Thrown) : M Db Response :=
  ret (message_response 500 "Server Error: Could not fetch contacts.").

(** Body of [app.post('/api/contacts')] after the connection step. *)
Definition create_contact (oid : ObjectId.t) (now : Z) (b : ContactBody)
  : M Db Response :=
  let newContact := Contact.new oid now (body_name b) (body_phone b) in
  savedContact <- Contact.save newContact ;;
  ret {| status := 201;
         body := JsonContact (transformContact savedContact) |}.

Definition create_contact_catch (err : Thrown) : M Db Response :=
  if match err_code err with Some c => Z.eqb c 11000 | None => false end
  then ret (message_response 409 "Phone number already exists.")
  else if String.eqb (err_name err) "ValidationError"
  then
    let messages := map snd (err_errors err) in
    ret (message_response 400 (JsString.join ", " messages))
  else ret (message_response 500 "Server Error: Could not create contact.").

(** Body of [app.delete('/api/contacts/:id')] after the connection
    step. *)
Definition delete_contact (id : string) : M Db Response :=
  if negb (ObjectId.isValid id)
  then ret (message_response 400 "Invalid contact ID format.")
  else
    contact <- Contact.findByIdAndDelete id ;;
    match contact with
    | None => ret (message_response 404 "Contact not found.")
    | Some _ => ret {| status := 200; body := JsonSuccess |}
    end.

Definition delete_contact_catch (err : Thrown) : M Db Response :=
  ret (message_response 500 "Server Error: Could not delete contact.").

(** [app.get('/api/webhook')], the same text in both revisions. *)
Definition VERIFY_TOKEN (env : Env) : string :=
  env_or (WEBHOOK_VERIFY_TOKEN env) "merajWebhookToken".

Definition get_webhook (env : Env) (query : WebhookQuery) : Response :=
  let mode := hub_mode query in
  let token := hub_verify_token query in
  let challenge := hub_challenge query in
  if q_truthy mode && q_truthy token then
    if q_strict_eq mode "subscribe"
       && q_strict_eq token (VERIFY_TOKEN env)
    then {| status := 200; body := Send challenge |}
    else {| status := 403; body := StatusText |}
  else
    message_response 400
      "Missing required query parameters for webhook verification.".

(** [JSON.parse(contactsJSON)], throwing a [SyntaxError]. *)
Definition JSON_parse {S} (text : option string) : M S JSON.value :=
  match JSON.parse (JSON.ToString text) with
  | Some v => ret v
  | None => throw (OtherError "SyntaxError")
  end.

(** The [try] block of [app.post('/api/send-bulk')]: either the response
    of an early [return], or the array of recipients. *)
Definition parse_contacts {S} (contactsJSON : option string)
  : M S (Response + list JSON.value) :=
  try_catch
    (contacts <- JSON_parse contactsJSON ;;
     match contacts with
     | JSON.Array l =>
         if length l =? 0
         then ret (inl (message_response 400
                          "No contacts provided or invalid format."))
         else ret (inr l)
     | _ => ret (inl (message_response 400
                        "No contacts provided or invalid format."))
     end)
    (fun error =>
       ret (inl (message_response 400 "Invalid contacts format."))).

(** The callback of [contacts.forEach]: reading [contact.name] throws a
    [TypeError] on [null], and the template literal throws one when
    [contact.name] or [contact.phone] has no string form. *)
Definition log_contact {S} (contact : JSON.value) : M S unit :=
  match contact with
  | JSON.Null => throw (OtherError "TypeError")
  | _ =>
      if JSON.substitution_throws (JSON.Get contact "name")
         || JSON.substitution_throws (JSON.Get contact "phone")
      then throw (OtherError "TypeError")
      else ret tt
  end.

Fixpoint forEach {S} (f : JSON.value -> M S unit) (l : list JSON.value)
  : M S unit :=
  match l with
  | [] => ret tt
  | x :: l' => f x ;;; forEach f l'
  end.

(** The simulated send: the log lines, then the answer of the timer
    callback. *)
Definition simulate_send {S} (contacts : list JSON.value) : M S Response :=
  forEach log_contact contacts ;;;
  ret (message_response 200
         ("Message successfully sent to "
          ++ JsString.of_nat (length contacts) ++ " contacts.")).

Definition send_to_contacts {S} (contactsJSON : option string)
  : M S Response :=
  r <- parse_contacts contactsJSON ;;
  match r with
  | inl early => ret early
  | inr contacts => simulate_send contacts
  end.

End Routes.

(** A handler run to its response: an exception that leaves the handler
    reaches the error handler of the application. *)
Definition respond {S} (on_error : Thrown -> Response) (h : M S Response)
  (s : S) : Response * S :=
  match h s with
  | (inr r, s') => (r, s')
  | (inl e, s') => (on_error e, s')
  end.

(* ===================================================================== *)
(** ** First revision: [backend/server.js] *)
(* ===================================================================== *)

Module V1.

Import Contact.

(** No error middleware is installed: Express answers 500 itself. *)
Definition error_handler (err : Thrown) : Response :=
  {| status := 500; body := DefaultErrorPage |}.

Definition get_contacts : Db -> Response * Db :=
  respond error_handler
    (try_catch Routes.list_contacts Routes.list_contacts_catch).

Definition post_contacts (oid : ObjectId.t) (now : Z) (b : ContactBody)
  : Db -> Response * Db :=
  respond error_handler
    (try_catch (Routes.create_contact oid now b)
               Routes.create_contact_catch).

Definition delete_contacts (id : string) : Db -> Response * Db :=
  respond error_handler
    (try_catch (Routes.delete_contact id) Routes.delete_contact_catch).

Definition handle (r : Request) : Db -> Response * Db :=
  match r with
  | GetContacts => get_contacts
  | PostContacts oid now b => post_contacts oid now b
  | DeleteContacts id => delete_contacts id
  end.

Definition get_webhook := Routes.get_webhook.

(** [app.post('/api/send-bulk')] *)
Definition post_send_bulk (req : SendBulk) : Response :=
  fst (respond error_handler
         (if negb (JsString.truthy_opt (content req))
          then ret (message_response 400 "Message content cannot be empty.")
          else Routes.send_to_contacts (contactsJSON req))
         tt).

End V1.

(* ===================================================================== *)
(** ** Second revision: cached connection, AI proxy, error middleware *)
(* ===================================================================== *)

Module V2.

Import Contact.

(** The last [app.use((err, req, res, next) => ...)]. *)
Definition error_handler (err : Thrown) : Response :=
  message_response 500
    "An internal server error occurred. Please try again later.".

(** [connectToDatabase]: returns the cached or a new connection, throws
    when [MONGO_URI] is missing or the connection is refused. *)
Definition connectToDatabase : M Db unit :=
  db <- get ;;
  match db with
  | Some _ => ret tt
  | None => throw (OtherError "MongoDB connection error")
  end.

Definition get_contacts : Db -> Response * Db :=
  respond error_handler
    (try_catch (connectToDatabase ;;; Routes.list_contacts)
               Routes.list_contacts_catch).

Definition post_contacts (oid : ObjectId.t) (now : Z) (b : ContactBody)
  : Db -> Response * Db :=
  respond error_handler
    (try_catch (connectToDatabase ;;; Routes.create_contact oid now b)
               Routes.create_contact_catch).

Definition delete_contacts (id : string) : Db -> Response * Db :=
  respond error_handler
    (try_catch (connectToDatabase ;;; Routes.delete_contact id)
               Routes.delete_contact_catch).

Definition handle (r : Request) : Db -> Response * Db :=
  match r with
  | GetContacts => get_contacts
  | PostContacts oid now b => post_contacts oid now b
  | DeleteContacts id => delete_contacts id
  end.

Definition get_webhook := Routes.get_webhook.

(** [content && content.trim().length > 0] *)
Definition hasTextContent (content : option string) : bool :=
  match content with
  | Some c => JsString.truthy c && (0 <? String.length (JsString.trim c))
  | None => false
  end.

Definition isSome {A} (v : option A) : bool :=
  match v with Some _ => true | None => false end.

(** [app.post('/api/send-bulk')] *)
Definition post_send_bulk (req : SendBulk) : Response :=
  fst (respond error_handler
         (if negb (hasTextContent (content req))
             && negb (isSome (mediaFile req))
          then ret (message_response 400
                 "A message must contain either text content or a media file.")
          else Routes.send_to_contacts (contactsJSON req))
         tt).

(** The client of the text-generation service, built when the module is
    loaded: [if (process.env.API_KEY) ai = new GoogleGenAI(...)]. *)
Definition ai (env : Env) : option string :=
  match API_KEY env with
  | Some key => if JsString.truthy key then Some key else None
  | None => None
  end.

(** [app.post('/api/generate-content')]; [heading] is [None] when the
    body has no string under that key. *)
Definition post_generate_content (env : Env) (heading : option string)
  : Gateway.t Response :=
  match ai env with
  | None =>
      Gateway.Done
        (message_response 503 "AI service is not configured on the server.")
  | Some key =>
      match heading with
      | Some h =>
          if negb (JsString.truthy h)
             || (String.length (JsString.trim h) =? 0)
          then Gateway.Done
                 (message_response 400
                    "Heading is required to generate content.")
          else
            Gateway.GenerateContent key "gemini-2.5-flash"
              (Gateway.prompt h)
              (fun r =>
                 match r with
                 | inr text =>
                     Gateway.Done
                       {| status := 200; body := JsonContent text |}
                 | inl error =>
                     Gateway.Done
                       (message_response 500
                          "Failed to generate AI content. Please check the server logs.")
                 end)
      | None =>
          Gateway.Done
            (message_response 400 "Heading is required to generate content.")
      end
  end.

End V2.

(* ===================================================================== *)
(** ** The client-side gateway: [services/geminiService.ts] *)
(* ===================================================================== *)

Module GeminiService.

(** [generateMessageContent]: the promise resolves ([inr]) or rejects
    ([inl]). *)
Definition generateMessageContent (env : Env) (heading : string)
  : Gateway.t (Thrown + option string) :=
  match API_KEY env with
  | Some key =>
      if JsString.truthy key then
        Gateway.GenerateContent key "gemini-2.5-flash"
          (Gateway.prompt heading)
          (fun r =>
             match r with
             | inr text => Gateway.Done (inr text)
             | inl error =>
                 Gateway.Done
                   (inl (OtherError
                           "Failed to generate AI content. Please check the API key and try again."))
             end)
      else Gateway.Done (inl (OtherError "API key is not configured."))
  | None => Gateway.Done (inl (OtherError "API key is not configured."))
  end.

End GeminiService.

(* ===================================================================== *)
(** ** The service as a transition system *)
(* ===================================================================== *)

(** The states of the database that requests to either revision produce
    from the empty collection. *)
Inductive reachable : Contact.Db -> Prop :=
| reachable_empty : reachable (Some [])
| reachable_v1 (r : Request) (db : Contact.Db) :
    reachable db -> reachable (snd (V1.handle r db))
| reachable_v2 (r : Request) (db : Contact.Db) :
    reachable db -> reachable (snd (V2.handle r db)).

(** The invariant of the collection: the two unique indexes hold, and
    every document passed the validators of the schema. *)
Definition well_formed (docs : Contact.collection) : Prop :=
  NoDup (map Contact._id docs)
  /\ NoDup (map Contact.phone docs)
  /\ Forall (fun c => RegExp.test E164_REGEX (Contact.phone c) = true
                      /\ Contact.name c <> "") docs.

(* ===================================================================== *)
(** ** The error kinds of the bulk-send validator *)
(* ===================================================================== *)




Definition is_null (v : JSON.value) : bool :=
  match v with JSON.Null => true | _ => false end.

(** A contact-shaped record: a JSON object. *)
Definition contact_shaped (v : JSON.value) : bool :=
  match v with JSON.Object _ => true | _ => false end.

(** A recipient that the logging loop cannot print: [null], or a value
    whose [name] or [phone] has no string form. *)
Definition unprintable (v : JSON.value) : bool :=
  is_null v
  || JSON.substitution_throws (JSON.Get v "name")
  || JSON.substitution_throws (JSON.Get v "phone").

(** Content that is absent, or of which trimming leaves nothing: empty or
    white space only. *)
Definition blank (content : option string) : bool :=
  match content with
  | Some c => String.eqb (JsString.trim c) ""
  | None => true
  end.




(* ===================================================================== *)
(** ** Reference definitions for the statements *)
(* ===================================================================== *)

(** The strings that [E164_REGEX] accepts: a plus sign, a digit from 1 to
    9, then between one and fourteen further digits. *)
Definition e164_shape (s : string) : Prop :=
  exists d ds,
    s = String "+" (String d (string_of_list_ascii ds))
    /\ RegExp.range "1" "9" d = true
    /\ forallb RegExp.digit ds = true
    /\ 1 <= length ds <= 14.

(** The shape in the words of the data model: a plus sign followed by 1
    to 14 digits, the first of them from 1 to 9. *)
Definition spec_e164_shape (s : string) : Prop :=
  exists d ds,
    s = String "+" (String d (string_of_list_ascii ds))
    /\ RegExp.range "1" "9" d = true
    /\ forallb RegExp.digit ds = true
    /\ 1 <= length (d :: ds) <= 14.

Definition name_le (a b : Contact.t) : Prop :=
  String.leb (Contact.name a) (Contact.name b) = true.

Definition json_name_le (a b : ContactJson) : Prop :=
  String.leb (json_name a) (json_name b) = true.

(** The contact list of a response, when it carries one. *)
Definition listed (r : Response) : list ContactJson :=
  match body r with JsonContacts l => l | _ => [] end.

(** The decision of [POST /api/contacts], written flat. *)
Definition create_result (oid : ObjectId.t) (now : Z) (b : ContactBody)
  (docs : Contact.collection) : Response * Contact.Db :=
  let d := Contact.new oid now (body_name b) (body_phone b) in
  match Contact.validate d with
  | [] =>
      let c := Contact.document d in
      if existsb (Contact.has_id oid) docs
         || existsb (Contact.has_phone (Contact.phone c)) docs
      then (message_response 409 "Phone number already exists.", Some docs)
      else ({| status := 201; body := JsonContact (transformContact c) |},
            Some (docs ++ [c])%list)
  | errs =>
      (message_response 400 (JsString.join ", " (map snd errs)), Some docs)
  end.

(** The decision of [DELETE /api/contacts/:id], written flat. *)
Definition delete_result (id : string) (docs : Contact.collection)
  : Response * Contact.Db :=
  match ObjectId.ofString id with
  | None => (message_response 400 "Invalid contact ID format.", Some docs)
  | Some oid =>
      match find (Contact.has_id oid) docs with
      | None => (message_response 404 "Contact not found.", Some docs)
      | Some _ =>
          ({| status := 200; body := JsonSuccess |},
           Some (Contact.remove_id oid docs))
      end
  end.

(** The mode and the token of a query are the expected ones. *)
Definition verified (env : Env) (query : WebhookQuery) : Prop :=
  hub_mode query = QString "subscribe"
  /\ hub_verify_token query = QString (Routes.VERIFY_TOKEN env).

(** Mode and token are both present and not empty. *)
Definition mode_and_token_given (query : WebhookQuery) : Prop :=
  q_truthy (hub_mode query) = true /\ q_truthy (hub_verify_token query) = true.

Definition sample_oid (last : byte) : ObjectId.t :=
  (x65, x4f, x1a, x2b, x3c, x4d, x5e, x6f, x70, x81, x92, last)%byte.

Definition jane : Contact.t :=
  {| Contact._id := sample_oid x01;
     Contact.name := "Jane Doe";
     Contact.phone := "+12125551234";
     Contact.createdAt := 1700000000000%Z |}.

Definition zoe_body : ContactBody :=
  {| body_name := Some "Zoe"; body_phone := Some "+10000000001" |}.

Definition amy_body : ContactBody :=
  {| body_name := Some "Amy"; body_phone := Some "+10000000002" |}.

(** A recipient whose name has no string form. *)
Definition unprintable_json : string :=
  let q := Gateway.quote in
  "[{" ++ q ++ "name" ++ q ++ ":{" ++ q ++ "toString" ++ q ++ ":null}}]".

(** One recipient, as the client serialises it. *)
Definition amy_json : string :=
  let q := Gateway.quote in
  "[{" ++ q ++ "name" ++ q ++ ":" ++ q ++ "Amy" ++ q ++ ","
  ++ q ++ "phone" ++ q ++ ":" ++ q ++ "+10000000002" ++ q ++ "}]".

(* ===================================================================== *)
(** ** Reference definitions for the further properties *)
(* ===================================================================== *)

(** *** White space at the ends of a string *)

(** No white-space character starts the list. *)
Definition no_leading_ws (l : list ascii) : Prop :=
  match l with
  | [] => True
  | a :: l1 =>
      JsString.ws1 a = false
      /\ match l1 with
         | [] => True
         | b :: l2 =>
             JsString.ws2 a b = false
             /\ match l2 with
                | [] => True
                | c :: _ => JsString.ws3 a b c = false
                end
         end
  end.

(** The same for a reversed string: no white-space character ends it. *)
Definition no_leading_ws_rev (l : list ascii) : Prop :=
  match l with
  | [] => True
  | a :: l1 =>
      JsString.ws1 a = false
      /\ match l1 with
         | [] => True
         | b :: l2 =>
             JsString.ws2 b a = false
             /\ match l2 with
                | [] => True
                | c :: _ => JsString.ws3 c b a = false
                end
         end
  end.

(** The list form of [trim]. *)
Definition trim_list (l : list ascii) : list ascii :=
  rev (JsString.trimStart_rev (rev (JsString.trimStart l))).

Definition name_trimmed (c : Contact.t) : Prop :=
  JsString.trim (Contact.name c) = Contact.name c.

(** A body that the schema accepts: a name that is not blank once trimmed
    and a phone of the E.164 shape. *)
Definition valid_contact_body (b : ContactBody) : Prop :=
  (exists n, body_name b = Some n /\ JsString.trim n <> "")
  /\ (exists p, body_phone b = Some p /\ e164_shape p).

(** The keys of a new document are free in the collection. *)
Definition keys_free (oid : ObjectId.t) (b : ContactBody)
  (docs : Contact.collection) : Prop :=
  ~ In oid (map Contact._id docs)
  /\ forall p, body_phone b = Some p -> ~ In p (map Contact.phone docs).

(** The stored contact that a route parameter denotes. *)
Definition denotes (id : string) (c : Contact.t) : Prop :=
  ObjectId.ofString id = Some (Contact._id c).

(** The recipients part of the handler, written flat. *)
Definition recipients_response (on_error : Thrown -> Response)
  (text : option string) : Response :=
  match JSON.parse (JSON.ToString text) with
  | None => message_response 400 "Invalid contacts format."
  | Some (JSON.Array (x :: l)) =>
      if existsb unprintable (x :: l) then on_error (OtherError "TypeError")
      else message_response 200
             ("Message successfully sent to "
              ++ JsString.of_nat (length (x :: l)) ++ " contacts.")
  | Some _ => message_response 400 "No contacts provided or invalid format."
  end.

(** A recipients text that parses to a non-empty array of [n] recipients,
    each of which can be printed. *)
Definition recipients_usable (text : option string) (n : nat) : Prop :=
  exists l,
    JSON.parse (JSON.ToString text) = Some (JSON.Array l)
    /\ l <> [] /\ existsb unprintable l = false /\ length l = n.

Definition sent_message (n : nat) : Response :=
  message_response 200
    ("Message successfully sent to " ++ JsString.of_nat n ++ " contacts.").

(** A heading that the route rejects: none, or blank once trimmed. *)
Definition heading_blank (heading : option string) : Prop :=
  match heading with
  | Some h => JsString.trim h = ""
  | None => True
  end.

(* ===================================================================== *)
(** ** The client and the connection cache *)
(* ===================================================================== *)

(** *** The cached database connection of the second revision *)

Module Connection.

(** What [mongoose.connect] resolves to. *)
Definition Conn : Type := nat.

(** The module variable [cached], a promise being held by the outcome it
    settles to, and the URIs that [mongoose.connect] was called with, the
    latest first. *)
Record State : Type := {
  conn : option Conn;
  promise : option (Thrown + Conn);
  connects : list string
}.

Definition initial : State :=
  {| conn := None; promise := None; connects := [] |}.

(** The promise to await: the cached one, or a new call of
    [mongoose.connect]. *)
Definition ensure_promise (MONGO_URI : option string)
  (connect : string -> Thrown + Conn) : M State (Thrown + Conn) :=
  cached <- get ;;
  match promise cached with
  | Some p => ret p
  | None =>
      match MONGO_URI with
      | Some uri =>
          if JsString.truthy uri then
            let p := connect uri in
            put {| conn := conn cached; promise := Some p;
                   connects := uri :: connects cached |} ;;;
            ret p
          else throw (OtherError "MONGO_URI not found in environment variables. Database features will not be available.")
      | None => throw (OtherError "MONGO_URI not found in environment variables. Database features will not be available.")
      end
  end.

(** [connectToDatabase]; [MONGO_URI] is the variable of the environment
    and [connect] the outcome of [mongoose.connect] at this moment. *)
Definition connectToDatabase (MONGO_URI : option string)
  (connect : string -> Thrown + Conn) : M State Conn :=
  cached <- get ;;
  match conn cached with
  | Some c => ret c
  | None =>
      p <- ensure_promise MONGO_URI connect ;;
      cached' <- get ;;
      match p with
      | inr c =>
          put {| conn := Some c; promise := promise cached';
                 connects := connects cached' |} ;;;
          ret c
      | inl e =>
          put {| conn := conn cached'; promise := None;
                 connects := connects cached' |} ;;;
          throw e
      end
  end.

End Connection.

(** Sequencing of computations that call the service. *)
Fixpoint gateway_bind {A B} (g : Gateway.t A) (f : A -> Gateway.t B)
  : Gateway.t B :=
  match g with
  | Gateway.Done a => f a
  | Gateway.GenerateContent apiKey model prompt k =>
      Gateway.GenerateContent apiKey model prompt
        (fun r => gateway_bind (k r) f)
  end.

(** *** [JSON.stringify] of the contact list *)

Module Stringify.

(** The escape of one byte inside a string literal: the short escapes,
    [\u00XX] for the other control characters, the byte itself
    otherwise. *)
Definition escape_char (c : ascii) : list ascii :=
  let n := nat_of_ascii c in
  if Ascii.eqb c JSON.dquote then [JSON.backslash; JSON.dquote]
  else if Ascii.eqb c JSON.backslash then [JSON.backslash; JSON.backslash]
  else if n =? 8 then [JSON.backslash; "b"%char]
  else if n =? 9 then [JSON.backslash; "t"%char]
  else if n =? 10 then [JSON.backslash; "n"%char]
  else if n =? 12 then [JSON.backslash; "f"%char]
  else if n =? 13 then [JSON.backslash; "r"%char]
  else if n <? 32 then
    [JSON.backslash; "u"%char; "0"%char; "0"%char;
     ObjectId.hex_digit (n / 16); ObjectId.hex_digit (n mod 16)]
  else [c].

Definition escape (s : string) : list ascii :=
  flat_map escape_char (list_ascii_of_string s).

(** A quoted string. *)
Definition quote (s : string) : list ascii :=
  (JSON.dquote :: escape s ++ [JSON.dquote])%list.

(** [key: value] of an object, both quoted. *)
Definition member (key value : string) : list ascii :=
  (quote key ++ ":"%char :: quote value)%list.

(** One contact as the client holds it: [id], [name], [phone] and the
    [createdAt] text that the backend sent, [toISOString] being the
    rendering of a date in a JSON response. *)
Definition contact (toISOString : Z -> string) (c : ContactJson)
  : list ascii :=
  ("{"%char :: member "id" (id c)
   ++ ","%char :: member "name" (json_name c)
   ++ ","%char :: member "phone" (json_phone c)
   ++ ","%char :: member "createdAt" (toISOString (json_createdAt c))
   ++ ["}"%char])%list.

(** The elements of an array, separated by commas. *)
Fixpoint elements (toISOString : Z -> string) (l : list ContactJson)
  : list ascii :=
  match l with
  | [] => []
  | [c] => contact toISOString c
  | c :: l' => (contact toISOString c ++ ","%char :: elements toISOString l')%list
  end.

(** [JSON.stringify(contacts)] *)
Definition contacts (toISOString : Z -> string) (l : list ContactJson)
  : string :=
  string_of_list_ascii
    ("["%char :: elements toISOString l ++ ["]"%char])%list.

(** The value that [JSON.parse] reads back for a contact. *)
Definition contact_value (toISOString : Z -> string) (c : ContactJson)
  : JSON.value :=
  JSON.Object
    [ (list_ascii_of_string "id", JSON.Str (escape (id c)));
      (list_ascii_of_string "name", JSON.Str (escape (json_name c)));
      (list_ascii_of_string "phone", JSON.Str (escape (json_phone c)));
      (list_ascii_of_string "createdAt",
       JSON.Str (escape (toISOString (json_createdAt c)))) ].

End Stringify.

(** *** The path of a request: the URL parser of the browser *)

Module Url.

Definition code (c : ascii) : nat := nat_of_ascii c.

(** A C0 control or space: U+0000 to U+0020. *)
Definition c0_or_space (c : ascii) : bool := code c <=? 32.

(** An ASCII tab or newline: TAB, LF, CR. *)
Definition tab_or_newline (c : ascii) : bool :=
  (code c =? 9) || (code c =? 10) || (code c =? 13).

(** The input without its trailing C0 controls and spaces. *)
Fixpoint strip_trailing (input : list ascii) : list ascii :=
  match input with
  | [] => []
  | c :: input' =>
      match strip_trailing input' with
      | [] => if c0_or_space c then [] else [c]
      | kept => c :: kept
      end
  end.

(** The input without any tab or newline. *)
Definition remove_tab_newline (input : list ascii) : list ascii :=
  filter (fun c => negb (tab_or_newline c)) input.

(** The path percent-encode set: the C0 controls and everything above
    U+007E, the space, the double quote, the number sign, the angle
    brackets, the question mark, the circumflex, the grave accent and the
    braces. *)
Definition path_percent_encode_set (c : ascii) : bool :=
  (code c <=? 31) || (127 <=? code c)
  || (code c =? 32) || (code c =? 34) || (code c =? 35)
  || (code c =? 60) || (code c =? 62)
  || (code c =? 63) || (code c =? 94) || (code c =? 96)
  || (code c =? 123) || (code c =? 125).

Definition upper_hex_digit (n : nat) : ascii :=
  if n <? 10 then ascii_of_nat (48 + n) else ascii_of_nat (55 + n).

(** The percent-encoding of one byte of the UTF-8 form of the input. *)
Definition percent_encode (c : ascii) : list ascii :=
  if path_percent_encode_set c
  then ["%"%char; upper_hex_digit (code c / 16);
        upper_hex_digit (code c mod 16)]
  else [c].

(** ASCII lower case. *)
Definition lower (c : ascii) : ascii :=
  if (65 <=? code c) && (code c <=? 90) then ascii_of_nat (code c + 32)
  else c.

Definition same_ignoring_case (a : list ascii) (b : string) : bool :=
  String.eqb (string_of_list_ascii (map lower a))
    (string_of_list_ascii (map lower (list_ascii_of_string b))).

(** A single-dot and a double-dot path segment. *)
Definition single_dot (segment : list ascii) : bool :=
  same_ignoring_case segment "." || same_ignoring_case segment "%2e".

Definition double_dot (segment : list ascii) : bool :=
  same_ignoring_case segment ".."
  || same_ignoring_case segment ".%2e"
  || same_ignoring_case segment "%2e."
  || same_ignoring_case segment "%2e%2e".

(** What the end of a segment does to the path; [slash] tells whether a
    slash ended it, rather than the end of the path.  Shortening the path
    removes its last segment, if any. *)
Definition end_segment (path : list (list ascii)) (buffer : list ascii)
  (slash : bool) : list (list ascii) :=
  if double_dot buffer then
    if slash then removelast path else (removelast path ++ [[]])%list
  else if single_dot buffer then
    if slash then path else (path ++ [[]])%list
  else (path ++ [buffer])%list.

(** The path state of the parser for a URL of scheme http or https: a
    slash or a backslash ends a segment, a question mark or a number sign
    ends the path, and every other character joins the buffer in its
    percent-encoded form. *)
Fixpoint path_state (input buffer : list ascii) (path : list (list ascii))
  : list (list ascii) :=
  match input with
  | [] => end_segment path buffer false
  | c :: input' =>
      if Ascii.eqb c "?" || Ascii.eqb c "#"
      then end_segment path buffer false
      else if Ascii.eqb c "/" || Ascii.eqb c JSON.backslash
      then path_state input' [] (end_segment path buffer true)
      else path_state input' (buffer ++ percent_encode c)%list path
  end.

(** The path as the request line carries it. *)
Definition serialize (path : list (list ascii)) : list ascii :=
  flat_map (fun segment => "/"%char :: segment) path.

(** The path of the request that [fetch] sends for the input that is a
    slash followed by [rest], when [rest] starts a segment: scheme, host
    and port are those of the page.  Nothing is stripped at the front of
    such an input. *)
Definition path (rest : string) : list ascii :=
  serialize
    (path_state (remove_tab_newline (strip_trailing (list_ascii_of_string rest)))
       [] []).

End Url.

(** *** The path at the backend: the router of Express *)

Module Express.

(** A request that reaches no handler: no route takes its path, or the
    parameter of the path cannot be decoded. *)
Inductive Refusal : Type :=
| NoRoute
| BadParam.

Inductive Target : Type :=
| Routed (id : string)
| Refused (why : Refusal).

(** The characters of an encoded text: a plain one, or an escape of two
    hexadecimal digits. *)
Inductive token : Type :=
| Lit (c : ascii)
| Octet (n : nat).

Fixpoint tokens (s : list ascii) : option (list token) :=
  match s with
  | [] => Some []
  | c :: s' =>
      if Ascii.eqb c "%" then
        match s' with
        | h1 :: h2 :: s'' =>
            match ObjectId.hex_value h1, ObjectId.hex_value h2, tokens s'' with
            | Some a, Some b, Some ts => Some (Octet (16 * a + b) :: ts)
            | _, _, _ => None
            end
        | _ => None
        end
      else
        match tokens s' with
        | Some ts => Some (Lit c :: ts)
        | None => None
        end
  end.

(** The number of leading one bits of an octet; 5 stands for more than
    four. *)
Definition leading_ones (b : nat) : nat :=
  if b <? 128 then 0
  else if b <? 192 then 1
  else if b <? 224 then 2
  else if b <? 240 then 3
  else if b <? 248 then 4
  else 5.

Definition continuation (b : nat) : bool := (128 <=? b) && (b <=? 191).

(** The well-formed UTF-8 sequences of two, three and four octets. *)
Definition utf8 (octets : list nat) : bool :=
  match octets with
  | [a; b] => (194 <=? a) && (a <=? 223) && continuation b
  | [a; b; c] =>
      continuation c
      && (((a =? 224) && (160 <=? b) && (b <=? 191))
          || ((225 <=? a) && (a <=? 236) && continuation b)
          || ((a =? 237) && (128 <=? b) && (b <=? 159))
          || ((238 <=? a) && (a <=? 239) && continuation b))
  | [a; b; c; d] =>
      continuation c && continuation d
      && (((a =? 240) && (144 <=? b) && (b <=? 191))
          || ((241 <=? a) && (a <=? 243) && continuation b)
          || ((a =? 244) && (128 <=? b) && (b <=? 143)))
  | _ => false
  end.

Definition emit (octets : list nat) (rest : option (list ascii))
  : option (list ascii) :=
  match rest with
  | Some r => Some (map ascii_of_nat octets ++ r)%list
  | None => None
  end.

(** The decoded text: an escape below 128 is its character, and an escape
    that starts a sequence must be followed by the escapes that complete
    a well-formed one. *)
Fixpoint decoded (ts : list token) : option (list ascii) :=
  match ts with
  | [] => Some []
  | Lit c :: ts' =>
      match decoded ts' with
      | Some r => Some (c :: r)
      | None => None
      end
  | Octet b :: ts' =>
      match leading_ones b, ts' with
      | 0, _ => emit [b] (decoded ts')
      | 2, Octet b2 :: r =>
          if utf8 [b; b2] then emit [b; b2] (decoded r) else None
      | 3, Octet b2 :: Octet b3 :: r =>
          if utf8 [b; b2; b3] then emit [b; b2; b3] (decoded r) else None
      | 4, Octet b2 :: Octet b3 :: Octet b4 :: r =>
          if utf8 [b; b2; b3; b4] then emit [b; b2; b3; b4] (decoded r)
          else None
      | _, _ => None
      end
  end.

(** [decodeURIComponent]: [None] stands for the [URIError]. *)
Definition decodeURIComponent (s : list ascii) : option (list ascii) :=
  match tokens s with
  | Some ts => decoded ts
  | None => None
  end.

Fixpoint strip_prefix_ci (p s : list ascii) : option (list ascii) :=
  match p, s with
  | [], _ => Some s
  | a :: p', b :: s' =>
      if Ascii.eqb (Url.lower a) (Url.lower b) then strip_prefix_ci p' s'
      else None
  | _ :: _, [] => None
  end.

(** The characters up to the next slash, and the rest. *)
Fixpoint span_segment (s : list ascii) : list ascii * list ascii :=
  match s with
  | c :: s' =>
      if Ascii.eqb c "/" then ([], s)
      else let (segment, r) := span_segment s' in (c :: segment, r)
  | [] => ([], [])
  end.

(** The pattern that Express makes of the path [/api/contacts/:id]: the
    two words in either case, one segment that is not empty, and at most
    one slash after it.  The result is the segment as it was sent. *)
Definition match_contact_id (pathname : list ascii) : option (list ascii) :=
  match strip_prefix_ci (list_ascii_of_string "/api/contacts/") pathname with
  | Some r =>
      match span_segment r with
      | (c :: segment, []) => Some (c :: segment)
      | (c :: segment, [s]) =>
          if Ascii.eqb s "/" then Some (c :: segment) else None
      | _ => None
      end
  | None => None
  end.

(** Where a [DELETE] request with this path arrives: at the handler of
    [/api/contacts/:id] with the decoded parameter, the only route of
    that method, or nowhere. *)
Definition delete_target (pathname : list ascii) : Target :=
  match match_contact_id pathname with
  | Some segment =>
      match decodeURIComponent segment with
      | Some p => Routed (string_of_list_ascii p)
      | None => Refused BadParam
      end
  | None => Refused NoRoute
  end.

End Express.

(** What the first revision answers to a request that reaches no
    handler: the pages of Express, 404 when no route takes the path and
    400 when the parameter cannot be decoded. *)
Definition V1_refuses (why : Express.Refusal) : Response :=
  match why with
  | Express.NoRoute => {| status := 404; body := DefaultErrorPage |}
  | Express.BadParam => {| status := 400; body := DefaultErrorPage |}
  end.

(** The second revision: no route is still the 404 of Express, and the
    failure to decode reaches the error-handling middleware. *)
Definition V2_refuses (why : Express.Refusal) : Response :=
  match why with
  | Express.NoRoute => {| status := 404; body := DefaultErrorPage |}
  | Express.BadParam => V2.error_handler (OtherError "URIError")
  end.

(** *** The client: [services/apiService.ts] *)

Module ApiService.

(** [response.ok] *)
Definition ok (response : Response) : bool :=
  (200 <=? status response) && (status response <=? 299).

(** [response.json()]: the parsed body, or [None] when the promise
    rejects because the body is not JSON.  Bodies written by [res.json]
    parse; the status text and the page of Express's error handler do
    not; the text echoed by [res.send] parses when it happens to be
    JSON. *)
Definition json (response : Response) : option Body :=
  match body response with
  | StatusText | DefaultErrorPage => None
  | Send QUndefined => None
  | Send (QString s) =>
      match JSON.parse s with
      | Some _ => Some (body response)
      | None => None
      end
  | b => Some b
  end.

(** [errorData.message] of a body written by [res.json]. *)
Definition message (b : Body) : option string :=
  match b with
  | JsonMessage m => Some m
  | _ => None
  end.

(** [handleResponse] *)
Definition handleResponse (response : Response) : Thrown + Body :=
  if negb (ok response) then
    let errorData_message :=
      match json response with
      | Some b => message b
      | None => Some "An unknown error occurred."
      end in
    inl (OtherError
           (match errorData_message with
            | Some m =>
                if JsString.truthy m then m
                else "HTTP error! status: " ++ JsString.of_nat (status response)
            | None =>
                "HTTP error! status: " ++ JsString.of_nat (status response)
            end))
  else
    match json response with
    | Some b => inr b
    | None => inl (OtherError "SyntaxError")
    end.

(** A request to the backend and [handleResponse] on its answer;
    [server] is the revision that answers. *)
Definition call (server : Request -> Contact.Db -> Response * Contact.Db)
  (r : Request) : M Contact.Db Body :=
  fun db =>
    let (response, db') := server r db in
    (handleResponse response, db').

(** [getContacts] *)
Definition getContacts server : M Contact.Db Body :=
  call server GetContacts.

(** [addContact]; the body is the JSON of [{ name, phone }]. *)
Definition addContact server (oid : ObjectId.t) (now : Z)
  (name phone : string) : M Contact.Db Body :=
  call server
    (PostContacts oid now {| body_name := Some name; body_phone := Some phone |}).

(** Where the request of [deleteContact(id)] arrives: the id is put
    into the path of the URL, which the browser parses and the router
    matches and decodes. *)
Definition delete_target (id : string) : Express.Target :=
  Express.delete_target (Url.path ("api/contacts/" ++ id)).

(** [deleteContact]; [refuses] is how the revision answers a request
    that reaches no handler. *)
Definition deleteContact server (refuses : Express.Refusal -> Response)
  (id : string) : M Contact.Db Body :=
  match delete_target id with
  | Express.Routed p => call server (DeleteContacts p)
  | Express.Refused why => fun db => (handleResponse (refuses why), db)
  end.

(** [sendBulkMessage]: the form data and [handleResponse] on the
    answer; [send] is the bulk-send route of the revision that answers. *)
Definition sendBulkMessage (send : SendBulk -> Response)
  (toISOString : Z -> string) (heading_ content_ : string)
  (mediaFile_ : option File) (contacts : list ContactJson) : Thrown + Body :=
  handleResponse
    (send {| heading := Some heading_;
             content := Some content_;
             contactsJSON := Some (Stringify.contacts toISOString contacts);
             mediaFile := mediaFile_ |}).

(** [generateAiContent]: the body is the JSON of [{ heading }], and
    [generate] the route of the backend, which may call the service. *)
Definition generateAiContent
  (generate : option string -> Gateway.t Response) (heading_ : string)
  : Gateway.t (Thrown + Body) :=
  gateway_bind (generate (Some heading_))
    (fun response => Gateway.Done (handleResponse response)).

End ApiService.

(** [err.message].  What the client catches is an [Error] made by
    [handleResponse] or by the service module, an [OtherError] with its
    message.  A [ValidationError] carries Mongoose's summary of its
    validator errors; the text of the driver's duplicate-key error names
    the database and the key, of which its fixed beginning is kept. *)
Definition err_message (e : Thrown) : string :=
  match e with
  | OtherError m => m
  | MongoServerError _ => "E11000 duplicate key error"
  | ValidationError errs =>
      "Contact validation failed: "
      ++ JsString.join ", " (map (fun e => fst e ++ ": " ++ snd e) errs)
  end.


(** *** The client: [components/ContactManager.tsx] *)

Module ContactManager.

(** The state of the form. *)
Record Form : Type := {
  name : string;
  phone : string;
  formError : string;
  isAdding : bool
}.

(** The two tests of [handleSubmit]: the error to show, or [None] when
    the form may be submitted. *)
Definition check (name phone : string) : option string :=
  if negb (JsString.truthy (JsString.trim name))
     || negb (JsString.truthy (JsString.trim phone))
  then Some "Name and phone number cannot be empty."
  else if negb (RegExp.test E164_REGEX phone)
  then Some "Phone number must be in E.164 format (e.g., +12125551234)."
  else None.

(** [handleSubmit] of the later revision; [onAddContact] is the
    callback of the page. *)
Definition handleSubmit {S} (onAddContact : string -> string -> M S unit)
  (f : Form) : M S Form :=
  match check (name f) (phone f) with
  | Some e =>
      ret {| name := name f; phone := phone f; formError := e;
             isAdding := isAdding f |}
  | None =>
      try_catch
        (onAddContact (name f) (phone f) ;;;
         ret {| name := ""; phone := ""; formError := ""; isAdding := false |})
        (fun err =>
           ret {| name := name f; phone := phone f;
                  formError :=
                    if JsString.truthy (err_message err) then err_message err
                    else "An unexpected error occurred.";
                  isAdding := false |})
  end.

End ContactManager.

(** *** The client: [components/DashboardPage.tsx], later revision *)

Module Dashboard.

(** The state of the page. *)
Record Page : Type := {
  contacts : list ContactJson;
  isLoading : bool;
  error : option string
}.

(** The page and the backend it talks to. *)
Record World : Type := {
  page : Page;
  db : Contact.Db
}.

Definition lift {A} (m : M Contact.Db A) : M World A :=
  fun w =>
    let (r, db') := m (db w) in
    (r, {| page := page w; db := db' |}).

(** [setContacts(f)] *)
Definition setContacts (f : list ContactJson -> list ContactJson)
  : M World unit :=
  fun w =>
    (inr tt,
     {| page := {| contacts := f (contacts (page w));
                   isLoading := isLoading (page w);
                   error := error (page w) |};
        db := db w |}).

Definition setError (e : option string) : M World unit :=
  fun w =>
    (inr tt,
     {| page := {| contacts := contacts (page w);
                   isLoading := isLoading (page w);
                   error := e |};
        db := db w |}).

Definition setIsLoading (b : bool) : M World unit :=
  fun w =>
    (inr tt,
     {| page := {| contacts := contacts (page w);
                   isLoading := b;
                   error := error (page w) |};
        db := db w |}).

(** What a resolved [getContacts] holds: the route sends nothing but the
    list with a 2xx status. *)
Definition as_contacts (b : Body) : list ContactJson :=
  match b with JsonContacts l => l | _ => [] end.

(** What a resolved [addContact] holds: the route sends nothing but the
    created contact with a 2xx status. *)
Definition as_contact (b : Body) : list ContactJson :=
  match b with JsonContact c => [c] | _ => [] end.

Section Server.

Variable server : Request -> Contact.Db -> Response * Contact.Db.
Variable refuses : Express.Refusal -> Response.

(** [fetchContacts], run when the page is mounted. *)
Definition fetchContacts : M World unit :=
  try_catch
    (fetchedContacts <- lift (ApiService.getContacts server) ;;
     setContacts (fun _ => as_contacts fetchedContacts))
    (fun err =>
       setError (Some "Failed to load contacts. Please refresh the page."))
  ;;; setIsLoading false.

(** [addContact] *)
Definition addContact (oid : ObjectId.t) (now : Z) (name phone : string)
  : M World unit :=
  newContact <- lift (ApiService.addContact server oid now name phone) ;;
  setContacts (fun prevContacts => prevContacts ++ as_contact newContact)%list.

(** [deleteContact] *)
Definition deleteContact (id_ : string) : M World unit :=
  w <- get ;;
  let originalContacts := contacts (page w) in
  setContacts (filter (fun c => negb (String.eqb (id c) id_))) ;;;
  try_catch
    (lift (ApiService.deleteContact server refuses id_) ;;; ret tt)
    (fun err => setContacts (fun _ => originalContacts)).

End Server.

(** The page shows what the backend stores. *)
Definition in_sync (w : World) : Prop :=
  exists docs,
    db w = Some docs
    /\ Permutation (contacts (page w)) (map transformContact docs).

End Dashboard.

(** *** The client: [components/DashboardPage.tsx], first revision *)

Module LocalDashboard.

(** [Contact] of the client: what the list in local storage holds. *)
Record Contact : Type := {
  id : string;
  name : string;
  phone : string
}.

(** [addContact]; [now] is [Date.now()]. *)
Definition addContact (now : nat) (name phone : string)
  (prevContacts : list Contact) : list Contact :=
  (prevContacts
   ++ [{| id := JsString.of_nat now; name := name; phone := phone |}])%list.

(** [deleteContact] *)
Definition deleteContact (id_ : string) (prevContacts : list Contact)
  : list Contact :=
  filter (fun c => negb (String.eqb (id c) id_)) prevContacts.

End LocalDashboard.

(** *** The client: [components/ContactManager.tsx], first revision *)

Module LocalContactManager.

(** The state of the form. *)
Record Form : Type := {
  name : string;
  phone : string;
  error : string
}.

(** [handleSubmit]: the two tests are those of the later revision, and
    [onAddContact] is the synchronous callback of the page. *)
Definition handleSubmit {S} (onAddContact : string -> string -> S -> S)
  (f : Form) (s : S) : Form * S :=
  match ContactManager.check (name f) (phone f) with
  | Some e => ({| name := name f; phone := phone f; error := e |}, s)
  | None =>
      ({| name := ""; phone := ""; error := "" |},
       onAddContact (name f) (phone f) s)
  end.

End LocalContactManager.

(** The lists that the first revision of the page builds from the empty
    list by submitted forms and deletions. *)
Inductive local_reachable : list LocalDashboard.Contact -> Prop :=
| local_empty : local_reachable []
| local_submit (now : nat) (f : LocalContactManager.Form)
    (l : list LocalDashboard.Contact) :
    local_reachable l ->
    local_reachable
      (snd (LocalContactManager.handleSubmit (LocalDashboard.addContact now)
              f l))
| local_delete (id_ : string) (l : list LocalDashboard.Contact) :
    local_reachable l ->
    local_reachable (LocalDashboard.deleteContact id_ l).

(** *** The client: [components/MessageComposer.tsx] *)

Module MessageComposer.

(** [sendStatus] *)
Inductive SendStatus : Type :=
| success (message : option string)
| error (message : string).

(** [handleSend]: the status shown afterwards, and whether a request was
    sent. *)
Definition handleSend (send : SendBulk -> Response)
  (toISOString : Z -> string) (contacts : list ContactJson)
  (heading_ content_ : string) (mediaFile_ : option File)
  : SendStatus * bool :=
  if length contacts =? 0
  then (error "No contacts to send to. Please add contacts first.", false)
  else if negb (JsString.truthy (JsString.trim content_))
          && negb (V2.isSome mediaFile_)
  then (error "A message must contain either text content or a media file.",
        false)
  else
    match ApiService.sendBulkMessage send toISOString heading_ content_ mediaFile_
            contacts with
    | inr response => (success (ApiService.message response), true)
    | inl err =>
        (error (if JsString.truthy (err_message err) then err_message err
                else "Failed to send message."), true)
    end.

(** What [handleGenerateContent] leaves: the new content, or the error
    shown. *)
Inductive Generated : Type :=
| content_set (text : option string)
| aiError (message : string).

(** [handleGenerateContent] *)
Definition handleGenerateContent (env : Env) (heading_ : string)
  : Gateway.t Generated :=
  if negb (JsString.truthy heading_)
  then Gateway.Done (aiError "Please enter a heading to generate content.")
  else
    gateway_bind (GeminiService.generateMessageContent env heading_)
      (fun r =>
         match r with
         | inr generatedContent => Gateway.Done (content_set generatedContent)
         | inl err =>
             Gateway.Done
               (aiError (if JsString.truthy (err_message err)
                         then err_message err
                         else "An unknown error occurred."))
         end).

End MessageComposer.

(** A letter or a digit. *)
Definition alphanumeric (c : ascii) : bool :=
  RegExp.digit c || RegExp.range "a" "z" c || RegExp.range "A" "Z" c.

(** A page that has just been mounted, before its first fetch, in front of
    a backend that stores one contact. *)
Definition sample_world : Dashboard.World :=
  {| Dashboard.page := {| Dashboard.contacts := [];
                          Dashboard.isLoading := true;
                          Dashboard.error := None |};
     Dashboard.db := Some [jane] |}.

(** The number that a decimal rendering denotes, read left to right. *)
Fixpoint decimal_value (acc : nat) (s : string) : nat :=
  match s with
  | EmptyString => acc
  | String c s' => decimal_value (10 * acc + (nat_of_ascii c - 48)) s'
  end.

(* ===================================================================== *)
(** * Properties *)
(* ===================================================================== *)

(** ** The platform functions on sample inputs *)

Example trim_sample :
  JsString.trim (String (ascii_of_nat 9) " Jane Doe  ") = "Jane Doe".
Proof. reflexivity. Qed.

Example trim_blank : JsString.trim "   " = "".
Proof. reflexivity. Qed.

Example of_nat_sample : JsString.of_nat 120 = "120".
Proof. reflexivity. Qed.

Example E164_REGEX_samples :
  map (RegExp.test E164_REGEX)
    ["+12125551234"; "+72"; "+123456789012345"; "+7"; "+1234567890123456";
     "+0123"; "12125551234"; " +12125551234"; ""]
  = [true; true; true; false; false; false; false; false; false].
Proof. reflexivity. Qed.

Example ObjectId_toString_sample :
  ObjectId.toString (sample_oid x01) = "654f1a2b3c4d5e6f70819201".
Proof. reflexivity. Qed.

Example ObjectId_isValid_samples :
  map ObjectId.isValid
    ["654f1a2b3c4d5e6f70819201"; "654F1A2B3C4D5E6F70819201";
     "654f1a2b3c4d5e6f7081920"; "654f1a2b3c4d5e6f7081920g"; "abc"; ""]
  = [true; true; false; false; false; false].
Proof. reflexivity. Qed.

Example JSON_parse_recipient :
  JSON.parse amy_json
  = Some (JSON.Array
            [JSON.Object
               [(list_ascii_of_string "name",
                 JSON.Str (list_ascii_of_string "Amy"));
                (list_ascii_of_string "phone",
                 JSON.Str (list_ascii_of_string "+10000000002"))]]).
Proof. vm_compute. reflexivity. Qed.

Example JSON_parse_accepts :
  map JSON.parse ["[]"; " [ ] "; "{}"; "null"; "[null, true ,false]"]
  = [Some (JSON.Array []); Some (JSON.Array []); Some (JSON.Object []);
     Some JSON.Null;
     Some (JSON.Array [JSON.Null; JSON.Bool true; JSON.Bool false])].
Proof. vm_compute. reflexivity. Qed.

Example JSON_parse_rejects :
  map JSON.parse
    ["undefined"; ""; "{oops"; "[1,]"; "[1 2]"; "01"; "1."; "nul"; "[1";
     "{a:1}"; "NaN"]
  = [None; None; None; None; None; None; None; None; None; None; None].
Proof. vm_compute. reflexivity. Qed.

(** ** [JSON.parse] does not depend on its fuel *)

Lemma skip_ws_length s : length (JSON.skip_ws s) <= length s.
Proof.
  induction s as [|c s IH]; simpl; [lia|].
  destruct (JSON.is_ws c); simpl; lia.
Qed.

Lemma strip_prefix_length p s r :
  JSON.strip_prefix p s = Some r -> length s = length p + length r.
Proof.
  revert s. induction p as [|a p IH]; intros s; simpl.
  - intros [= ->]. reflexivity.
  - destruct s as [|b s]; [discriminate|].
    destruct (Ascii.eqb a b); [|discriminate].
    intros H. apply IH in H. simpl. lia.
Qed.

Lemma span_digits_length s :
  length (snd (JSON.span_digits s)) <= length s.
Proof.
  induction s as [|c s IH]; simpl; [lia|].
  destruct (RegExp.digit c); simpl; [|lia].
  destruct (JSON.span_digits s); simpl in *. lia.
Qed.

Lemma int_digits_length sign s l r :
  JSON.int_digits sign s = Some (l, r) -> length r < length s.
Proof.
  unfold JSON.int_digits. destruct s as [|c r0]; [discriminate|].
  destruct (Ascii.eqb c "0"); [intros [= _ <-]; simpl; lia|].
  destruct (RegExp.range "1" "9" c); [|discriminate].
  pose proof (span_digits_length r0) as Hs.
  destruct (JSON.span_digits r0) as [ds r']. simpl in Hs.
  intros [= _ <-]. simpl. lia.
Qed.

Lemma int_part_length s l r :
  JSON.int_part s = Some (l, r) -> length r < length s.
Proof.
  unfold JSON.int_part. destruct s as [|c s']; [discriminate|].
  destruct (Ascii.eqb c "-"); intros H; apply int_digits_length in H;
    simpl in *; lia.
Qed.

Lemma frac_part_length s l r :
  JSON.frac_part s = Some (l, r) -> length r <= length s.
Proof.
  unfold JSON.frac_part. destruct s as [|c s']; [intros [= _ <-]; simpl; lia|].
  destruct (Ascii.eqb c "."); [|intros [= _ <-]; lia].
  pose proof (span_digits_length s') as Hs.
  destruct (JSON.span_digits s') as [[|d ds] r']; [discriminate|].
  simpl in Hs. intros [= _ <-]. simpl. lia.
Qed.

Lemma exp_digits_length mark s l r :
  JSON.exp_digits mark s = Some (l, r) -> length r <= length s.
Proof.
  unfold JSON.exp_digits. pose proof (span_digits_length s) as Hs.
  destruct (JSON.span_digits s) as [[|d ds] r2]; [discriminate|].
  simpl in Hs. intros [= _ <-]. lia.
Qed.

Lemma exp_part_length s l r :
  JSON.exp_part s = Some (l, r) -> length r <= length s.
Proof.
  unfold JSON.exp_part. destruct s as [|c s']; [intros [= _ <-]; simpl; lia|].
  destruct (Ascii.eqb c "e" || Ascii.eqb c "E"); [|intros [= _ <-]; lia].
  destruct s' as [|d r']; [discriminate|].
  destruct (Ascii.eqb d "+" || Ascii.eqb d "-"); intros H;
    apply exp_digits_length in H; simpl in *; lia.
Qed.

Lemma number_length s l r :
  JSON.number s = Some (l, r) -> length r < length s.
Proof.
  unfold JSON.number.
  destruct (JSON.int_part s) as [[i r1]|] eqn:E1; [|discriminate].
  destruct (JSON.frac_part r1) as [[f r2]|] eqn:E2; [|discriminate].
  destruct (JSON.exp_part r2) as [[e r3]|] eqn:E3; [|discriminate].
  intros [= _ <-].
  apply int_part_length in E1. apply frac_part_length in E2.
  apply exp_part_length in E3. lia.
Qed.

Lemma string_body_length s : forall acc raw r,
  JSON.string_body s acc = Some (raw, r) -> length r < length s.
Proof.
  induction s as [s IH] using (induction_ltof1 _ (@length ascii)).
  unfold ltof in IH. intros acc raw r.
  destruct s as [|c s1]; simpl; [discriminate|].
  destruct (Ascii.eqb c JSON.dquote); [intros [= _ <-]; lia|].
  destruct (Ascii.eqb c JSON.backslash).
  - destruct s1 as [|e s2]; [discriminate|].
    destruct (JSON.is_escape e).
    + intros H. apply IH in H; simpl in *; lia.
    + destruct (Ascii.eqb e "u"); [|discriminate].
      destruct s2 as [|h1 [|h2 [|h3 [|h4 s3]]]]; try discriminate.
      destruct (JSON.is_hex h1 && JSON.is_hex h2 && JSON.is_hex h3 && JSON.is_hex h4);
        [|discriminate].
      intros H. apply IH in H; simpl in *; lia.
  - destruct (nat_of_ascii c <? 32); [discriminate|].
    intros H. apply IH in H; simpl in *; lia.
Qed.

Lemma skip_ws_cons s c r :
  JSON.skip_ws s = c :: r -> length r < length s.
Proof.
  intros H. pose proof (skip_ws_length s) as Hs. rewrite H in Hs.
  simpl in Hs. lia.
Qed.

Lemma parse_consumes (fuel : nat) :
  (forall s v r, JSON.parse_value fuel s = Some (v, r) -> length r < length s)
  /\ (forall s acc v r,
         JSON.parse_elements fuel s acc = Some (v, r) -> length r < length s)
  /\ (forall s acc v r,
         JSON.parse_members fuel s acc = Some (v, r) -> length r < length s).
Proof.
  induction fuel as [|fuel (IHv & IHe & IHm)];
    [repeat split; intros; discriminate|].
  repeat split.
  - intros s v r. cbn [JSON.parse_value].
    destruct (JSON.skip_ws s) as [|c r0] eqn:Es; [discriminate|].
    apply skip_ws_cons in Es.
    destruct (Ascii.eqb c "[").
    { destruct (JSON.skip_ws r0) as [|c' r'] eqn:Er; [discriminate|].
      apply skip_ws_cons in Er.
      destruct (Ascii.eqb c' "]"); [intros [= _ <-]; lia|].
      intros H. apply IHe in H. lia. }
    destruct (Ascii.eqb c "{").
    { destruct (JSON.skip_ws r0) as [|c' r'] eqn:Er; [discriminate|].
      apply skip_ws_cons in Er.
      destruct (Ascii.eqb c' "}"); [intros [= _ <-]; lia|].
      intros H. apply IHm in H. lia. }
    destruct (Ascii.eqb c JSON.dquote).
    { destruct (JSON.string_body r0 []) as [[raw r']|] eqn:Eb; [|discriminate].
      apply string_body_length in Eb. intros [= _ <-]. lia. }
    destruct (JSON.strip_prefix (list_ascii_of_string "null") (c :: r0))
      as [r'|] eqn:E1.
    { apply strip_prefix_length in E1. simpl in E1. intros [= _ <-]. lia. }
    destruct (JSON.strip_prefix (list_ascii_of_string "true") (c :: r0))
      as [r'|] eqn:E2.
    { apply strip_prefix_length in E2. simpl in E2. intros [= _ <-]. lia. }
    destruct (JSON.strip_prefix (list_ascii_of_string "false") (c :: r0))
      as [r'|] eqn:E3.
    { apply strip_prefix_length in E3. simpl in E3. intros [= _ <-]. lia. }
    destruct (JSON.number (c :: r0)) as [[lexeme r']|] eqn:En; [|discriminate].
    apply number_length in En. simpl in En. intros [= _ <-]. lia.
  - intros s acc v r. cbn [JSON.parse_elements].
    destruct (JSON.parse_value fuel s) as [[v0 r0]|] eqn:Ev; [|discriminate].
    apply IHv in Ev.
    destruct (JSON.skip_ws r0) as [|c r1] eqn:Er; [discriminate|].
    apply skip_ws_cons in Er.
    destruct (Ascii.eqb c ",").
    { intros H. apply IHe in H. lia. }
    destruct (Ascii.eqb c "]"); [|discriminate].
    intros [= _ <-]. lia.
  - intros s acc v r. cbn [JSON.parse_members].
    destruct (JSON.skip_ws s) as [|q r0] eqn:Es; [discriminate|].
    apply skip_ws_cons in Es.
    destruct (Ascii.eqb q JSON.dquote); [|discriminate].
    destruct (JSON.string_body r0 []) as [[key r1]|] eqn:Eb; [|discriminate].
    apply string_body_length in Eb.
    destruct (JSON.skip_ws r1) as [|c r2] eqn:E1; [discriminate|].
    apply skip_ws_cons in E1.
    destruct (Ascii.eqb c ":"); [|discriminate].
    destruct (JSON.parse_value fuel r2) as [[v0 r3]|] eqn:Ev; [|discriminate].
    apply IHv in Ev.
    destruct (JSON.skip_ws r3) as [|d r4] eqn:E3; [discriminate|].
    apply skip_ws_cons in E3.
    destruct (Ascii.eqb d ",").
    { intros H. apply IHm in H. lia. }
    destruct (Ascii.eqb d "}"); [|discriminate].
    intros [= _ <-]. lia.
Qed.

(** A result obtained with some fuel is obtained with any fuel above twice
    the length of the text. *)
Lemma parse_fuel_stable (fuel' : nat) :
  (forall fuel s v r,
      JSON.parse_value fuel' s = Some (v, r) ->
      2 * length s + 2 <= fuel ->
      JSON.parse_value fuel s = Some (v, r))
  /\ (forall fuel s acc v r,
         JSON.parse_elements fuel' s acc = Some (v, r) ->
         2 * length s + 3 <= fuel ->
         JSON.parse_elements fuel s acc = Some (v, r))
  /\ (forall fuel s acc v r,
         JSON.parse_members fuel' s acc = Some (v, r) ->
         2 * length s + 3 <= fuel ->
         JSON.parse_members fuel s acc = Some (v, r)).
Proof.
  induction fuel' as [|fuel' (IHv & IHe & IHm)];
    [repeat split; intros; discriminate|].
  repeat split.
  - intros [|fuel] s v r; [lia|]. cbn [JSON.parse_value].
    destruct (JSON.skip_ws s) as [|c r0] eqn:Es; [discriminate|].
    apply skip_ws_cons in Es.
    destruct (Ascii.eqb c "[").
    { destruct (JSON.skip_ws r0) as [|c' r'] eqn:Er; [discriminate|].
      destruct (Ascii.eqb c' "]"); [auto|].
      intros H Hf. apply IHe; [exact H | lia]. }
    destruct (Ascii.eqb c "{").
    { destruct (JSON.skip_ws r0) as [|c' r'] eqn:Er; [discriminate|].
      destruct (Ascii.eqb c' "}"); [auto|].
      intros H Hf. apply IHm; [exact H | lia]. }
    auto.
  - intros [|fuel] s acc v r; [lia|]. cbn [JSON.parse_elements].
    destruct (JSON.parse_value fuel' s) as [[v0 r0]|] eqn:Ev; [|discriminate].
    intros H Hf. rewrite (IHv fuel s v0 r0 Ev); [|lia].
    apply (proj1 (parse_consumes fuel')) in Ev.
    destruct (JSON.skip_ws r0) as [|c r1] eqn:Er; [discriminate|].
    apply skip_ws_cons in Er.
    destruct (Ascii.eqb c ","); [|exact H].
    apply IHe; [exact H | lia].
  - intros [|fuel] s acc v r; [lia|]. cbn [JSON.parse_members].
    destruct (JSON.skip_ws s) as [|q r0] eqn:Es; [discriminate|].
    apply skip_ws_cons in Es.
    destruct (Ascii.eqb q JSON.dquote); [|discriminate].
    destruct (JSON.string_body r0 []) as [[key r1]|] eqn:Eb; [|discriminate].
    apply string_body_length in Eb.
    destruct (JSON.skip_ws r1) as [|c r2] eqn:E1; [discriminate|].
    apply skip_ws_cons in E1.
    destruct (Ascii.eqb c ":"); [|discriminate].
    destruct (JSON.parse_value fuel' r2) as [[v0 r3]|] eqn:Ev; [|discriminate].
    intros H Hf. rewrite (IHv fuel r2 v0 r3 Ev); [|lia].
    apply (proj1 (parse_consumes fuel')) in Ev.
    destruct (JSON.skip_ws r3) as [|d r4] eqn:E3; [discriminate|].
    apply skip_ws_cons in E3.
    destruct (Ascii.eqb d ","); [|exact H].
    apply IHm; [exact H | lia].
Qed.

(** [JSON.parse] does not depend on its fuel: a value that some fuel
    yields for the whole text is the value of [JSON.parse]. *)
Theorem JSON_parse_complete (text : string) (fuel : nat) (v : JSON.value)
  (r : list ascii) :
  JSON.parse_value fuel (list_ascii_of_string text) = Some (v, r) ->
  JSON.skip_ws r = [] ->
  JSON.parse text = Some v.
Proof.
  intros Hp Hr. unfold JSON.parse.
  rewrite (proj1 (parse_fuel_stable fuel) _ _ _ _ Hp (le_n _)).
  now rewrite Hr.
Qed.

(** ** The E.164 pattern *)

Section RegExpFacts.

Variable cls : ascii -> bool.

(** A bounded repetition that must reach the end of the input accepts the
    strings of the class whose length lies within the bounds. *)
Lemma rep_to_end (hi lo : nat) (s : list ascii) :
  RegExp.rep cls (RegExp.matches []) lo hi s = true
  <-> forallb cls s = true /\ lo <= length s <= hi.
Proof.
  revert lo s. induction hi as [|hi IH]; intros lo s; simpl.
  - destruct s as [|a s]; simpl.
    + rewrite andb_true_r, Nat.eqb_eq. intuition lia.
    + rewrite andb_false_r. split; [discriminate | intros [_ H]; lia].
  - destruct s as [|a s]; simpl.
    + rewrite andb_true_r, orb_false_r, Nat.eqb_eq. intuition lia.
    + rewrite andb_false_r. simpl.
      rewrite !andb_true_iff, IH. intuition lia.
Qed.

End RegExpFacts.

Lemma E164_REGEX_spec (s : string) :
  RegExp.test E164_REGEX s = true <-> e164_shape s.
Proof.
  unfold RegExp.test, E164_REGEX, e164_shape. split.
  - destruct s as [|a [|d ds]]; simpl; try discriminate.
    + rewrite andb_false_r. discriminate.
    + intros H. apply andb_true_iff in H as [Ha H].
      apply andb_true_iff in H as [Hd H].
      change (RegExp.rep RegExp.digit (RegExp.matches []) 1 14
                (list_ascii_of_string ds) = true) in H.
      apply rep_to_end in H as [Hall Hlen].
      apply Ascii.eqb_eq in Ha. subst a.
      exists d, (list_ascii_of_string ds).
      rewrite string_of_list_ascii_of_string. auto.
  - intros (d & ds & -> & Hd & Hall & Hlen).
    cbn [list_ascii_of_string RegExp.matches].
    rewrite list_ascii_of_string_of_list_ascii.
    change (RegExp.lit "+" "+"%char) with true.
    rewrite Hd. cbn [andb].
    change (RegExp.rep RegExp.digit (RegExp.matches []) 1 14 ds = true).
    apply rep_to_end. auto.
Qed.

(** ** Object identifiers and their hexadecimal form *)

Lemma hex_byte_roundtrip (b : byte) :
  ObjectId.hex_value (ObjectId.hex_digit (Byte.to_nat b / 16))
    = Some (Byte.to_nat b / 16)
  /\ ObjectId.hex_value (ObjectId.hex_digit (Byte.to_nat b mod 16))
    = Some (Byte.to_nat b mod 16)
  /\ Byte.of_nat (16 * (Byte.to_nat b / 16) + Byte.to_nat b mod 16) = Some b.
Proof. destruct b; vm_compute; auto. Qed.

Lemma decode_encode (l : list byte) :
  ObjectId.decode (ObjectId.encode l) = Some l.
Proof.
  induction l as [|b l IH]; [reflexivity|].
  cbn [ObjectId.encode ObjectId.decode].
  destruct (hex_byte_roundtrip b) as (Hhi & Hlo & Hb).
  rewrite Hhi, Hlo, IH, Hb. reflexivity.
Qed.

Lemma of_bytes_bytes (o : ObjectId.t) :
  ObjectId.of_bytes (ObjectId.bytes o) = Some o.
Proof.
  destruct o as [[[[[[[[[[[b0 b1] b2] b3] b4] b5] b6] b7] b8] b9] b10] b11].
  reflexivity.
Qed.

(** The string form of an identifier casts back to the identifier. *)
Lemma ofString_toString (o : ObjectId.t) :
  ObjectId.ofString (ObjectId.toString o) = Some o.
Proof.
  unfold ObjectId.ofString, ObjectId.toString.
  rewrite list_ascii_of_string_of_list_ascii, decode_encode.
  apply of_bytes_bytes.
Qed.

Lemma isValid_toString (o : ObjectId.t) :
  ObjectId.isValid (ObjectId.toString o) = true.
Proof. unfold ObjectId.isValid. now rewrite ofString_toString. Qed.

Lemma toString_inj (a b : ObjectId.t) :
  ObjectId.toString a = ObjectId.toString b -> a = b.
Proof.
  intros H. apply (f_equal ObjectId.ofString) in H.
  rewrite !ofString_toString in H. congruence.
Qed.

Lemma ObjectId_eqb_eq (a b : ObjectId.t) :
  ObjectId.eqb a b = true <-> a = b.
Proof.
  unfold ObjectId.eqb. rewrite String.eqb_eq.
  split; [apply toString_inj | congruence].
Qed.

Lemma ObjectId_eqb_refl (a : ObjectId.t) : ObjectId.eqb a a = true.
Proof. now apply ObjectId_eqb_eq. Qed.

Lemma ObjectId_eqb_neq (a b : ObjectId.t) :
  ObjectId.eqb a b = false <-> a <> b.
Proof.
  rewrite <- ObjectId_eqb_eq. destruct (ObjectId.eqb a b); intuition congruence.
Qed.

(** ** Sorting by name *)

Lemma insert_by_name_perm (c : Contact.t) (l : list Contact.t) :
  Permutation (c :: l) (Contact.insert_by_name c l).
Proof.
  induction l as [|x l IH]; simpl; [reflexivity|].
  destruct (String.leb (Contact.name c) (Contact.name x)); [reflexivity|].
  rewrite perm_swap. now constructor.
Qed.

Lemma sort_by_name_perm (l : list Contact.t) :
  Permutation l (Contact.sort_by_name l).
Proof.
  induction l as [|x l IH]; simpl; [constructor|].
  rewrite <- insert_by_name_perm. now constructor.
Qed.

Lemma insert_by_name_hd (c x : Contact.t) (l : list Contact.t) :
  name_le x c -> HdRel name_le x l -> HdRel name_le x (Contact.insert_by_name c l).
Proof.
  intros Hxc Hhd. destruct l as [|y l]; simpl.
  - now constructor.
  - destruct (String.leb (Contact.name c) (Contact.name y));
      constructor; [assumption | now inversion Hhd].
Qed.

Lemma insert_by_name_sorted (c : Contact.t) (l : list Contact.t) :
  Sorted name_le l -> Sorted name_le (Contact.insert_by_name c l).
Proof.
  induction 1 as [|x l Hs IH Hhd]; simpl.
  - repeat constructor.
  - destruct (String.leb (Contact.name c) (Contact.name x)) eqn:E.
    + constructor; [now constructor | now constructor].
    + constructor; [exact IH|].
      apply insert_by_name_hd; [|exact Hhd].
      unfold name_le.
      destruct (String.leb_total (Contact.name c) (Contact.name x));
        congruence.
Qed.

Lemma sort_by_name_sorted (l : list Contact.t) :
  Sorted name_le (Contact.sort_by_name l).
Proof.
  induction l as [|x l IH]; simpl; [constructor|].
  now apply insert_by_name_sorted.
Qed.

(** ** Validation of a new contact *)

Lemma truthy_nonempty (s : string) : JsString.truthy s = true <-> s <> "".
Proof. destruct s; simpl; split; congruence. Qed.

(** A phone that fails the pattern fails validation, whatever the name. *)
Lemma validate_phone_rejected oid now nm p :
  RegExp.test E164_REGEX p = false ->
  exists msg,
    Schema.validate Contact.ContactSchema_phone
      (Contact.d_phone (Contact.new oid now nm (Some p))) = Some msg.
Proof.
  intros Hp. unfold Contact.new, Schema.set, Schema.validate; simpl.
  destruct (JsString.truthy p) eqn:Ht; simpl.
  - rewrite Hp. simpl. eauto.
  - eauto.
Qed.

Lemma validate_nonempty_of_phone oid now nm p :
  RegExp.test E164_REGEX p = false ->
  Contact.validate (Contact.new oid now nm (Some p)) <> [].
Proof.
  intros Hp. destruct (validate_phone_rejected oid now nm p Hp) as [msg Hmsg].
  unfold Contact.validate. rewrite Hmsg.
  destruct (Schema.validate Contact.ContactSchema_name _); discriminate.
Qed.

(** A name that is not blank and a phone of the right shape pass. *)
Lemma validate_accepts oid now n p :
  JsString.trim n <> "" ->
  RegExp.test E164_REGEX p = true ->
  Contact.validate (Contact.new oid now (Some n) (Some p)) = [].
Proof.
  intros Hn Hp. apply truthy_nonempty in Hn.
  assert (Ht : JsString.truthy p = true).
  { destruct p; [discriminate Hp | reflexivity]. }
  unfold Contact.validate, Contact.new, Schema.set, Schema.validate; simpl.
  rewrite Hn, Ht, Hp. reflexivity.
Qed.

(** A blank or missing name fails validation, whatever the phone. *)
Lemma validate_blank_name oid now nm ph :
  JsString.truthy_opt (option_map JsString.trim nm) = false ->
  Contact.validate (Contact.new oid now nm ph) <> [].
Proof.
  intros Hn. unfold Contact.validate, Contact.new, Schema.set, Schema.validate.
  simpl. rewrite Hn. discriminate.
Qed.

(** ** The contact routes, run on a connected database *)

Lemma V1_post_contacts_run oid now b docs :
  V1.post_contacts oid now b (Some docs) = create_result oid now b docs.
Proof.
  unfold V1.post_contacts, respond, try_catch, Routes.create_contact,
    create_result, Contact.save, Contact.insertOne, bind, get.
  destruct (Contact.validate _) as [|e errs]; [|reflexivity].
  cbn [Contact.document Contact._id Contact.d_id Contact.new].
  destruct (existsb _ docs || existsb _ docs); reflexivity.
Qed.

Lemma V2_post_contacts_run oid now b docs :
  V2.post_contacts oid now b (Some docs) = create_result oid now b docs.
Proof.
  unfold V2.post_contacts, respond, try_catch, V2.connectToDatabase,
    Routes.create_contact, create_result, Contact.save, Contact.insertOne,
    bind, get, ret.
  destruct (Contact.validate _) as [|e errs]; [|reflexivity].
  cbn [Contact.document Contact._id Contact.d_id Contact.new].
  destruct (existsb _ docs || existsb _ docs); reflexivity.
Qed.

Lemma V1_delete_contacts_run id docs :
  V1.delete_contacts id (Some docs) = delete_result id docs.
Proof.
  unfold V1.delete_contacts, respond, try_catch, Routes.delete_contact,
    delete_result, ObjectId.isValid, Contact.findByIdAndDelete, bind, get.
  destruct (ObjectId.ofString id) as [oid|]; [|reflexivity]. simpl.
  destruct (find _ docs); reflexivity.
Qed.

Lemma V2_delete_contacts_run id docs :
  V2.delete_contacts id (Some docs) = delete_result id docs.
Proof.
  unfold V2.delete_contacts, respond, try_catch, V2.connectToDatabase,
    Routes.delete_contact, delete_result, ObjectId.isValid,
    Contact.findByIdAndDelete, bind, get, ret.
  destruct (ObjectId.ofString id) as [oid|]; [|reflexivity]. simpl.
  destruct (find _ docs); reflexivity.
Qed.

Lemma V1_get_contacts_run docs :
  V1.get_contacts (Some docs)
  = ({| status := 200;
        body := JsonContacts
                  (map transformContact (Contact.sort_by_name docs)) |},
     Some docs).
Proof. reflexivity. Qed.

Lemma V2_get_contacts_run docs :
  V2.get_contacts (Some docs)
  = ({| status := 200;
        body := JsonContacts
                  (map transformContact (Contact.sort_by_name docs)) |},
     Some docs).
Proof. reflexivity. Qed.

(** ** The invariant of the collection *)

Lemma existsb_has_id_false oid docs :
  existsb (Contact.has_id oid) docs = false ->
  ~ In oid (map Contact._id docs).
Proof.
  induction docs as [|x docs IH]; simpl; [tauto|].
  intros H. apply orb_false_iff in H as [Hx H].
  unfold Contact.has_id in Hx. apply ObjectId_eqb_neq in Hx.
  intros [E|Hin]; [congruence | now apply IH].
Qed.

Lemma existsb_has_phone_false p docs :
  existsb (Contact.has_phone p) docs = false ->
  ~ In p (map Contact.phone docs).
Proof.
  induction docs as [|x docs IH]; simpl; [tauto|].
  intros H. apply orb_false_iff in H as [Hx H].
  unfold Contact.has_phone in Hx. apply String.eqb_neq in Hx.
  intros [E|Hin]; [congruence | now apply IH].
Qed.

Lemma existsb_has_phone_true p docs :
  In p (map Contact.phone docs) ->
  existsb (Contact.has_phone p) docs = true.
Proof.
  intros Hin. apply in_map_iff in Hin as (c & Hc & Hin).
  apply existsb_exists. exists c. split; [exact Hin|].
  unfold Contact.has_phone. now apply String.eqb_eq.
Qed.

(** What a draft that passes validation writes. *)
Lemma validate_nil_document (d : Contact.draft) :
  Contact.validate d = [] ->
  RegExp.test E164_REGEX (Contact.phone (Contact.document d)) = true
  /\ Contact.name (Contact.document d) <> "".
Proof.
  unfold Contact.validate, Schema.validate, Contact.document. simpl.
  destruct (Contact.d_name d) as [n|]; simpl; [|discriminate].
  destruct (JsString.truthy n) eqn:Hn; [|discriminate].
  destruct (Contact.d_phone d) as [p|]; simpl; [|discriminate].
  destruct (JsString.truthy p) eqn:Hp; [|discriminate]. simpl.
  destruct (RegExp.test E164_REGEX p) eqn:Ht; simpl; [|discriminate].
  intros _. split; [reflexivity | now apply truthy_nonempty].
Qed.

Lemma NoDup_snoc {A} (l : list A) (a : A) :
  NoDup l -> ~ In a l -> NoDup (l ++ [a]).
Proof.
  intros Hl Ha. apply NoDup_app; [exact Hl | repeat constructor; simpl; tauto |].
  intros x Hx [E|[]]. subst. contradiction.
Qed.

Lemma create_result_well_formed oid now b docs :
  well_formed docs ->
  exists docs', snd (create_result oid now b docs) = Some docs'
                /\ well_formed docs'.
Proof.
  intros (Hid & Hph & Hall). unfold create_result.
  destruct (Contact.validate _) as [|e errs] eqn:Hv.
  - destruct (existsb (Contact.has_id oid) docs) eqn:E1; simpl;
      [exists docs; repeat split; auto|].
    destruct (existsb (Contact.has_phone _) docs) eqn:E2; simpl;
      [exists docs; repeat split; auto|].
    eexists; split; [reflexivity|].
    apply existsb_has_id_false in E1. apply existsb_has_phone_false in E2.
    apply validate_nil_document in Hv.
    unfold well_formed. rewrite !map_app. simpl. repeat split.
    + now apply NoDup_snoc.
    + now apply NoDup_snoc.
    + apply Forall_app. split; [exact Hall | now constructor].
  - exists docs. repeat split; auto.
Qed.

Lemma remove_id_incl oid docs c :
  In c (Contact.remove_id oid docs) -> In c docs.
Proof.
  induction docs as [|x docs IH]; simpl; [tauto|].
  destruct (Contact.has_id oid x); simpl; intuition.
Qed.

Lemma remove_id_NoDup {A} (f : Contact.t -> A) oid docs :
  NoDup (map f docs) -> NoDup (map f (Contact.remove_id oid docs)).
Proof.
  induction docs as [|x docs IH]; simpl; [auto|].
  intros H. inversion H as [|? ? Hx Hnd]; subst.
  destruct (Contact.has_id oid x); simpl; [exact Hnd|].
  constructor; [|now apply IH].
  intros Hin. apply Hx. apply in_map_iff in Hin as (c & Hc & Hin).
  apply in_map_iff. exists c. split; [exact Hc|].
  now apply remove_id_incl in Hin.
Qed.

Lemma remove_id_well_formed oid docs :
  well_formed docs -> well_formed (Contact.remove_id oid docs).
Proof.
  intros (Hid & Hph & Hall). repeat split.
  - now apply remove_id_NoDup.
  - now apply remove_id_NoDup.
  - rewrite Forall_forall in *. intros c Hc.
    apply Hall. now apply remove_id_incl in Hc.
Qed.

Lemma delete_result_well_formed id docs :
  well_formed docs ->
  exists docs', snd (delete_result id docs) = Some docs'
                /\ well_formed docs'.
Proof.
  intros Hwf. unfold delete_result.
  destruct (ObjectId.ofString id) as [oid|]; [|now exists docs].
  destruct (find _ docs); [|now exists docs].
  eexists; split; [reflexivity|]. now apply remove_id_well_formed.
Qed.

(** Every reachable state is a connected database whose collection is
    well formed. *)
Theorem reachable_well_formed (db : Contact.Db) :
  reachable db -> exists docs, db = Some docs /\ well_formed docs.
Proof.
  induction 1 as [|r db Hr (docs & -> & Hwf)|r db Hr (docs & -> & Hwf)].
  - exists []. repeat split; constructor.
  - destruct r as [|oid now b|id]; simpl.
    + now exists docs.
    + rewrite V1_post_contacts_run. now apply create_result_well_formed.
    + rewrite V1_delete_contacts_run. now apply delete_result_well_formed.
  - destruct r as [|oid now b|id]; simpl.
    + now exists docs.
    + rewrite V2_post_contacts_run. now apply create_result_well_formed.
    + rewrite V2_delete_contacts_run. now apply delete_result_well_formed.
Qed.

(** The identifier of a document no longer occurs once it is removed. *)
Lemma find_remove_id oid docs :
  NoDup (map Contact._id docs) ->
  find (Contact.has_id oid) (Contact.remove_id oid docs) = None.
Proof.
  induction docs as [|x docs IH]; simpl; [reflexivity|].
  intros H. inversion H as [|? ? Hx Hnd]; subst.
  destruct (Contact.has_id oid x) eqn:E; simpl.
  - unfold Contact.has_id in E. apply ObjectId_eqb_eq in E. subst oid.
    destruct (find _ docs) as [c|] eqn:F; [|reflexivity].
    apply find_some in F as [Hin Hc].
    unfold Contact.has_id in Hc. apply ObjectId_eqb_eq in Hc.
    exfalso. apply Hx. rewrite <- Hc. now apply in_map.
  - rewrite E. now apply IH.
Qed.

Lemma find_has_id_present c docs :
  In c docs -> exists c', find (Contact.has_id (Contact._id c)) docs = Some c'.
Proof.
  intros Hin.
  destruct (find (Contact.has_id (Contact._id c)) docs) as [c'|] eqn:F;
    [eauto|].
  exfalso. apply (find_none _ _ F) in Hin.
  unfold Contact.has_id in Hin. now rewrite ObjectId_eqb_refl in Hin.
Qed.

(** ** A reachable collection *)

Lemma reachable_jane : reachable (Some [jane]).
Proof.
  exact (reachable_v2
           (PostContacts (sample_oid x01) 1700000000000%Z
              {| body_name := Some "Jane Doe";
                 body_phone := Some "+12125551234" |})
           (Some []) reachable_empty).
Qed.

(** ** Creating a contact *)

Lemma create_result_duplicate oid now b ph docs :
  body_phone b = Some ph ->
  In ph (map Contact.phone docs) ->
  snd (create_result oid now b docs) = Some docs
  /\ (Contact.validate (Contact.new oid now (body_name b) (body_phone b)) = []
      -> fst (create_result oid now b docs)
         = message_response 409 "Phone number already exists.")
  /\ (Contact.validate (Contact.new oid now (body_name b) (body_phone b)) <> []
      -> status (fst (create_result oid now b docs)) = 400).
Proof.
  intros Hb Hin. unfold create_result.
  destruct (Contact.validate _) as [|e errs] eqn:Hv.
  - assert (Hdup : existsb (Contact.has_phone
                      (Contact.phone
                         (Contact.document
                            (Contact.new oid now (body_name b) (body_phone b)))))
                      docs = true).
    { apply existsb_has_phone_true. rewrite Hb. exact Hin. }
    rewrite Hdup, orb_true_r. simpl. repeat split; congruence.
  - simpl. repeat split; congruence.
Qed.

(** C1.  On every reachable collection, a [POST /api/contacts] whose
    phone is already stored never writes: the collection is left as it
    was.  For every request that passes the checks at the boundary of the
    service, that is with a name that is not blank after trimming, the
    answer is 409 with the message 'Phone number already exists.'.  A
    missing or blank name is rejected with 400 at that boundary, before
    the unique index is consulted, like in any other create request.
    Both revisions agree. *)
Theorem C1_duplicate_phone_conflict :
  forall docs oid now b ph,
    reachable (Some docs) ->
    body_phone b = Some ph ->
    In ph (map Contact.phone docs) ->
    (snd (V1.post_contacts oid now b (Some docs)) = Some docs
     /\ snd (V2.post_contacts oid now b (Some docs)) = Some docs)
    /\ (forall n, body_name b = Some n -> JsString.trim n <> "" ->
        fst (V1.post_contacts oid now b (Some docs))
          = message_response 409 "Phone number already exists."
        /\ fst (V2.post_contacts oid now b (Some docs))
          = message_response 409 "Phone number already exists.")
    /\ (JsString.truthy_opt (option_map JsString.trim (body_name b)) = false ->
        status (fst (V1.post_contacts oid now b (Some docs))) = 400
        /\ status (fst (V2.post_contacts oid now b (Some docs))) = 400).
Proof.
  intros docs oid now b ph Hr Hb Hin.
  rewrite V1_post_contacts_run, V2_post_contacts_run.
  destruct (create_result_duplicate oid now b ph docs Hb Hin)
    as (Hs & H409 & H400).
  split; [now split|]. split.
  - intros n Hn Htrim.
    assert (fst (create_result oid now b docs)
            = message_response 409 "Phone number already exists."); [|now split].
    apply H409. rewrite Hn, Hb. apply validate_accepts; [exact Htrim|].
    apply reachable_well_formed in Hr as (docs' & E & _ & _ & Hall).
    injection E as <-. rewrite Forall_forall in Hall.
    apply in_map_iff in Hin as (c & <- & Hc). now apply Hall.
  - intros Hblank.
    assert (status (fst (create_result oid now b docs)) = 400); [|now split].
    apply H400. now apply validate_blank_name.
Qed.

Lemma C1_duplicate_phone_conflict_witness :
  V2.post_contacts (sample_oid x02) 1700000000001%Z
    {| body_name := Some "Jane Doe"; body_phone := Some "+12125551234" |}
    (Some [jane])
  = (message_response 409 "Phone number already exists.", Some [jane]).
Proof.
  pose proof (C1_duplicate_phone_conflict [jane] (sample_oid x02)
                1700000000001%Z
                {| body_name := Some "Jane Doe";
                   body_phone := Some "+12125551234" |}
                "+12125551234"
                reachable_jane eq_refl (or_introl eq_refl)) as H.
  destruct H as ((_ & Hs) & H409 & _).
  destruct (H409 "Jane Doe" eq_refl) as (_ & Hr).
  - vm_compute. discriminate.
  - apply injective_projections; assumption.
Defined.

(** The boundary check comes first: a request with a stored phone and a
    blank name is answered 400 'Please provide a name'. *)
Lemma blank_name_rejected_before_duplicate :
  reachable (Some [jane])
  /\ In "+12125551234" (map Contact.phone [jane])
  /\ V1.post_contacts (sample_oid x02) 1700000000001%Z
       {| body_name := Some ""; body_phone := Some "+12125551234" |}
       (Some [jane])
     = (message_response 400 "Please provide a name", Some [jane])
  /\ V2.post_contacts (sample_oid x02) 1700000000001%Z
       {| body_name := Some ""; body_phone := Some "+12125551234" |}
       (Some [jane])
     = (message_response 400 "Please provide a name", Some [jane]).
Proof.
  split; [exact reachable_jane|]. split; [simpl; auto|].
  split; vm_compute; reflexivity.
Qed.

Lemma V1_post_contacts_invalid oid now b db :
  Contact.validate (Contact.new oid now (body_name b) (body_phone b)) <> [] ->
  exists msg,
    V1.post_contacts oid now b db = (message_response 400 msg, db).
Proof.
  intros Hv.
  unfold V1.post_contacts, respond, try_catch, Routes.create_contact,
    Contact.save, bind.
  destruct (Contact.validate _) as [|e errs]; [congruence|].
  eexists. reflexivity.
Qed.

(** C4.  A phone that does not match [/^\+[1-9]\d{1,14}$/] is answered
    with 400 and the collection is left unchanged, whatever the name: in
    the first revision in every state of the database, in the second on
    every connected database. *)
Theorem C4_invalid_phone_rejected :
  forall oid now nm ph,
    RegExp.test E164_REGEX ph = false ->
    (forall db, exists msg,
        V1.post_contacts oid now
          {| body_name := nm; body_phone := Some ph |} db
        = (message_response 400 msg, db))
    /\ (forall docs, exists msg,
        V2.post_contacts oid now
          {| body_name := nm; body_phone := Some ph |} (Some docs)
        = (message_response 400 msg, Some docs)).
Proof.
  intros oid now nm ph Hph.
  pose proof (validate_nonempty_of_phone oid now nm ph Hph) as Hv.
  split.
  - intros db. now apply V1_post_contacts_invalid.
  - intros docs. rewrite V2_post_contacts_run, <- V1_post_contacts_run.
    now apply V1_post_contacts_invalid.
Qed.

Lemma C4_invalid_phone_rejected_witness :
  exists msg,
    V2.post_contacts (sample_oid x02) 1700000000001%Z
      {| body_name := Some "Bob"; body_phone := Some "12125551234" |}
      (Some [jane])
    = (message_response 400 msg, Some [jane]).
Proof.
  apply (C4_invalid_phone_rejected (sample_oid x02) 1700000000001%Z
           (Some "Bob") "12125551234").
  vm_compute. reflexivity.
Defined.

(** C5 (amended).  Every string made of '+', a digit from 1 to 9 and then
    1 to 14 further digits (2 to 15 digits in all) passes the shape check,
    and with a name that is not blank, a phone not yet stored and a fresh
    [_id] the contact is created: 201, and the document is appended. *)
Theorem C5_e164_phone_accepted :
  forall docs oid now n ph,
    e164_shape ph ->
    JsString.trim n <> "" ->
    ~ In ph (map Contact.phone docs) ->
    ~ In oid (map Contact._id docs) ->
    let c := {| Contact._id := oid; Contact.name := JsString.trim n;
                Contact.phone := ph; Contact.createdAt := now |} in
    let b := {| body_name := Some n; body_phone := Some ph |} in
    RegExp.test E164_REGEX ph = true
    /\ V1.post_contacts oid now b (Some docs)
       = ({| status := 201; body := JsonContact (transformContact c) |},
          Some (docs ++ [c])%list)
    /\ V2.post_contacts oid now b (Some docs)
       = ({| status := 201; body := JsonContact (transformContact c) |},
          Some (docs ++ [c])%list).
Proof.
  intros docs oid now n ph Hshape Hn Hph Hoid c b.
  apply E164_REGEX_spec in Hshape.
  split; [exact Hshape|].
  rewrite V1_post_contacts_run, V2_post_contacts_run.
  assert (create_result oid now b docs
          = ({| status := 201; body := JsonContact (transformContact c) |},
             Some (docs ++ [c])%list)) as ->; [|now split].
  unfold create_result. subst b. cbn [body_name body_phone].
  rewrite (validate_accepts oid now n ph Hn Hshape).
  assert (E1 : existsb (Contact.has_id oid) docs = false).
  { apply not_true_is_false. intros E. apply Hoid.
    apply existsb_exists in E as (x & Hx & E).
    unfold Contact.has_id in E. apply ObjectId_eqb_eq in E.
    subst oid. now apply in_map. }
  assert (E2 : existsb (Contact.has_phone ph) docs = false).
  { apply not_true_is_false. intros E. apply Hph.
    apply existsb_exists in E as (x & Hx & E).
    unfold Contact.has_phone in E. apply String.eqb_eq in E.
    subst ph. now apply in_map. }
  cbn [Contact.document Contact.new Contact.d_id Contact.d_name
       Contact.d_phone Contact.d_createdAt Contact.phone Schema.set
       Contact.ContactSchema_name Contact.ContactSchema_phone Schema.trim option_map].
  rewrite E1, E2. reflexivity.
Qed.

Lemma C5_e164_phone_accepted_witness :
  RegExp.test E164_REGEX "+72" = true
  /\ status (fst (V2.post_contacts (sample_oid x02) 1700000000001%Z
                    {| body_name := Some "Ivan"; body_phone := Some "+72" |}
                    (Some [jane]))) = 201.
Proof.
  destruct (C5_e164_phone_accepted [jane] (sample_oid x02) 1700000000001%Z
              "Ivan" "+72") as (Ht & _ & H2).
  - exists "7"%char, ["2"%char]. repeat split; simpl; lia.
  - vm_compute. discriminate.
  - simpl. intros [E|[]]. discriminate E.
  - simpl. intros [E|[]]. discriminate E.
  - split; [exact Ht|]. rewrite H2. reflexivity.
Defined.

(** C5, as stated, fails at '+7': a plus sign and one digit is within the
    stated shape, yet the pattern asks for a second digit and the request
    is answered with 400. *)
Lemma C5_counterexample_single_digit :
  spec_e164_shape "+7"
  /\ RegExp.test E164_REGEX "+7" = false
  /\ V1.post_contacts (sample_oid x02) 1700000000001%Z
       {| body_name := Some "Ivan"; body_phone := Some "+7" |} (Some [])
     = (message_response 400
          "Please provide a valid phone number in E.164 format", Some [])
  /\ V2.post_contacts (sample_oid x02) 1700000000001%Z
       {| body_name := Some "Ivan"; body_phone := Some "+7" |} (Some [])
     = (message_response 400
          "Please provide a valid phone number in E.164 format", Some []).
Proof.
  split.
  - exists "7"%char, []. repeat split; simpl; lia.
  - repeat split; vm_compute; reflexivity.
Qed.

(** ** Listing the contacts *)

Lemma Sorted_transformContact (l : list Contact.t) :
  Sorted name_le l -> Sorted json_name_le (map transformContact l).
Proof.
  induction 1 as [|x l Hs IH Hhd]; simpl; constructor; [exact IH|].
  destruct Hhd; simpl; constructor. assumption.
Qed.

(** C6.  On every collection [GET /api/contacts] answers 200 with the
    stored contacts, each exactly once, in ascending order of name; the
    collection is not changed.  After Zoe and then Amy are inserted into
    the empty collection, the list is Amy, Zoe. *)
Theorem C6_list_sorted_by_name :
  (forall docs, exists l,
      V1.get_contacts (Some docs)
        = ({| status := 200; body := JsonContacts l |}, Some docs)
      /\ V2.get_contacts (Some docs)
        = ({| status := 200; body := JsonContacts l |}, Some docs)
      /\ Sorted json_name_le l
      /\ Permutation (map transformContact docs) l)
  /\ (let db1 := snd (V2.post_contacts (sample_oid x01) 1%Z zoe_body (Some [])) in
      let db2 := snd (V2.post_contacts (sample_oid x02) 2%Z amy_body db1) in
      map json_name (listed (fst (V2.get_contacts db2))) = ["Amy"; "Zoe"]
      /\ map json_name (listed (fst (V1.get_contacts db2))) = ["Amy"; "Zoe"]).
Proof.
  split.
  - intros docs. exists (map transformContact (Contact.sort_by_name docs)).
    rewrite V1_get_contacts_run, V2_get_contacts_run.
    repeat split.
    + apply Sorted_transformContact, sort_by_name_sorted.
    + apply Permutation_map, sort_by_name_perm.
  - split; vm_compute; reflexivity.
Qed.

(** ** Deleting a contact *)

(** C7.  On every reachable collection and for every stored contact,
    [DELETE /api/contacts/{id}] with the contact's id answers 200
    [{ success: true }], and the same request repeated at once answers
    404 'Contact not found.' and changes nothing. *)
Theorem C7_delete_then_not_found :
  forall docs c,
    reachable (Some docs) ->
    In c docs ->
    let id := ObjectId.toString (Contact._id c) in
    exists docs',
      V1.delete_contacts id (Some docs)
        = ({| status := 200; body := JsonSuccess |}, Some docs')
      /\ V1.delete_contacts id (Some docs')
        = (message_response 404 "Contact not found.", Some docs')
      /\ V2.delete_contacts id (Some docs)
        = ({| status := 200; body := JsonSuccess |}, Some docs')
      /\ V2.delete_contacts id (Some docs')
        = (message_response 404 "Contact not found.", Some docs').
Proof.
  intros docs c Hr Hin id.
  apply reachable_well_formed in Hr as (docs0 & E & Hid & _).
  injection E as <-.
  exists (Contact.remove_id (Contact._id c) docs).
  rewrite !V1_delete_contacts_run, !V2_delete_contacts_run.
  assert (H1 : delete_result id docs
               = ({| status := 200; body := JsonSuccess |},
                  Some (Contact.remove_id (Contact._id c) docs))).
  { unfold delete_result, id. rewrite ofString_toString.
    destruct (find_has_id_present c docs Hin) as [c' ->]. reflexivity. }
  assert (H2 : delete_result id (Contact.remove_id (Contact._id c) docs)
               = (message_response 404 "Contact not found.",
                  Some (Contact.remove_id (Contact._id c) docs))).
  { unfold delete_result, id. rewrite ofString_toString.
    now rewrite find_remove_id. }
  now rewrite H1, H2.
Qed.

Lemma C7_delete_then_not_found_witness :
  V2.delete_contacts "654f1a2b3c4d5e6f70819201" (Some [jane])
    = ({| status := 200; body := JsonSuccess |}, Some [])
  /\ V2.delete_contacts "654f1a2b3c4d5e6f70819201" (Some [])
    = (message_response 404 "Contact not found.", Some []).
Proof.
  destruct (C7_delete_then_not_found [jane] jane reachable_jane
              (or_introl eq_refl)) as (docs' & _ & _ & H1 & H2).
  assert (E : docs' = []).
  { vm_compute in H1. now injection H1 as <-. }
  subst docs'. split; [exact H1 | exact H2].
Defined.

(** ** Webhook verification *)

Lemma q_strict_eq_spec (v : QueryValue) (s : string) :
  q_strict_eq v s = true <-> v = QString s.
Proof.
  destruct v as [|s'|]; simpl; try (split; congruence).
  rewrite String.eqb_eq. split; congruence.
Qed.

Lemma VERIFY_TOKEN_truthy (env : Env) :
  JsString.truthy (Routes.VERIFY_TOKEN env) = true.
Proof.
  unfold Routes.VERIFY_TOKEN, env_or.
  destruct (WEBHOOK_VERIFY_TOKEN env) as [s|]; [|reflexivity].
  destruct (JsString.truthy s) eqn:E; [exact E | reflexivity].
Qed.

Lemma verified_given env query :
  verified env query -> mode_and_token_given query.
Proof.
  intros [Hm Ht]. unfold mode_and_token_given. rewrite Hm, Ht. simpl.
  split; [reflexivity | apply VERIFY_TOKEN_truthy].
Qed.

(** The three answers of [GET /api/webhook], in both revisions. *)
Lemma get_webhook_cases env query :
  (verified env query
   /\ Routes.get_webhook env query
      = {| status := 200; body := Send (hub_challenge query) |})
  \/ (mode_and_token_given query /\ ~ verified env query
      /\ Routes.get_webhook env query
         = {| status := 403; body := StatusText |})
  \/ (~ mode_and_token_given query
      /\ Routes.get_webhook env query
         = message_response 400
             "Missing required query parameters for webhook verification.").
Proof.
  unfold Routes.get_webhook, mode_and_token_given.
  destruct (q_truthy (hub_mode query)) eqn:Em; simpl.
  - destruct (q_truthy (hub_verify_token query)) eqn:Et; simpl.
    + destruct (q_strict_eq (hub_mode query) "subscribe") eqn:E1; simpl.
      * destruct (q_strict_eq (hub_verify_token query)
                    (Routes.VERIFY_TOKEN env)) eqn:E2.
        -- left. split; [|reflexivity].
           split; now apply q_strict_eq_spec.
        -- right; left. repeat split.
           intros [_ H]. apply q_strict_eq_spec in H. congruence.
      * right; left. repeat split.
        intros [H _]. apply q_strict_eq_spec in H. congruence.
    + right; right. split; [|reflexivity]. intros [_ H]. discriminate.
  - right; right. split; [|reflexivity]. intros [H _]. discriminate.
Qed.

(** C8 (amended).  [GET /api/webhook] answers 200 echoing [hub.challenge]
    if and only if [hub.mode] is 'subscribe' and [hub.verify_token] is the
    configured secret; it answers 403 if and only if mode and token are
    both given and do not both match; it answers 400 if and only if the
    mode or the token is missing or empty.  [hub.challenge] is never
    required. *)
Theorem C8_webhook_status :
  forall env query,
    let r := Routes.get_webhook env query in
    V1.get_webhook env query = r
    /\ V2.get_webhook env query = r
    /\ (status r = 200 <-> verified env query)
    /\ (verified env query -> body r = Send (hub_challenge query))
    /\ (status r = 403 <-> mode_and_token_given query /\ ~ verified env query)
    /\ (status r = 400 <-> ~ mode_and_token_given query).
Proof.
  intros env query r. subst r.
  split; [reflexivity|]. split; [reflexivity|].
  pose proof (@verified_given env query) as Hg.
  destruct (get_webhook_cases env query)
    as [(Hv & ->) | [(Hmt & Hnv & ->) | (Hn & ->)]]; simpl.
  - intuition discriminate.
  - intuition discriminate.
  - intuition discriminate.
Qed.

(** C8, as stated, fails when only [hub.challenge] is missing: with the
    right mode and token the answer is 200 with an empty body, and with a
    wrong token it is 403; neither is 400. *)
Lemma C8_counterexample_missing_challenge :
  let env := {| API_KEY := None; WEBHOOK_VERIFY_TOKEN := Some "s3cret" |} in
  V1.get_webhook env
    {| hub_mode := QString "subscribe";
       hub_verify_token := QString "s3cret";
       hub_challenge := QUndefined |}
  = {| status := 200; body := Send QUndefined |}
  /\ V2.get_webhook env
       {| hub_mode := QString "subscribe";
          hub_verify_token := QString "s3cret";
          hub_challenge := QUndefined |}
     = {| status := 200; body := Send QUndefined |}
  /\ V2.get_webhook env
       {| hub_mode := QString "subscribe";
          hub_verify_token := QString "wrong";
          hub_challenge := QUndefined |}
     = {| status := 403; body := StatusText |}.
Proof. repeat split. Qed.

(** C10.  Without [WEBHOOK_VERIFY_TOKEN] in the environment the
    verification stays on, with the built-in secret: a query with mode
    'subscribe' and token 'merajWebhookToken' is answered 200 with the
    challenge. *)
Theorem C10_default_verify_token :
  forall env challenge,
    WEBHOOK_VERIFY_TOKEN env = None ->
    let query := {| hub_mode := QString "subscribe";
                    hub_verify_token := QString "merajWebhookToken";
                    hub_challenge := challenge |} in
    V1.get_webhook env query = {| status := 200; body := Send challenge |}
    /\ V2.get_webhook env query = {| status := 200; body := Send challenge |}.
Proof.
  intros env challenge Henv query.
  unfold V1.get_webhook, V2.get_webhook, Routes.get_webhook,
    Routes.VERIFY_TOKEN, query.
  rewrite Henv. split; reflexivity.
Qed.

Lemma C10_default_verify_token_witness :
  V2.get_webhook {| API_KEY := None; WEBHOOK_VERIFY_TOKEN := None |}
    {| hub_mode := QString "subscribe";
       hub_verify_token := QString "merajWebhookToken";
       hub_challenge := QString "1158201444" |}
  = {| status := 200; body := Send (QString "1158201444") |}.
Proof.
  apply (C10_default_verify_token
           {| API_KEY := None; WEBHOOK_VERIFY_TOKEN := None |}
           (QString "1158201444")).
  reflexivity.
Defined.

(** ** The content suggestion gateway *)

(** C9.  When [API_KEY] is unset or empty as the process starts, every
    [POST /api/generate-content] is answered 503 'AI service is not
    configured on the server.' before the heading is looked at, and the
    client-side [generateMessageContent] rejects with 'API key is not
    configured.'; neither makes a call to the text-generation service. *)
Theorem C9_not_configured_no_call :
  forall env,
    JsString.truthy_opt (API_KEY env) = false ->
    (forall heading,
        V2.post_generate_content env heading
        = Gateway.Done
            (message_response 503
               "AI service is not configured on the server."))
    /\ (forall heading svc,
        Gateway.run svc (V2.post_generate_content env heading)
        = (message_response 503 "AI service is not configured on the server.",
           []))
    /\ (forall heading svc,
        Gateway.run svc (GeminiService.generateMessageContent env heading)
        = (inl (OtherError "API key is not configured."), [])).
Proof.
  intros env Hkey.
  assert (Hai : V2.ai env = None).
  { unfold V2.ai. destruct (API_KEY env) as [k|]; [|reflexivity].
    simpl in Hkey. now rewrite Hkey. }
  repeat split; intros.
  - unfold V2.post_generate_content. now rewrite Hai.
  - unfold V2.post_generate_content. now rewrite Hai.
  - unfold GeminiService.generateMessageContent.
    destruct (API_KEY env) as [k|]; [|reflexivity].
    simpl in Hkey. now rewrite Hkey.
Qed.

Lemma C9_not_configured_no_call_witness :
  Gateway.run (fun _ _ => inr (Some "Hello!"))
    (V2.post_generate_content
       {| API_KEY := None; WEBHOOK_VERIFY_TOKEN := None |}
       (Some "Summer Sale"))
  = (message_response 503 "AI service is not configured on the server.", []).
Proof.
  apply (C9_not_configured_no_call
           {| API_KEY := None; WEBHOOK_VERIFY_TOKEN := None |}).
  reflexivity.
Defined.

(** ** The bulk-send validator *)

Lemma blank_hasTextContent (content : option string) :
  blank content = negb (V2.hasTextContent content).
Proof.
  destruct content as [c|]; [|reflexivity].
  unfold blank, V2.hasTextContent.
  destruct c as [|a c]; [reflexivity|]. cbn [JsString.truthy andb].
  destruct (JsString.trim (String a c)); reflexivity.
Qed.

Lemma log_contact_run {S} (x : JSON.value) (s : S) :
  Routes.log_contact x s
  = if unprintable x then (inl (OtherError "TypeError"), s) else (inr tt, s).
Proof.
  unfold Routes.log_contact, unprintable.
  destruct x; cbn [is_null orb]; try reflexivity;
    destruct (_ || _); reflexivity.
Qed.

Lemma forEach_log_contact {S} (l : list JSON.value) (s : S) :
  Routes.forEach Routes.log_contact l s
  = if existsb unprintable l then (inl (OtherError "TypeError"), s)
    else (inr tt, s).
Proof.
  induction l as [|x l IH]; [reflexivity|].
  cbn [Routes.forEach existsb]. unfold bind.
  rewrite log_contact_run. destruct (unprintable x); [reflexivity | exact IH].
Qed.






(** In the second revision, blank content with a media file and a
    non-empty list of recipients that can be printed is accepted. *)
Lemma V2_media_without_text_accepted (req : SendBulk) (l : list JSON.value) :
  blank (content req) = true ->
  mediaFile req <> None ->
  JSON.parse (JSON.ToString (contactsJSON req)) = Some (JSON.Array l) ->
  l <> [] ->
  existsb unprintable l = false ->
  V2.post_send_bulk req
  = message_response 200
      ("Message successfully sent to "
       ++ JsString.of_nat (length l) ++ " contacts.").
Proof.
  intros Hb Hm Hp Hl Hn. rewrite blank_hasTextContent in Hb.
  apply negb_true_iff in Hb.
  unfold V2.post_send_bulk. rewrite Hb. cbn [negb].
  destruct (mediaFile req) as [f|]; [|congruence]. cbn [V2.isSome negb andb].
  unfold respond, Routes.send_to_contacts, Routes.parse_contacts,
    Routes.JSON_parse, try_catch, bind.
  rewrite Hp. destruct l as [|x l]; [congruence|].
  cbn [length Nat.eqb ret]. unfold Routes.simulate_send, bind.
  rewrite forEach_log_contact, Hn. reflexivity.
Qed.

(** C3 (defect of the first revision).  A request with a media file, empty
    content and one well-formed recipient is rejected by the first
    revision with 'Message content cannot be empty.'; the second revision
    accepts the same request. *)
Theorem C3_v1_rejects_media_without_text :
  let req := {| heading := Some "Sale"; content := Some "";
                contactsJSON := Some amy_json;
                mediaFile := Some {| originalname := "promo.png";
                                     mimetype := "image/png" |} |} in
  (exists l, JSON.parse amy_json = Some (JSON.Array l)
             /\ length l = 1 /\ forallb contact_shaped l = true)
  /\ blank (content req) = true
  /\ V1.post_send_bulk req
     = message_response 400 "Message content cannot be empty."
  /\ V2.post_send_bulk req
     = message_response 200 "Message successfully sent to 1 contacts.".
Proof.
  split; [eexists; split; [vm_compute; reflexivity | split; reflexivity]|].
  repeat split.
Qed.

Lemma trimStart_fixed l : no_leading_ws l -> JsString.trimStart l = l.
Proof.
  destruct l as [|a [|b [|c l]]]; simpl; try tauto.
  - intros [-> _]. reflexivity.
  - intros (-> & -> & _). reflexivity.
  - intros (-> & -> & ->). reflexivity.
Qed.

Lemma trimStart_rev_fixed l :
  no_leading_ws_rev l -> JsString.trimStart_rev l = l.
Proof.
  destruct l as [|a [|b [|c l]]]; simpl; try tauto.
  - intros [-> _]. reflexivity.
  - intros (-> & -> & _). reflexivity.
  - intros (-> & -> & ->). reflexivity.
Qed.

Lemma trimStart_spec l :
  no_leading_ws (JsString.trimStart l)
  /\ exists p, l = (p ++ JsString.trimStart l)%list.
Proof.
  induction l as [l IH] using (induction_ltof1 _ (@length ascii)).
  unfold ltof in IH.
  destruct l as [|a l1]; [split; [exact I | now exists []]|].
  cbn [JsString.trimStart].
  destruct (JsString.ws1 a) eqn:E1.
  { destruct (IH l1) as (H & p & Hp); [simpl; lia|].
    split; [exact H|]. exists (a :: p). simpl. now f_equal. }
  destruct l1 as [|b l2].
  { split; [simpl; auto | now exists []]. }
  destruct (JsString.ws2 a b) eqn:E2.
  { destruct (IH l2) as (H & p & Hp); [simpl; lia|].
    split; [exact H|]. exists (a :: b :: p). simpl. now do 2 f_equal. }
  destruct l2 as [|c l3].
  { split; [simpl; auto | now exists []]. }
  destruct (JsString.ws3 a b c) eqn:E3.
  { destruct (IH l3) as (H & p & Hp); [simpl; lia|].
    split; [exact H|]. exists (a :: b :: c :: p). simpl. now do 3 f_equal. }
  split; [simpl; auto | now exists []].
Qed.

Lemma trimStart_rev_spec l :
  no_leading_ws_rev (JsString.trimStart_rev l)
  /\ exists p, l = (p ++ JsString.trimStart_rev l)%list.
Proof.
  induction l as [l IH] using (induction_ltof1 _ (@length ascii)).
  unfold ltof in IH.
  destruct l as [|a l1]; [split; [exact I | now exists []]|].
  cbn [JsString.trimStart_rev].
  destruct (JsString.ws1 a) eqn:E1.
  { destruct (IH l1) as (H & p & Hp); [simpl; lia|].
    split; [exact H|]. exists (a :: p). simpl. now f_equal. }
  destruct l1 as [|b l2].
  { split; [simpl; auto | now exists []]. }
  destruct (JsString.ws2 b a) eqn:E2.
  { destruct (IH l2) as (H & p & Hp); [simpl; lia|].
    split; [exact H|]. exists (a :: b :: p). simpl. now do 2 f_equal. }
  destruct l2 as [|c l3].
  { split; [simpl; auto | now exists []]. }
  destruct (JsString.ws3 c b a) eqn:E3.
  { destruct (IH l3) as (H & p & Hp); [simpl; lia|].
    split; [exact H|]. exists (a :: b :: c :: p). simpl. now do 3 f_equal. }
  split; [simpl; auto | now exists []].
Qed.

Lemma no_leading_ws_prefix u v :
  no_leading_ws (u ++ v) -> no_leading_ws u.
Proof.
  destruct u as [|a [|b [|c u]]]; simpl; tauto.
Qed.

Lemma trim_list_spec l :
  no_leading_ws (trim_list l) /\ no_leading_ws_rev (rev (trim_list l)).
Proof.
  unfold trim_list. rewrite rev_involutive.
  destruct (trimStart_spec l) as (Hx & _).
  destruct (trimStart_rev_spec (rev (JsString.trimStart l))) as (Hy & p & Hp).
  split; [|exact Hy].
  apply (f_equal (@rev ascii)) in Hp. rewrite rev_involutive, rev_app_distr in Hp.
  rewrite Hp in Hx. now apply no_leading_ws_prefix in Hx.
Qed.

Lemma trim_list_fixed l :
  no_leading_ws l -> no_leading_ws_rev (rev l) -> trim_list l = l.
Proof.
  intros H1 H2. unfold trim_list.
  rewrite (trimStart_fixed l H1), (trimStart_rev_fixed _ H2).
  apply rev_involutive.
Qed.

Lemma trim_idempotent (s : string) :
  JsString.trim (JsString.trim s) = JsString.trim s.
Proof.
  unfold JsString.trim. rewrite list_ascii_of_string_of_list_ascii.
  f_equal. fold (trim_list (list_ascii_of_string s)).
  fold (trim_list (trim_list (list_ascii_of_string s))).
  destruct (trim_list_spec (list_ascii_of_string s)).
  now apply trim_list_fixed.
Qed.

(** ** The collection under the contact routes *)

Lemma create_result_names_trimmed oid now b docs :
  Forall name_trimmed docs ->
  forall docs', snd (create_result oid now b docs) = Some docs' ->
  Forall name_trimmed docs'.
Proof.
  intros Hall docs'. unfold create_result.
  destruct (Contact.validate _) as [|e errs] eqn:Hv;
    [|simpl; intros [= <-]; exact Hall].
  destruct (_ || _); simpl; intros [= <-]; [exact Hall|].
  apply Forall_app. split; [exact Hall|]. constructor; [|constructor].
  unfold name_trimmed, Contact.document, Contact.new, Schema.set. simpl.
  destruct (body_name b) as [n|]; simpl; [apply trim_idempotent | reflexivity].
Qed.

Lemma delete_result_names_trimmed id docs :
  Forall name_trimmed docs ->
  forall docs', snd (delete_result id docs) = Some docs' ->
  Forall name_trimmed docs'.
Proof.
  intros Hall docs'. unfold delete_result.
  destruct (ObjectId.ofString id) as [oid|]; [|simpl; intros [= <-]; exact Hall].
  destruct (find _ docs); simpl; intros [= <-]; [|exact Hall].
  rewrite Forall_forall in *. intros c Hc. apply Hall.
  now apply remove_id_incl in Hc.
Qed.

Lemma reachable_names_trimmed db :
  reachable db -> forall docs, db = Some docs -> Forall name_trimmed docs.
Proof.
  induction 1 as [|r db Hr IH|r db Hr IH]; intros docs'.
  - intros [= <-]. constructor.
  - destruct (reachable_well_formed db Hr) as (docs & -> & _).
    specialize (IH docs eq_refl).
    destruct r as [|oid now b|id]; simpl.
    + intros [= <-]. exact IH.
    + rewrite V1_post_contacts_run. now apply create_result_names_trimmed.
    + rewrite V1_delete_contacts_run. now apply delete_result_names_trimmed.
  - destruct (reachable_well_formed db Hr) as (docs & -> & _).
    specialize (IH docs eq_refl).
    destruct r as [|oid now b|id]; simpl.
    + intros [= <-]. exact IH.
    + rewrite V2_post_contacts_run. now apply create_result_names_trimmed.
    + rewrite V2_delete_contacts_run. now apply delete_result_names_trimmed.
Qed.

(** X1.  Every state that requests to either revision reach from the
    empty collection is a connected database in which no two contacts
    share an [_id] or a phone, every phone has the E.164 shape, and every
    name is non-empty and carries no white space at either end. *)
Theorem collection_invariant :
  forall db,
    reachable db ->
    exists docs,
      db = Some docs
      /\ NoDup (map Contact._id docs)
      /\ NoDup (map Contact.phone docs)
      /\ Forall (fun c => e164_shape (Contact.phone c)
                          /\ Contact.name c <> ""
                          /\ JsString.trim (Contact.name c) = Contact.name c)
           docs.
Proof.
  intros db Hr.
  destruct (reachable_well_formed db Hr) as (docs & -> & Hid & Hph & Hall).
  exists docs. repeat split; auto.
  pose proof (reachable_names_trimmed (Some docs) Hr docs eq_refl) as Ht.
  rewrite Forall_forall in *. intros c Hc.
  destruct (Hall c Hc) as [Hp Hn]. repeat split.
  - now apply E164_REGEX_spec.
  - exact Hn.
  - exact (Ht c Hc).
Qed.

Lemma collection_invariant_witness :
  exists docs,
    Some [jane] = Some docs
    /\ NoDup (map Contact._id docs)
    /\ NoDup (map Contact.phone docs)
    /\ Forall (fun c => e164_shape (Contact.phone c)
                        /\ Contact.name c <> ""
                        /\ JsString.trim (Contact.name c) = Contact.name c)
         docs.
Proof. exact (collection_invariant (Some [jane]) reachable_jane). Defined.

(** ** [POST /api/contacts] in full *)

Lemma validate_nil_iff oid now b :
  Contact.validate (Contact.new oid now (body_name b) (body_phone b)) = []
  <-> valid_contact_body b.
Proof.
  split.
  - intros Hv. apply validate_nil_document in Hv as [Hp Hn].
    unfold Contact.document, Contact.new, Schema.set in Hp, Hn. simpl in Hp, Hn.
    split.
    + destruct (body_name b) as [n|]; simpl in Hn; [eauto | congruence].
    + destruct (body_phone b) as [p|]; simpl in Hp; [|discriminate].
      exists p. split; [reflexivity | now apply E164_REGEX_spec].
  - intros [(n & Hn & Ht) (p & Hp & Hs)]. rewrite Hn, Hp.
    apply validate_accepts; [exact Ht | now apply E164_REGEX_spec].
Qed.

Lemma existsb_has_id_iff oid docs :
  existsb (Contact.has_id oid) docs = true <-> In oid (map Contact._id docs).
Proof.
  rewrite existsb_exists, in_map_iff. unfold Contact.has_id.
  split; intros (c & H1 & H2).
  - apply ObjectId_eqb_eq in H2. eauto.
  - exists c. split; [exact H2 | now apply ObjectId_eqb_eq].
Qed.

Lemma existsb_has_phone_iff p docs :
  existsb (Contact.has_phone p) docs = true <-> In p (map Contact.phone docs).
Proof.
  rewrite existsb_exists, in_map_iff. unfold Contact.has_phone.
  split; intros (c & H1 & H2).
  - apply String.eqb_eq in H2. eauto.
  - exists c. split; [exact H2 | now apply String.eqb_eq].
Qed.

Lemma duplicate_false_iff oid now b docs :
  valid_contact_body b ->
  existsb (Contact.has_id oid) docs
  || existsb (Contact.has_phone
                (Contact.phone
                   (Contact.document
                      (Contact.new oid now (body_name b) (body_phone b)))))
       docs = false
  <-> keys_free oid b docs.
Proof.
  intros [_ (p & Hp & _)]. rewrite orb_false_iff. unfold keys_free.
  rewrite Hp. cbn [Contact.document Contact.new Contact.d_phone Contact.phone
                   Schema.set Contact.ContactSchema_phone Schema.trim].
  rewrite <- !not_true_iff_false, existsb_has_id_iff, existsb_has_phone_iff.
  split.
  - intros [H1 H2]. split; [exact H1|]. now intros p' [= <-].
  - intros [H1 H2]. split; [exact H1 | now apply H2].
Qed.

(** X2.  On a connected database [POST /api/contacts] answers 201, 409 or
    400: 201 exactly when the body is valid and its phone and the drawn
    [_id] are free, 409 exactly when the body is valid and a key is taken,
    400 exactly when the body is not valid.  Only a 201 writes, and it
    appends one document; both revisions answer alike. *)
Theorem post_contacts_status :
  forall oid now b docs,
    let r := V2.post_contacts oid now b (Some docs) in
    V1.post_contacts oid now b (Some docs) = r
    /\ (status (fst r) = 201 <-> valid_contact_body b /\ keys_free oid b docs)
    /\ (status (fst r) = 409
        <-> valid_contact_body b /\ ~ keys_free oid b docs)
    /\ (status (fst r) = 400 <-> ~ valid_contact_body b)
    /\ (status (fst r) = 201 ->
        exists c, snd r = Some (docs ++ [c])%list
                  /\ body (fst r) = JsonContact (transformContact c))
    /\ (status (fst r) <> 201 -> snd r = Some docs).
Proof.
  intros oid now b docs r. subst r.
  rewrite V1_post_contacts_run, V2_post_contacts_run.
  split; [reflexivity|].
  pose proof (validate_nil_iff oid now b) as Hv.
  pose proof (duplicate_false_iff oid now b docs) as Hd.
  unfold create_result.
  destruct (Contact.validate _) as [|e errs].
  - assert (Hb : valid_contact_body b) by now apply Hv.
    specialize (Hd Hb).
    destruct (_ || _); simpl.
    + assert (~ keys_free oid b docs) by (intros H; apply Hd in H; discriminate).
      clear Hv Hd. intuition (discriminate || congruence).
    + assert (keys_free oid b docs) by now apply Hd.
      clear Hv Hd.
      assert (exists c,
                 Some (docs ++ [Contact.document
                                  (Contact.new oid now (body_name b) (body_phone b))])%list
                 = Some (docs ++ [c])%list
                 /\ JsonContact
                      (transformContact
                         (Contact.document
                            (Contact.new oid now (body_name b) (body_phone b))))
                    = JsonContact (transformContact c))
        by (eexists; split; reflexivity).
      intuition (discriminate || congruence).
  - assert (Hb : ~ valid_contact_body b).
    { intros H. apply Hv in H. discriminate. }
    clear Hv Hd. simpl. intuition (discriminate || congruence).
Qed.

Ltac msg_case :=
  intros;
  try reflexivity;
  repeat match goal with
    | H : exists _, _ |- _ => destruct H as (? & H)
    | H : _ /\ _ |- _ => destruct H
    | H : Some _ = Some _ |- _ => injection H as H; subst
    | H : JsString.truthy ?p = false |- _ =>
        apply not_true_iff_false in H; rewrite truthy_nonempty in H
    end;
  try congruence; try discriminate; try tauto.

(** X3.  The message of a 400 names the fields that failed: 'Please
    provide a name' for a missing or blank name, 'Please provide a phone
    number' for a missing or empty phone, 'Please provide a valid phone
    number in E.164 format' for any other phone off the pattern; when both
    fields fail the two messages are joined by a comma, the name first. *)
Theorem post_contacts_messages :
  forall oid now b docs,
    let r := fst (V2.post_contacts oid now b (Some docs)) in
    let name_blank :=
      JsString.truthy_opt (option_map JsString.trim (body_name b)) = false in
    let phone_missing := JsString.truthy_opt (body_phone b) = false in
    let phone_malformed :=
      exists p, body_phone b = Some p /\ p <> ""
                /\ RegExp.test E164_REGEX p = false in
    fst (V1.post_contacts oid now b (Some docs)) = r
    /\ (name_blank -> ~ phone_missing -> ~ phone_malformed ->
        r = message_response 400 "Please provide a name")
    /\ (~ name_blank -> phone_missing ->
        r = message_response 400 "Please provide a phone number")
    /\ (~ name_blank -> phone_malformed ->
        r = message_response 400
              "Please provide a valid phone number in E.164 format")
    /\ (name_blank -> phone_missing ->
        r = message_response 400
              "Please provide a name, Please provide a phone number")
    /\ (name_blank -> phone_malformed ->
        r = message_response 400
              "Please provide a name, Please provide a valid phone number in E.164 format").
Proof.
  intros oid now b docs r name_blank phone_missing phone_malformed.
  subst r name_blank phone_missing phone_malformed.
  rewrite V1_post_contacts_run, V2_post_contacts_run.
  split; [reflexivity|].
  unfold create_result, Contact.validate, Contact.new, Schema.set,
    Schema.validate.
  cbn [Contact.d_name Contact.d_phone Contact.ContactSchema_name
       Contact.ContactSchema_phone Schema.trim Schema.required Schema.match_].
  destruct (JsString.truthy_opt (option_map JsString.trim (body_name b)));
    destruct (body_phone b) as [p|]; cbn [JsString.truthy_opt];
    [destruct (JsString.truthy p) eqn:Ht;
       [destruct (RegExp.test E164_REGEX p) eqn:Hp|]
    | 
    | destruct (JsString.truthy p) eqn:Ht;
       [destruct (RegExp.test E164_REGEX p) eqn:Hp|]
    | ];
    simpl; repeat apply conj; msg_case.
  all: try (exfalso;
            match goal with
            | H : ~ (exists _, _) |- _ =>
                apply H; exists p; repeat split;
                [now apply truthy_nonempty | assumption]
            end).
Qed.

(** ** Well-formed identifiers *)

Lemma hex_value_bound c h : ObjectId.hex_value c = Some h -> h < 16.
Proof.
  unfold ObjectId.hex_value.
  destruct ((48 <=? nat_of_ascii c) && (nat_of_ascii c <=? 57)) eqn:E1.
  { apply andb_true_iff in E1 as [H1 H2].
    apply Nat.leb_le in H1, H2. intros [= <-]. lia. }
  destruct ((97 <=? nat_of_ascii c) && (nat_of_ascii c <=? 102)) eqn:E2.
  { apply andb_true_iff in E2 as [H1 H2].
    apply Nat.leb_le in H1, H2. intros [= <-]. lia. }
  destruct ((65 <=? nat_of_ascii c) && (nat_of_ascii c <=? 70)) eqn:E3;
    [|discriminate].
  apply andb_true_iff in E3 as [H1 H2].
  apply Nat.leb_le in H1, H2. intros [= <-]. lia.
Qed.

Lemma of_nat_small n : n < 256 -> exists b, Byte.of_nat n = Some b.
Proof.
  intros H. destruct (Byte.of_nat n) as [b|] eqn:E; [eauto|].
  apply Byte.of_nat_None_iff in E. lia.
Qed.

Lemma decode_Some (bs : list byte) : forall s,
  ObjectId.decode s = Some bs ->
  length s = 2 * length bs /\ forallb JSON.is_hex s = true.
Proof.
  induction bs as [|b bs IH]; intros s.
  - destruct s as [|hi [|lo s]]; simpl; try discriminate; [auto|].
    destruct (ObjectId.hex_value hi), (ObjectId.hex_value lo),
      (ObjectId.decode s); try discriminate.
    destruct (Byte.of_nat _); discriminate.
  - destruct s as [|hi [|lo s]]; simpl; try discriminate.
    unfold JSON.is_hex.
    destruct (ObjectId.hex_value hi) eqn:Eh; [|discriminate].
    destruct (ObjectId.hex_value lo) eqn:El; [|discriminate].
    destruct (ObjectId.decode s) as [bs'|] eqn:Ed; [|discriminate].
    destruct (Byte.of_nat _); [|discriminate].
    intros [= _ <-]. destruct (IH s Ed) as [Hl Hh].
    split; [lia | exact Hh].
Qed.

Lemma decode_total (n : nat) : forall s,
  length s = 2 * n -> forallb JSON.is_hex s = true ->
  exists bs, ObjectId.decode s = Some bs /\ length bs = n.
Proof.
  induction n as [|n IH]; intros s Hl Hh.
  - destruct s; [|discriminate]. now exists [].
  - destruct s as [|hi [|lo s]]; simpl in Hl; try lia.
    simpl in Hh. unfold JSON.is_hex in Hh at 1 2.
    destruct (ObjectId.hex_value hi) as [h|] eqn:Eh; [|discriminate].
    destruct (ObjectId.hex_value lo) as [l|] eqn:El; [|discriminate].
    destruct (IH s) as (bs & Hd & Hn); [lia | exact Hh|].
    apply hex_value_bound in Eh as Hh1. apply hex_value_bound in El as Hl1.
    destruct (of_nat_small (16 * h + l)) as [b Hb]; [lia|].
    exists (b :: bs). cbn [ObjectId.decode]. rewrite Eh, El, Hd, Hb.
    split; [reflexivity|]. simpl. now f_equal.
Qed.

Lemma of_bytes_Some_iff bs :
  (exists o, ObjectId.of_bytes bs = Some o) <-> length bs = 12.
Proof.
  split.
  - intros [o H].
    do 13 (destruct bs as [|? bs]; try discriminate). reflexivity.
  - intros H.
    do 12 (destruct bs as [|? bs]; try discriminate).
    destruct bs; [|discriminate]. eexists. reflexivity.
Qed.

(** A route parameter is accepted as an identifier exactly when it is 24
    hexadecimal digits, in either case. *)
Lemma isValid_iff (id : string) :
  ObjectId.isValid id = true
  <-> String.length id = 24
      /\ forallb JSON.is_hex (list_ascii_of_string id) = true.
Proof.
  unfold ObjectId.isValid, ObjectId.ofString.
  assert (Hlen : String.length id = length (list_ascii_of_string id)).
  { induction id; simpl; congruence. }
  rewrite Hlen. split.
  - destruct (ObjectId.decode _) as [bs|] eqn:Ed; [|discriminate].
    destruct (ObjectId.of_bytes bs) as [o|] eqn:Eo; [|discriminate].
    intros _. apply decode_Some in Ed as [Hl Hh].
    assert (length bs = 12) by (apply of_bytes_Some_iff; eauto).
    split; [lia | exact Hh].
  - intros [Hl Hh].
    destruct (decode_total 12 _ Hl Hh) as (bs & -> & Hn).
    apply of_bytes_Some_iff in Hn as [o ->]. reflexivity.
Qed.

(** ** [DELETE /api/contacts/:id] in full *)

Lemma remove_id_perm oid docs c :
  find (Contact.has_id oid) docs = Some c ->
  Permutation docs (c :: Contact.remove_id oid docs).
Proof.
  induction docs as [|x docs IH]; simpl; [discriminate|].
  destruct (Contact.has_id oid x).
  - intros [= <-]. reflexivity.
  - intros H. rewrite perm_swap. constructor. now apply IH.
Qed.

(** X5.  On a connected database [DELETE /api/contacts/:id] answers 400
    exactly when the parameter is not 24 hexadecimal digits, 200 exactly
    when it denotes a stored contact, and 404 otherwise.  A 200 removes
    that one contact and nothing else; any other answer leaves the
    collection as it was.  Both revisions answer alike. *)
Theorem delete_contacts_status :
  forall id docs,
    let r := V2.delete_contacts id (Some docs) in
    V1.delete_contacts id (Some docs) = r
    /\ (status (fst r) = 400
        <-> ~ (String.length id = 24
               /\ forallb JSON.is_hex (list_ascii_of_string id) = true))
    /\ (status (fst r) = 200 <-> exists c, In c docs /\ denotes id c)
    /\ (status (fst r) = 404
        <-> ObjectId.isValid id = true
            /\ ~ exists c, In c docs /\ denotes id c)
    /\ (status (fst r) = 200 ->
        exists c docs',
          snd r = Some docs' /\ denotes id c
          /\ Permutation docs (c :: docs')
          /\ length docs = S (length docs'))
    /\ (status (fst r) <> 200 -> snd r = Some docs).
Proof.
  intros id docs r. subst r.
  rewrite V1_delete_contacts_run, V2_delete_contacts_run.
  split; [reflexivity|].
  rewrite <- isValid_iff. unfold delete_result, denotes, ObjectId.isValid.
  destruct (ObjectId.ofString id) as [oid|]; simpl.
  - destruct (find (Contact.has_id oid) docs) as [c|] eqn:F; simpl.
    + pose proof (remove_id_perm oid docs c F) as Hperm.
      apply find_some in F as [Hin Hc].
      unfold Contact.has_id in Hc. apply ObjectId_eqb_eq in Hc.
      assert (exists c0, In c0 docs /\ Some oid = Some (Contact._id c0))
        by (exists c; split; congruence).
      assert (exists c0 docs',
                 Some (Contact.remove_id oid docs) = Some docs'
                 /\ Some oid = Some (Contact._id c0)
                 /\ Permutation docs (c0 :: docs')
                 /\ length docs = S (length docs')).
      { exists c, (Contact.remove_id oid docs). repeat split; try congruence.
        apply Permutation_length in Hperm. exact Hperm. }
      intuition (discriminate || congruence).
    + assert (~ exists c0, In c0 docs /\ Some oid = Some (Contact._id c0)).
      { intros (c0 & Hin & [= ->]).
        apply (find_none _ _ F) in Hin. unfold Contact.has_id in Hin.
        now rewrite ObjectId_eqb_refl in Hin. }
      intuition (discriminate || congruence).
  - assert (~ exists c0 : Contact.t, In c0 docs /\ None = Some (Contact._id c0)).
    { intros (c0 & _ & H). discriminate. }
    intuition (discriminate || congruence).
Qed.

(** ** A created contact is listed *)

Lemma filter_unique {A} (f : A -> string) (l : list A) (c : A) :
  NoDup (map f l) -> In c l ->
  length (filter (fun j => String.eqb (f j) (f c)) l) = 1.
Proof.
  induction l as [|x l IH]; simpl; [tauto|].
  intros Hnd Hin. inversion Hnd as [|? ? Hx Hl]; subst.
  destruct Hin as [->|Hin].
  - rewrite String.eqb_refl. simpl. f_equal.
    apply length_zero_iff_nil.
    destruct (filter _ l) as [|y l'] eqn:F; [reflexivity|].
    assert (Hy : In y (filter (fun j => String.eqb (f j) (f c)) l))
      by (rewrite F; now left).
    apply filter_In in Hy as [Hy E]. apply String.eqb_eq in E.
    exfalso. apply Hx. rewrite <- E. now apply in_map.
  - destruct (String.eqb (f x) (f c)) eqn:E.
    + apply String.eqb_eq in E. exfalso. apply Hx. rewrite E. now apply in_map.
    + now apply IH.
Qed.

Lemma NoDup_json_ids docs :
  NoDup (map Contact._id docs) -> NoDup (map id (map transformContact docs)).
Proof.
  rewrite map_map. simpl. induction docs as [|x docs IH]; simpl; [constructor|].
  intros H. inversion H as [|? ? Hx Hl]; subst. constructor; [|now apply IH].
  intros Hin. apply Hx. apply in_map_iff in Hin as (y & Hy & Hin).
  apply toString_inj in Hy. rewrite <- Hy. now apply in_map.
Qed.

Lemma post_contacts_created oid now b docs :
  status (fst (V2.post_contacts oid now b (Some docs))) = 201 ->
  exists c,
    snd (V2.post_contacts oid now b (Some docs)) = Some (docs ++ [c])%list
    /\ body (fst (V2.post_contacts oid now b (Some docs)))
       = JsonContact (transformContact c).
Proof.
  rewrite V2_post_contacts_run. unfold create_result.
  destruct (Contact.validate _) as [|e errs]; [|discriminate].
  destruct (_ || _); [discriminate|].
  intros _. eexists. split; reflexivity.
Qed.

(** X4.  On a reachable collection, after a [POST /api/contacts] answered
    201 the next [GET /api/contacts] lists the returned contact, under its
    id exactly once, and the list is one longer than the collection
    was. *)
Theorem created_contact_is_listed :
  forall docs oid now b,
    reachable (Some docs) ->
    status (fst (V2.post_contacts oid now b (Some docs))) = 201 ->
    exists c l,
      body (fst (V2.post_contacts oid now b (Some docs))) = JsonContact c
      /\ fst (V2.get_contacts (snd (V2.post_contacts oid now b (Some docs))))
         = {| status := 200; body := JsonContacts l |}
      /\ In c l
      /\ length (filter (fun j => String.eqb (id j) (id c)) l) = 1
      /\ length l = S (length docs).
Proof.
  intros docs oid now b Hr H201.
  pose proof (reachable_v2 (PostContacts oid now b) (Some docs) Hr) as Hr'.
  simpl in Hr'.
  destruct (post_contacts_created oid now b docs H201) as (c & Hs & Hb).
  rewrite Hs in *.
  apply reachable_well_formed in Hr' as (docs' & [= <-] & Hid & _).
  exists (transformContact c),
    (map transformContact (Contact.sort_by_name (docs ++ [c])%list)).
  pose proof (sort_by_name_perm (docs ++ [c])%list) as Hperm.
  assert (Hin : In (transformContact c)
                  (map transformContact (Contact.sort_by_name (docs ++ [c])%list))).
  { apply in_map. apply (Permutation_in _ Hperm). apply in_or_app.
    right. now left. }
  repeat split.
  - exact Hb.
  - exact Hin.
  - apply filter_unique; [|exact Hin].
    apply NoDup_json_ids.
    apply (Permutation_NoDup (Permutation_map Contact._id Hperm) Hid).
  - rewrite length_map, <- (Permutation_length Hperm), length_app. simpl. lia.
Qed.

(** ** Without a database *)

(** X6.  Without a usable connection the second revision answers 500 on
    the three contact routes, whatever the request, because it connects
    first.  The first revision validates before it reaches the database:
    it still answers 400 to an invalid body or a malformed id, and 500
    otherwise.  Nothing is written. *)
Theorem no_database_answers :
  (forall oid now b id,
      V2.get_contacts None
        = (message_response 500 "Server Error: Could not fetch contacts.", None)
      /\ V2.post_contacts oid now b None
        = (message_response 500 "Server Error: Could not create contact.", None)
      /\ V2.delete_contacts id None
        = (message_response 500 "Server Error: Could not delete contact.", None))
  /\ (forall oid now b id,
      V1.get_contacts None
        = (message_response 500 "Server Error: Could not fetch contacts.", None)
      /\ (valid_contact_body b ->
          V1.post_contacts oid now b None
          = (message_response 500 "Server Error: Could not create contact.", None))
      /\ (~ valid_contact_body b ->
          status (fst (V1.post_contacts oid now b None)) = 400)
      /\ (ObjectId.isValid id = true ->
          V1.delete_contacts id None
          = (message_response 500 "Server Error: Could not delete contact.", None))
      /\ (ObjectId.isValid id = false ->
          V1.delete_contacts id None
          = (message_response 400 "Invalid contact ID format.", None))).
Proof.
  split; intros oid now b id.
  - repeat split.
  - split; [reflexivity|].
    pose proof (validate_nil_iff oid now b) as Hv.
    unfold V1.post_contacts, V1.delete_contacts, respond, try_catch,
      Routes.create_contact, Routes.delete_contact, Contact.save,
      Contact.insertOne, Contact.findByIdAndDelete, bind, get.
    repeat split.
    + intros Hb. apply Hv in Hb. rewrite Hb. reflexivity.
    + intros Hb. destruct (Contact.validate _); [tauto | reflexivity].
    + intros ->. reflexivity.
    + intros ->. reflexivity.
Qed.

(** ** The bulk-send handler in full *)

Lemma send_to_contacts_run (on_error : Thrown -> Response)
  (text : option string) :
  fst (respond on_error (Routes.send_to_contacts text) tt)
  = recipients_response on_error text.
Proof.
  unfold respond, Routes.send_to_contacts, Routes.parse_contacts,
    Routes.JSON_parse, recipients_response, try_catch, bind.
  destruct (JSON.parse (JSON.ToString text)) as [v|]; [|reflexivity].
  destruct v as [| | | |l|]; try reflexivity.
  destruct l as [|x l]; [reflexivity|].
  cbn [length Nat.eqb ret]. unfold Routes.simulate_send, bind.
  rewrite forEach_log_contact.
  destruct (existsb unprintable (x :: l)); reflexivity.
Qed.

Lemma recipients_response_usable on_error text n :
  recipients_usable text n -> recipients_response on_error text = sent_message n.
Proof.
  intros (l & Hp & Hl & Hn & <-). unfold recipients_response. rewrite Hp.
  destruct l as [|x l]; [congruence|]. now rewrite Hn.
Qed.


Lemma V2_post_send_bulk_run req :
  V2.post_send_bulk req
  = if blank (content req) && negb (V2.isSome (mediaFile req))
    then message_response 400
           "A message must contain either text content or a media file."
    else recipients_response V2.error_handler (contactsJSON req).
Proof.
  unfold V2.post_send_bulk. rewrite blank_hasTextContent.
  destruct (negb (V2.hasTextContent (content req))
            && negb (V2.isSome (mediaFile req))); [reflexivity|].
  apply send_to_contacts_run.
Qed.

Lemma V1_post_send_bulk_run req :
  V1.post_send_bulk req
  = if negb (JsString.truthy_opt (content req))
    then message_response 400 "Message content cannot be empty."
    else recipients_response V1.error_handler (contactsJSON req).
Proof.
  unfold V1.post_send_bulk.
  destruct (negb (JsString.truthy_opt (content req))); [reflexivity|].
  apply send_to_contacts_run.
Qed.

(** The defect that the logging loop adds: a recipient whose name is an
    object with a member [toString] passes the three tests, and the
    template literal that prints it throws. *)
Example send_bulk_unprintable_name :
  let req := {| heading := Some "Sale"; content := Some "Hello";
                contactsJSON := Some unprintable_json; mediaFile := None |} in
  JSON.parse unprintable_json
  = Some (JSON.Array
            [JSON.Object
               [(list_ascii_of_string "name",
                 JSON.Object [(list_ascii_of_string "toString", JSON.Null)])]])
  /\ V1.post_send_bulk req = {| status := 500; body := DefaultErrorPage |}
  /\ V2.post_send_bulk req
     = message_response 500
         "An internal server error occurred. Please try again later.".
Proof. repeat split. Qed.

(** What the loop can print: every primitive, an object or an array in
    the place of a recipient, and a name or phone that is an object
    without a member [toString], or an array of such values.  Of two
    members [name] the later counts, and a key may be written with
    escapes. *)
Example unprintable_samples :
  let name_is v := JSON.Object [(list_ascii_of_string "name", v)] in
  let toString := JSON.Object [(list_ascii_of_string "toString", JSON.Null)] in
  map unprintable
    [JSON.Null; JSON.Bool true; JSON.Number (list_ascii_of_string "1");
     JSON.Str (list_ascii_of_string "a"); JSON.Array [JSON.Null];
     JSON.Object []; toString;
     name_is JSON.Null; name_is (JSON.Object []);
     name_is (JSON.Object [(list_ascii_of_string "valueOf", JSON.Null)]);
     name_is (JSON.Array [JSON.Null; JSON.Array []]);
     name_is toString;
     name_is (JSON.Array [JSON.Bool true; JSON.Array [toString]]);
     JSON.Object [(list_ascii_of_string "n\u0061me", toString)];
     JSON.Object [(list_ascii_of_string "phone",
                   JSON.Object [(list_ascii_of_string "toStr\u0069ng",
                                 JSON.Bool false)])];
     JSON.Object [(list_ascii_of_string "name", toString);
                  (list_ascii_of_string "name", JSON.Null)];
     JSON.Object [(list_ascii_of_string "Name", toString)]]
  = [true; false; false; false; false; false; false;
     false; false; false; false;
     true; true; true; true;
     false; false].
Proof. reflexivity. Qed.


(** X9.  A recipients array that holds a [null] passes the validation and
    breaks the logging loop: once the message test is passed, the answer
    is 500, from the error middleware in the second revision and from
    Express itself in the first. *)
Theorem send_bulk_null_recipient :
  forall req l,
    JSON.parse (JSON.ToString (contactsJSON req)) = Some (JSON.Array l) ->
    In JSON.Null l ->
    (blank (content req) = false \/ mediaFile req <> None ->
     V2.post_send_bulk req
     = message_response 500
         "An internal server error occurred. Please try again later.")
    /\ (JsString.truthy_opt (content req) = true ->
        V1.post_send_bulk req = {| status := 500; body := DefaultErrorPage |}).
Proof.
  intros req l Hp Hin.
  assert (Hn : existsb unprintable l = true).
  { apply existsb_exists. exists JSON.Null. split; [exact Hin | reflexivity]. }
  rewrite V2_post_send_bulk_run, V1_post_send_bulk_run.
  unfold recipients_response. rewrite Hp.
  destruct l as [|x l]; [destruct Hin|]. rewrite Hn.
  split.
  - intros H.
    destruct (blank (content req)); destruct (mediaFile req);
      cbn [negb andb V2.isSome]; try reflexivity.
    destruct H; congruence.
  - intros ->. reflexivity.
Qed.

Lemma send_bulk_null_recipient_witness :
  V2.post_send_bulk
    {| heading := None; content := Some "Hello";
       contactsJSON := Some "[null]"; mediaFile := None |}
  = message_response 500
      "An internal server error occurred. Please try again later.".
Proof.
  apply (send_bulk_null_recipient
           {| heading := None; content := Some "Hello";
              contactsJSON := Some "[null]"; mediaFile := None |}
           [JSON.Null]).
  - vm_compute. reflexivity.
  - simpl. auto.
  - left. vm_compute. reflexivity.
Defined.

Lemma created_contact_is_listed_witness :
  exists c l,
    body (fst (V2.post_contacts (sample_oid x02) 2%Z amy_body (Some [jane])))
      = JsonContact c
    /\ fst (V2.get_contacts
              (snd (V2.post_contacts (sample_oid x02) 2%Z amy_body (Some [jane]))))
       = {| status := 200; body := JsonContacts l |}
    /\ In c l
    /\ length (filter (fun j => String.eqb (id j) (id c)) l) = 1
    /\ length l = 2.
Proof.
  apply (created_contact_is_listed [jane] (sample_oid x02) 2%Z amy_body).
  - exact reachable_jane.
  - vm_compute. reflexivity.
Defined.

(** ** The phone pattern *)

Lemma string_length_list (s : string) :
  String.length s = length (list_ascii_of_string s).
Proof. induction s; simpl; congruence. Qed.

Lemma digit_plain c :
  RegExp.digit c = true ->
  JsString.ws1 c = false /\ nat_of_ascii c < 128.
Proof.
  unfold RegExp.digit, RegExp.range, JsString.ws1, JsString.code.
  change (nat_of_ascii "0") with 48. change (nat_of_ascii "9") with 57.
  intros H. apply andb_true_iff in H as [H1 H2].
  apply Nat.leb_le in H1, H2.
  split; [|lia].
  apply orb_false_iff. split.
  - apply andb_false_iff. right. apply Nat.leb_gt. lia.
  - apply Nat.eqb_neq. lia.
Qed.

Lemma plain_no_leading_ws a l :
  JsString.ws1 a = false -> nat_of_ascii a < 128 -> no_leading_ws (a :: l).
Proof.
  intros H1 H2. simpl. split; [exact H1|].
  destruct l as [|b l]; [exact I|]. split.
  - unfold JsString.ws2, JsString.code. apply andb_false_iff. left.
    apply Nat.eqb_neq. lia.
  - destruct l as [|c l]; [exact I|].
    unfold JsString.ws3, JsString.code.
    assert (E : forall n, 128 <= n -> (nat_of_ascii a =? n) = false)
      by (intros; apply Nat.eqb_neq; lia).
    rewrite !E by lia. reflexivity.
Qed.

Lemma plain_no_leading_ws_rev a l :
  JsString.ws1 a = false -> nat_of_ascii a < 128 -> no_leading_ws_rev (a :: l).
Proof.
  intros H1 H2. simpl. split; [exact H1|].
  assert (E : forall n, 128 <= n -> (nat_of_ascii a =? n) = false)
    by (intros; apply Nat.eqb_neq; lia).
  destruct l as [|b l]; [exact I|]. split.
  - unfold JsString.ws2, JsString.code. rewrite E by lia. apply andb_false_r.
  - destruct l as [|c l]; [exact I|].
    unfold JsString.ws3, JsString.code.
    assert (L : (128 <=? nat_of_ascii a) = false) by (apply Nat.leb_gt; lia).
    rewrite !E by lia. rewrite L. cbn [andb orb].
    rewrite !andb_false_r. reflexivity.
Qed.

Lemma forallb_last {A} (f : A -> bool) (l : list A) (d : A) :
  forallb f l = true -> l <> [] -> f (last l d) = true.
Proof.
  induction l as [|x l IH]; [congruence|].
  simpl. intros H _. apply andb_true_iff in H as [Hx Hl].
  destruct l as [|y l]; [exact Hx|]. apply IH; [exact Hl | discriminate].
Qed.

(** A string of the E.164 shape is its own trimmed form. *)
Lemma e164_shape_trim (s : string) : e164_shape s -> JsString.trim s = s.
Proof.
  intros (d & ds & -> & Hd & Hds & Hlen).
  unfold JsString.trim. cbn [list_ascii_of_string].
  rewrite list_ascii_of_string_of_list_ascii.
  fold (trim_list ("+"%char :: d :: ds)).
  rewrite trim_list_fixed; [reflexivity | |].
  - apply plain_no_leading_ws; [reflexivity | vm_compute; lia].
  - assert (Hne : ds <> []) by (destruct ds; [simpl in Hlen; lia | discriminate]).
    destruct (exists_last Hne) as (ds' & z & ->).
    assert (Hz : RegExp.digit z = true).
    { rewrite forallb_app in Hds. apply andb_true_iff in Hds as [_ Hz].
      simpl in Hz. now rewrite andb_true_r in Hz. }
    change ("+"%char :: d :: ds' ++ [z])%list
      with (("+"%char :: d :: ds') ++ [z])%list.
    rewrite rev_app_distr. simpl rev at 1. cbn [app].
    apply digit_plain in Hz as [Hz1 Hz2].
    now apply plain_no_leading_ws_rev.
Qed.

(** X7.  The phone pattern of the schema and of the client form accepts
    exactly the strings made of a plus sign, a digit from 1 to 9 and 1 to
    14 further digits: an accepted phone has 3 to 16 characters, none of
    them white space, so that trimming leaves it unchanged. *)
Theorem phone_pattern_language :
  forall s,
    (RegExp.test E164_REGEX s = true <-> e164_shape s)
    /\ (RegExp.test E164_REGEX s = true ->
        3 <= String.length s <= 16 /\ JsString.trim s = s).
Proof.
  intros s. split; [apply E164_REGEX_spec|].
  intros H. apply E164_REGEX_spec in H. split; [|now apply e164_shape_trim].
  destruct H as (d & ds & -> & _ & _ & Hlen).
  rewrite string_length_list. cbn [list_ascii_of_string length].
  rewrite list_ascii_of_string_of_list_ascii. lia.
Qed.

(** ** The calls to the text-generation service *)

Lemma length_zero_string (s : string) : (String.length s =? 0) = true <-> s = "".
Proof. destruct s; simpl; split; congruence. Qed.

Lemma trim_empty : JsString.trim "" = "".
Proof. reflexivity. Qed.

(** X10.  With a configured key [POST /api/generate-content] answers 400
    to a missing or blank heading without calling the service; for any
    other heading it calls the service exactly once, with the model
    'gemini-2.5-flash' and the prompt built from the heading, and answers
    200 with the text the call returned or, whatever the call threw, 500
    with one fixed message.  There is no second attempt. *)
Theorem generate_content_calls :
  forall env key svc,
    V2.ai env = Some key ->
    (forall heading,
        heading_blank heading ->
        Gateway.run svc (V2.post_generate_content env heading)
        = (message_response 400 "Heading is required to generate content.", []))
    /\ (forall h,
        JsString.trim h <> "" ->
        Gateway.run svc (V2.post_generate_content env (Some h))
        = (match svc "gemini-2.5-flash" (Gateway.prompt h) with
           | inr text => {| status := 200; body := JsonContent text |}
           | inl _ =>
               message_response 500
                 "Failed to generate AI content. Please check the server logs."
           end,
           [("gemini-2.5-flash", Gateway.prompt h)])).
Proof.
  intros env key svc Hai. unfold V2.post_generate_content. rewrite Hai.
  split.
  - intros [h|] Hb; [|reflexivity]. simpl in Hb.
    rewrite Hb. cbn [String.length Nat.eqb]. rewrite orb_true_r. reflexivity.
  - intros h Hh.
    assert (Ht : JsString.truthy h = true).
    { apply truthy_nonempty. intros ->. now apply Hh. }
    assert (Hl : (String.length (JsString.trim h) =? 0) = false).
    { apply not_true_iff_false. now rewrite length_zero_string. }
    rewrite Ht, Hl. cbn [negb orb Gateway.run].
    destruct (svc _ _); reflexivity.
Qed.

Lemma generate_content_calls_witness :
  Gateway.run (fun _ _ => inl (OtherError "quota exceeded"))
    (V2.post_generate_content
       {| API_KEY := Some "k"; WEBHOOK_VERIFY_TOKEN := None |}
       (Some "Summer Sale"))
  = (message_response 500
       "Failed to generate AI content. Please check the server logs.",
     [("gemini-2.5-flash", Gateway.prompt "Summer Sale")]).
Proof.
  apply (generate_content_calls
           {| API_KEY := Some "k"; WEBHOOK_VERIFY_TOKEN := None |} "k"
           (fun _ _ => inl (OtherError "quota exceeded")) eq_refl).
  vm_compute. discriminate.
Defined.

(** X11.  With a key in the environment the client-side
    [generateMessageContent] calls the service exactly once for every
    heading, the empty one included; it resolves with the text of the
    response and turns whatever the call threw into the one error 'Failed
    to generate AI content. Please check the API key and try again.'. *)
Theorem generateMessageContent_calls :
  forall env key heading svc,
    API_KEY env = Some key ->
    key <> "" ->
    Gateway.run svc (GeminiService.generateMessageContent env heading)
    = (match svc "gemini-2.5-flash" (Gateway.prompt heading) with
       | inr text => inr text
       | inl _ =>
           inl (OtherError
                  "Failed to generate AI content. Please check the API key and try again.")
       end,
       [("gemini-2.5-flash", Gateway.prompt heading)]).
Proof.
  intros env key heading svc Hk Hne.
  unfold GeminiService.generateMessageContent. rewrite Hk.
  apply truthy_nonempty in Hne. rewrite Hne. cbn [Gateway.run].
  destruct (svc _ _); reflexivity.
Qed.

Lemma generateMessageContent_calls_witness :
  Gateway.run (fun _ _ => inr (Some "Big sale today!"))
    (GeminiService.generateMessageContent
       {| API_KEY := Some "k"; WEBHOOK_VERIFY_TOKEN := None |} "")
  = (inr (Some "Big sale today!"), [("gemini-2.5-flash", Gateway.prompt "")]).
Proof.
  apply (generateMessageContent_calls
           {| API_KEY := Some "k"; WEBHOOK_VERIFY_TOKEN := None |} "k" ""
           (fun _ _ => inr (Some "Big sale today!")) eq_refl).
  discriminate.
Defined.

(** ** [JSON.parse] reads back what [JSON.stringify] writes *)

Lemma is_hex_hex_digit n : n < 16 -> JSON.is_hex (ObjectId.hex_digit n) = true.
Proof.
  intros H. do 16 (destruct n as [|n]; [reflexivity|]). lia.
Qed.

(** The body of a string literal is read up to the closing quote, as
    written. *)
Lemma string_body_escape (s : list ascii) : forall acc rest,
  JSON.string_body (flat_map Stringify.escape_char s ++ JSON.dquote :: rest) acc
  = Some ((rev acc ++ flat_map Stringify.escape_char s)%list, rest).
Proof.
  induction s as [|c s IH]; intros acc rest.
  - simpl. now rewrite app_nil_r.
  - cbn [flat_map]. rewrite <- app_assoc.
    set (tail := flat_map Stringify.escape_char s) in *.
    assert (Hstep : forall pre,
               JSON.string_body (tail ++ JSON.dquote :: rest) (rev pre ++ acc)
               = Some ((rev acc ++ pre ++ tail)%list, rest)).
    { intros pre. rewrite IH, rev_app_distr, rev_involutive.
      now rewrite <- app_assoc. }
    unfold Stringify.escape_char.
    destruct (Ascii.eqb c JSON.dquote) eqn:E1;
      [exact (Hstep [JSON.backslash; JSON.dquote])|].
    destruct (Ascii.eqb c JSON.backslash) eqn:E2;
      [exact (Hstep [JSON.backslash; JSON.backslash])|].
    destruct (nat_of_ascii c =? 8);
      [exact (Hstep [JSON.backslash; "b"%char])|].
    destruct (nat_of_ascii c =? 9);
      [exact (Hstep [JSON.backslash; "t"%char])|].
    destruct (nat_of_ascii c =? 10);
      [exact (Hstep [JSON.backslash; "n"%char])|].
    destruct (nat_of_ascii c =? 12);
      [exact (Hstep [JSON.backslash; "f"%char])|].
    destruct (nat_of_ascii c =? 13);
      [exact (Hstep [JSON.backslash; "r"%char])|].
    destruct (nat_of_ascii c <? 32) eqn:E3.
    { apply Nat.ltb_lt in E3.
      assert (H1 : JSON.is_hex (ObjectId.hex_digit (nat_of_ascii c / 16)) = true).
      { apply is_hex_hex_digit. apply Nat.Div0.div_lt_upper_bound. lia. }
      assert (H2 : JSON.is_hex (ObjectId.hex_digit (nat_of_ascii c mod 16)) = true).
      { apply is_hex_hex_digit. apply Nat.mod_upper_bound. lia. }
      cbn [app JSON.string_body].
      change (Ascii.eqb JSON.backslash JSON.dquote) with false.
      change (Ascii.eqb JSON.backslash JSON.backslash) with true.
      change (JSON.is_escape "u") with false.
      change (Ascii.eqb "u" "u") with true.
      change (JSON.is_hex "0") with true.
      cbv iota. cbn [andb]. rewrite H1, H2. cbv iota.
      exact (Hstep [JSON.backslash; "u"%char; "0"%char; "0"%char;
                    ObjectId.hex_digit (nat_of_ascii c / 16);
                    ObjectId.hex_digit (nat_of_ascii c mod 16)]). }
    cbn [app JSON.string_body]. rewrite E1, E2, E3.
    exact (Hstep [c]).
Qed.

Lemma parse_quoted (fuel : nat) (s : string) (rest : list ascii) :
  JSON.parse_value (S fuel) (Stringify.quote s ++ rest)
  = Some (JSON.Str (Stringify.escape s), rest).
Proof.
  unfold Stringify.quote, Stringify.escape.
  cbn [app JSON.parse_value JSON.skip_ws].
  change (JSON.is_ws JSON.dquote) with false. cbv iota.
  change (Ascii.eqb JSON.dquote "[") with false.
  change (Ascii.eqb JSON.dquote "{") with false.
  change (Ascii.eqb JSON.dquote JSON.dquote) with true. cbv iota.
  rewrite <- app_assoc. cbn [app]. now rewrite string_body_escape.
Qed.

Lemma skip_ws_quote (s : string) (rest : list ascii) :
  JSON.skip_ws (Stringify.quote s ++ rest) = (Stringify.quote s ++ rest)%list.
Proof. reflexivity. Qed.

Lemma string_body_quote_tail (s : string) (rest : list ascii) :
  JSON.string_body (Stringify.escape s ++ JSON.dquote :: rest) []
  = Some (Stringify.escape s, rest).
Proof. unfold Stringify.escape. now rewrite string_body_escape. Qed.

(** One member followed by a comma: the scan goes on with the next. *)
Lemma parse_member_comma (fuel : nat) (key value : string)
  (more : list ascii) (acc : list (list ascii * JSON.value)) :
  JSON.parse_members (S (S fuel))
    (Stringify.member key value ++ ","%char :: more) acc
  = JSON.parse_members (S fuel) more
      ((Stringify.escape key, JSON.Str (Stringify.escape value)) :: acc).
Proof.
  unfold Stringify.member. rewrite <- app_assoc.
  cbn [JSON.parse_members]. rewrite skip_ws_quote.
  unfold Stringify.quote at 1. cbn [app].
  change (Ascii.eqb JSON.dquote JSON.dquote) with true. cbv iota.
  rewrite <- app_assoc. cbn [app]. rewrite string_body_quote_tail.
  cbn [JSON.skip_ws]. change (JSON.is_ws ":") with false. cbv iota.
  change (Ascii.eqb ":" ":") with true. cbv iota.
  rewrite parse_quoted.
  cbn [JSON.skip_ws]. change (JSON.is_ws ",") with false. cbv iota.
  change (Ascii.eqb "," ",") with true. cbv iota.
  reflexivity.
Qed.

(** The last member, followed by the closing brace. *)
Lemma parse_member_last (fuel : nat) (key value : string)
  (rest : list ascii) (acc : list (list ascii * JSON.value)) :
  JSON.parse_members (S (S fuel))
    (Stringify.member key value ++ "}"%char :: rest) acc
  = Some (JSON.Object
            (rev ((Stringify.escape key,
                   JSON.Str (Stringify.escape value)) :: acc)), rest).
Proof.
  unfold Stringify.member. rewrite <- app_assoc.
  cbn [JSON.parse_members]. rewrite skip_ws_quote.
  unfold Stringify.quote at 1. cbn [app].
  change (Ascii.eqb JSON.dquote JSON.dquote) with true. cbv iota.
  rewrite <- app_assoc. cbn [app]. rewrite string_body_quote_tail.
  cbn [JSON.skip_ws]. change (JSON.is_ws ":") with false. cbv iota.
  change (Ascii.eqb ":" ":") with true. cbv iota.
  rewrite parse_quoted.
  cbn [JSON.skip_ws]. change (JSON.is_ws "}") with false. cbv iota.
  change (Ascii.eqb "}" ",") with false.
  change (Ascii.eqb "}" "}") with true. cbv iota.
  reflexivity.
Qed.

Lemma parse_object_open (fuel : nat) (key value : string)
  (more : list ascii) :
  JSON.parse_value (S fuel) ("{"%char :: Stringify.member key value ++ more)
  = JSON.parse_members fuel (Stringify.member key value ++ more) [].
Proof. reflexivity. Qed.

(** A contact is read back as the object of its four members. *)
Lemma parse_contact (toISOString : Z -> string) (fuel : nat)
  (c : ContactJson) (rest : list ascii) :
  JSON.parse_value (6 + fuel) (Stringify.contact toISOString c ++ rest)
  = Some (Stringify.contact_value toISOString c, rest).
Proof.
  unfold Stringify.contact. cbn [plus].
  repeat (rewrite <- app_assoc || rewrite <- app_comm_cons).
  rewrite parse_object_open.
  rewrite !parse_member_comma, parse_member_last.
  reflexivity.
Qed.

(** The elements of a non-empty array, up to the closing bracket. *)
Lemma parse_contacts_elements (toISOString : Z -> string)
  (l : list ContactJson) : forall fuel c acc rest,
  JSON.parse_elements (length l + 7 + fuel)
    (Stringify.elements toISOString (c :: l) ++ "]"%char :: rest) acc
  = Some (JSON.Array
            (rev acc ++ map (Stringify.contact_value toISOString) (c :: l)),
          rest).
Proof.
  induction l as [|c' l IH]; intros fuel c acc rest.
  - cbn [Stringify.elements length plus JSON.parse_elements].
    rewrite (parse_contact toISOString fuel).
    cbn [JSON.skip_ws]. change (JSON.is_ws "]") with false. cbv iota.
    change (Ascii.eqb "]" ",") with false.
    change (Ascii.eqb "]" "]") with true. cbv iota.
    reflexivity.
  - change (Stringify.elements toISOString (c :: c' :: l))
      with (Stringify.contact toISOString c
            ++ ","%char :: Stringify.elements toISOString (c' :: l))%list.
    rewrite <- app_assoc, <- app_comm_cons.
    cbn [length plus JSON.parse_elements].
    replace (length l + 7 + fuel) with (6 + (length l + 1 + fuel)) by lia.
    rewrite parse_contact.
    cbn [JSON.skip_ws]. change (JSON.is_ws ",") with false. cbv iota.
    change (Ascii.eqb "," ",") with true. cbv iota.
    replace (6 + (length l + 1 + fuel)) with (length l + 7 + fuel) by lia.
    rewrite IH. cbn [rev map]. now rewrite <- app_assoc.
Qed.

Lemma contact_head (toISOString : Z -> string) (c : ContactJson)
  (more : list ascii) :
  exists tail, (Stringify.contact toISOString c ++ more)%list = "{"%char :: tail.
Proof. unfold Stringify.contact. eexists. reflexivity. Qed.

Lemma parse_contacts_text :
  forall (toISOString : Z -> string) (l : list ContactJson),
    JSON.parse (Stringify.contacts toISOString l)
    = Some (JSON.Array (map (Stringify.contact_value toISOString) l)).
Proof.
  intros toISOString l.
  apply (JSON_parse_complete _ (length l + 8) _ []); [|reflexivity].
  unfold Stringify.contacts. rewrite list_ascii_of_string_of_list_ascii.
  destruct l as [|c l]; [reflexivity|].
  replace (length (c :: l) + 8) with (S (length l + 7 + 1)) by (simpl; lia).
  cbn [JSON.parse_value JSON.skip_ws].
  change (JSON.is_ws "[") with false. cbv iota.
  change (Ascii.eqb "[" "[") with true. cbv iota.
  destruct (contact_head toISOString c
              (match l with
               | [] => []
               | _ :: _ => ","%char :: Stringify.elements toISOString l
               end ++ ["]"%char])) as [tail Ht].
  assert (Hs : (Stringify.elements toISOString (c :: l) ++ ["]"%char])%list
               = "{"%char :: tail).
  { rewrite <- Ht. destruct l; cbn [Stringify.elements];
      now rewrite <- ?app_assoc. }
  rewrite Hs. cbn [JSON.skip_ws].
  change (JSON.is_ws "{") with false. cbv iota.
  change (Ascii.eqb "{" "]") with false. cbv iota.
  rewrite <- Hs.
  now rewrite (parse_contacts_elements toISOString l 1 c [] []).
Qed.

Lemma stringified_contacts_usable (toISOString : Z -> string)
  (l : list ContactJson) :
  l <> [] ->
  recipients_usable (Some (Stringify.contacts toISOString l)) (length l).
Proof.
  intros Hl. exists (map (Stringify.contact_value toISOString) l).
  cbn [JSON.ToString]. rewrite parse_contacts_text, length_map.
  repeat split.
  - destruct l; [congruence | discriminate].
  - induction l as [|c l' IH]; [congruence|].
    cbn [map existsb Stringify.contact_value is_null orb].
    destruct l' as [|c' l'']; [reflexivity|]. apply IH. discriminate.
Qed.

(** X19.  [JSON.parse] reads the text that [JSON.stringify] writes for a
    list of contacts back as an array with one object per contact, in
    order, each with the members [id], [name], [phone] and [createdAt];
    no character of a name breaks the text.  So the recipients field that
    the client sends for a list that is not empty is one that the
    bulk-send route can use, with as many recipients as contacts. *)
Theorem stringify_parse_round_trip :
  forall (toISOString : Z -> string) (l : list ContactJson),
    JSON.parse (Stringify.contacts toISOString l)
    = Some (JSON.Array (map (Stringify.contact_value toISOString) l))
    /\ (l <> [] ->
        recipients_usable (Some (Stringify.contacts toISOString l)) (length l)).
Proof.
  intros toISOString l. split.
  - apply parse_contacts_text.
  - apply stringified_contacts_usable.
Qed.


(** ** The cached connection *)

(** X12.  Once [connectToDatabase] has returned a connection, every later
    call returns that connection and leaves the cache as it is: it does
    not read [MONGO_URI] and does not call [mongoose.connect] again. *)
Theorem connection_is_reused :
  forall st uri connect c,
    fst (Connection.connectToDatabase uri connect st) = inr c ->
    let st' := snd (Connection.connectToDatabase uri connect st) in
    Connection.conn st' = Some c
    /\ forall uri' connect',
        Connection.connectToDatabase uri' connect' st' = (inr c, st').
Proof.
  intros st uri connect c.
  unfold Connection.connectToDatabase, Connection.ensure_promise, bind, get,
    put, ret, throw.
  destruct st as [cn pr log]. cbn [Connection.conn Connection.promise
                                   Connection.connects].
  destruct cn as [c0|].
  - cbn. intros [= <-]. split; reflexivity.
  - destruct pr as [[e|c0]|].
    + cbn. discriminate.
    + cbn. intros [= <-]. split; reflexivity.
    + destruct uri as [u|]; [|cbn; discriminate].
      destruct (JsString.truthy u); [|cbn; discriminate].
      cbn. destruct (connect u) as [e|c0]; cbn; [discriminate|].
      intros [= <-]. split; reflexivity.
Qed.

Lemma connection_is_reused_witness :
  Connection.connectToDatabase None (fun _ => inl (OtherError "refused"))
    (snd (Connection.connectToDatabase (Some "mongodb://db")
            (fun _ => inr 7) Connection.initial))
  = (inr 7,
     snd (Connection.connectToDatabase (Some "mongodb://db")
            (fun _ => inr 7) Connection.initial)).
Proof.
  apply (connection_is_reused Connection.initial (Some "mongodb://db")
           (fun _ => inr 7) 7 eq_refl).
Defined.

(** X13.  A call of [connectToDatabase] that fails leaves neither a
    connection nor a promise behind, so the next call starts again.  With
    nothing cached, a missing or empty [MONGO_URI] makes the call throw
    without calling [mongoose.connect], and a URI makes it call
    [mongoose.connect] once with that URI and return its outcome.  With a
    connection or a promise cached, [mongoose.connect] is not called. *)
Theorem connection_failure_and_retry :
  forall st uri connect,
    let r := Connection.connectToDatabase uri connect st in
    (forall e, fst r = inl e ->
               Connection.conn (snd r) = None
               /\ Connection.promise (snd r) = None)
    /\ (Connection.conn st = None -> Connection.promise st = None ->
        JsString.truthy_opt uri = false ->
        r = (inl (OtherError "MONGO_URI not found in environment variables. Database features will not be available."), st))
    /\ (Connection.conn st = None -> Connection.promise st = None ->
        forall u, uri = Some u -> u <> "" ->
        fst r = connect u
        /\ Connection.connects (snd r) = u :: Connection.connects st)
    /\ (Connection.conn st <> None \/ Connection.promise st <> None ->
        Connection.connects (snd r) = Connection.connects st).
Proof.
  intros st uri connect r. subst r.
  unfold Connection.connectToDatabase, Connection.ensure_promise, bind, get,
    put, ret, throw.
  destruct st as [cn pr log]. cbn [Connection.conn Connection.promise
                                   Connection.connects].
  split; [|split; [|split]].
  - intros e. destruct cn as [c0|]; [cbn; discriminate|].
    destruct pr as [[e0|c0]|]; cbn; try discriminate; [auto|].
    destruct uri as [u|]; [|cbn; auto].
    destruct (JsString.truthy u); [|cbn; auto].
    cbn. destruct (connect u); cbn; [auto | discriminate].
  - intros -> -> Hu. destruct uri as [u|]; [|reflexivity].
    simpl in Hu. rewrite Hu. reflexivity.
  - intros -> -> u -> Hu. apply truthy_nonempty in Hu. rewrite Hu.
    cbn. destruct (connect u); cbn; auto.
  - intros H. destruct cn as [c0|]; [reflexivity|].
    destruct pr as [[e0|c0]|]; try reflexivity.
    destruct H; congruence.
Qed.

(** ** What the client shows of an answer *)

Lemma join_nonempty sep x l : x <> "" -> JsString.join sep (x :: l) <> "".
Proof.
  intros Hx. destruct l; simpl; [exact Hx|].
  destruct x; [congruence | discriminate].
Qed.

Lemma validate_messages oid now b e errs :
  Contact.validate (Contact.new oid now (body_name b) (body_phone b))
  = e :: errs ->
  snd e <> "".
Proof.
  unfold Contact.validate, Contact.new, Schema.validate, Schema.set.
  cbn [Contact.d_name Contact.d_phone Contact.ContactSchema_name
       Contact.ContactSchema_phone Schema.trim Schema.required Schema.match_].
  destruct (JsString.truthy_opt (option_map JsString.trim (body_name b)));
    destruct (body_phone b) as [p|]; cbn [JsString.truthy_opt];
    try destruct (JsString.truthy p); cbn [andb negb];
    try destruct (RegExp.test E164_REGEX p); cbn [andb negb app];
    intros H; try discriminate H; injection H as <- _; discriminate.
Qed.

(** The answers of the contact routes are JSON, and an answer outside
    2xx carries a message. *)
Lemma contact_routes_answers (r : Request) (db : Contact.Db) :
  forall resp,
    resp = fst (V1.handle r db) \/ resp = fst (V2.handle r db) ->
    (ApiService.ok resp = true /\ ApiService.json resp = Some (body resp)
     /\ ApiService.message (body resp) = None)
    \/ (ApiService.ok resp = false
        /\ exists m, body resp = JsonMessage m /\ m <> "").
Proof.
  intros resp Hresp.
  assert (Hcreate : forall oid now b docs,
             resp = fst (create_result oid now b docs) ->
             (ApiService.ok resp = true /\ ApiService.json resp = Some (body resp)
              /\ ApiService.message (body resp) = None)
             \/ (ApiService.ok resp = false
                 /\ exists m, body resp = JsonMessage m /\ m <> "")).
  { intros oid now b docs ->. unfold create_result.
    destruct (Contact.validate _) as [|e errs] eqn:Hv.
    - destruct (_ || _); cbn; [right | left]; repeat split; eauto.
      eexists; split; [reflexivity | discriminate].
    - right. cbn. split; [reflexivity|]. eexists. split; [reflexivity|].
      apply (join_nonempty ", " (snd e) (map snd errs)). now apply validate_messages in Hv. }
  assert (Hdelete : forall id docs,
             resp = fst (delete_result id docs) ->
             (ApiService.ok resp = true /\ ApiService.json resp = Some (body resp)
              /\ ApiService.message (body resp) = None)
             \/ (ApiService.ok resp = false
                 /\ exists m, body resp = JsonMessage m /\ m <> "")).
  { intros id docs ->. unfold delete_result.
    destruct (ObjectId.ofString id) as [oid|]; cbn.
    - destruct (find _ docs); cbn; [left; auto | right].
      split; [reflexivity|]. eexists; split; [reflexivity | discriminate].
    - right. split; [reflexivity|].
      eexists; split; [reflexivity | discriminate]. }
  destruct db as [docs|].
  - destruct r as [|oid now b|id]; cbn [V1.handle V2.handle] in Hresp.
    + left. destruct Hresp as [-> | ->]; cbn; auto.
    + rewrite V1_post_contacts_run, V2_post_contacts_run in Hresp.
      apply (Hcreate oid now b docs). tauto.
    + rewrite V1_delete_contacts_run, V2_delete_contacts_run in Hresp.
      apply (Hdelete id docs). tauto.
  - right. destruct r as [|oid now b|id]; cbn [V1.handle V2.handle] in Hresp.
    + destruct Hresp as [-> | ->]; cbn; (split; [reflexivity|]);
        eexists; (split; [reflexivity | discriminate]).
    + destruct Hresp as [-> | ->].
      * unfold V1.post_contacts, respond, try_catch, Routes.create_contact,
          Contact.save, Contact.insertOne, bind, get.
        destruct (Contact.validate _) as [|e errs] eqn:Hv; cbn.
        -- split; [reflexivity|]. eexists; split; [reflexivity | discriminate].
        -- split; [reflexivity|]. eexists. split; [reflexivity|].
           apply (join_nonempty ", " (snd e) (map snd errs)). now apply validate_messages in Hv.
      * cbn. split; [reflexivity|].
        eexists; split; [reflexivity | discriminate].
    + destruct Hresp as [-> | ->].
      * unfold V1.delete_contacts, respond, try_catch, Routes.delete_contact,
          Contact.findByIdAndDelete, bind, get.
        destruct (ObjectId.isValid id); cbn; (split; [reflexivity|]);
          eexists; (split; [reflexivity | discriminate]).
      * cbn. split; [reflexivity|].
        eexists; split; [reflexivity | discriminate].
Qed.

(** X14.  Whatever the request and the state of the database, [handleResponse]
    on the answer of a contact route of either revision resolves with the
    body when the status is 2xx, and otherwise throws an error whose
    message is the [message] of the body, word for word. *)
Theorem contact_errors_verbatim :
  forall r db resp,
    resp = fst (V1.handle r db) \/ resp = fst (V2.handle r db) ->
    (200 <= status resp <= 299 /\ ApiService.handleResponse resp = inr (body resp))
    \/ (~ 200 <= status resp <= 299
        /\ exists m, body resp = JsonMessage m /\ m <> ""
                     /\ ApiService.handleResponse resp = inl (OtherError m)).
Proof.
  intros r db resp Hresp.
  assert (Hok : ApiService.ok resp = true <-> 200 <= status resp <= 299).
  { unfold ApiService.ok. rewrite andb_true_iff, !Nat.leb_le. tauto. }
  destruct (contact_routes_answers r db resp Hresp)
    as [(Ho & Hj & _) | (Ho & m & Hb & Hm)].
  - left. split; [now apply Hok|].
    unfold ApiService.handleResponse. now rewrite Ho, Hj.
  - right. split; [rewrite <- Hok; congruence|].
    exists m. repeat split; auto.
    unfold ApiService.handleResponse, ApiService.json. rewrite Ho, Hb. cbn.
    apply truthy_nonempty in Hm. now rewrite Hm.
Qed.

Lemma contact_errors_verbatim_witness :
  ApiService.handleResponse
    (fst (V2.handle
            (PostContacts (sample_oid x02) 2%Z
               {| body_name := Some "John";
                  body_phone := Some "+12125551234" |})
            (Some [jane])))
  = inl (OtherError "Phone number already exists.").
Proof.
  destruct (contact_errors_verbatim
              (PostContacts (sample_oid x02) 2%Z
                 {| body_name := Some "John";
                    body_phone := Some "+12125551234" |})
              (Some [jane]) _ (or_intror eq_refl))
    as [[H _] | (_ & m & Hb & _ & H)].
  - vm_compute in H. lia.
  - rewrite H. vm_compute in Hb. now injection Hb as <-.
Defined.

(** ** The form and the schema *)

Lemma check_passes_iff_valid :
  forall name phone,
    ContactManager.check name phone = None
    <-> valid_contact_body {| body_name := Some name; body_phone := Some phone |}.
Proof.
  intros name phone. unfold ContactManager.check, valid_contact_body.
  cbn [body_name body_phone]. split.
  - destruct (JsString.truthy (JsString.trim name)) eqn:En; [|discriminate].
    destruct (JsString.truthy (JsString.trim phone)) eqn:Ep; [|discriminate].
    destruct (RegExp.test E164_REGEX phone) eqn:Et; [|discriminate].
    intros _. split.
    + exists name. split; [reflexivity | now apply truthy_nonempty].
    + exists phone. split; [reflexivity | now apply E164_REGEX_spec].
  - intros [(n & [= <-] & Hn) (p & [= <-] & Hp)].
    apply truthy_nonempty in Hn. rewrite Hn.
    pose proof (e164_shape_trim phone Hp) as Ht. rewrite Ht.
    assert (Hne : JsString.truthy phone = true).
    { destruct Hp as (d & ds & -> & _). reflexivity. }
    rewrite Hne. apply E164_REGEX_spec in Hp. now rewrite Hp.
Qed.

(** X15.  The form of the contact manager lets through exactly the names
    and phones that the schema of the backend accepts: a form passes the
    two tests of [handleSubmit] exactly when the document that
    [POST /api/contacts] makes of it passes every validator. *)
Theorem form_check_agrees_with_schema :
  forall oid now name phone,
    ContactManager.check name phone = None
    <-> Contact.validate (Contact.new oid now (Some name) (Some phone)) = [].
Proof.
  intros oid now name phone. rewrite check_passes_iff_valid.
  symmetry.
  apply (validate_nil_iff oid now
           {| body_name := Some name; body_phone := Some phone |}).
Qed.

(** ** The page and the backend *)

Lemma Permutation_filter_map {A} (p : A -> bool) (l1 l2 : list A) :
  Permutation l1 l2 -> Permutation (filter p l1) (filter p l2).
Proof.
  induction 1 as [|x l1 l2 H IH|x y l|l1 l2 l3 H1 IH1 H2 IH2]; simpl.
  - constructor.
  - destruct (p x); [now constructor | exact IH].
  - destruct (p x), (p y); try reflexivity. apply perm_swap.
  - now transitivity (filter p l2).
Qed.

Lemma remove_id_filter oid docs :
  NoDup (map Contact._id docs) ->
  Contact.remove_id oid docs
  = filter (fun d => negb (Contact.has_id oid d)) docs.
Proof.
  induction docs as [|x docs IH]; simpl; [reflexivity|].
  intros H. inversion H as [|? ? Hx Hnd]; subst.
  destruct (Contact.has_id oid x) eqn:E; simpl.
  - unfold Contact.has_id in E. apply ObjectId_eqb_eq in E. subst oid.
    symmetry. apply forallb_filter_id. apply forallb_forall.
    intros d Hd. apply negb_true_iff. unfold Contact.has_id.
    apply ObjectId_eqb_neq. intros Heq. apply Hx. rewrite <- Heq.
    now apply in_map.
  - f_equal. now apply IH.
Qed.

Lemma filter_map_transformContact id_ docs :
  filter (fun c => negb (String.eqb (id c) id_)) (map transformContact docs)
  = map transformContact
      (filter (fun d => negb (String.eqb (ObjectId.toString (Contact._id d)) id_))
         docs).
Proof.
  induction docs as [|x docs IH]; simpl; [reflexivity|].
  destruct (String.eqb (ObjectId.toString (Contact._id x)) id_); simpl;
    now rewrite IH.
Qed.

(** ** The path of a delete request *)

Lemma alphanumeric_facts c :
  alphanumeric c = true ->
  Url.c0_or_space c = false
  /\ Url.tab_or_newline c = false
  /\ Url.percent_encode c = [c]
  /\ Ascii.eqb c "?" || Ascii.eqb c "#" = false
  /\ Ascii.eqb c "/" || Ascii.eqb c JSON.backslash = false
  /\ Ascii.eqb c "/" = false
  /\ Ascii.eqb c "%" = false
  /\ Ascii.eqb (Url.lower c) "." = false
  /\ Ascii.eqb (Url.lower c) "%" = false.
Proof.
  destruct c as [[] [] [] [] [] [] [] []]; vm_compute; intros H;
    try discriminate H; repeat split.
Qed.

Lemma strip_trailing_fixed s :
  forallb (fun c => negb (Url.c0_or_space c)) s = true ->
  Url.strip_trailing s = s.
Proof.
  induction s as [|c s IH]; [reflexivity|].
  cbn [forallb Url.strip_trailing]. intros H.
  apply andb_true_iff in H as [Hc Hs]. rewrite (IH Hs).
  destruct s; [|reflexivity].
  apply negb_true_iff in Hc. now rewrite Hc.
Qed.

Lemma forallb_alphanumeric (p : ascii -> bool) s :
  (forall c, alphanumeric c = true -> p c = true) ->
  forallb alphanumeric s = true -> forallb p s = true.
Proof.
  intros Hp H. rewrite forallb_forall in *. auto.
Qed.

Lemma path_state_alphanumeric s :
  forallb alphanumeric s = true ->
  forall rest buffer path,
    Url.path_state (s ++ rest) buffer path
    = Url.path_state rest (buffer ++ s) path.
Proof.
  induction s as [|c s IH]; intros H rest buffer path.
  - now rewrite app_nil_r.
  - cbn [forallb] in H. apply andb_true_iff in H as [Hc Hs].
    destruct (alphanumeric_facts c Hc) as (_ & _ & He & Hq & Hsl & _).
    cbn [app Url.path_state]. rewrite Hq, Hsl, He, (IH Hs).
    now rewrite <- app_assoc.
Qed.

Lemma end_segment_alphanumeric path c s :
  alphanumeric c = true ->
  Url.end_segment path (c :: s) false = (path ++ [c :: s])%list.
Proof.
  intros Hc.
  destruct (alphanumeric_facts c Hc) as (_ & _ & _ & _ & _ & _ & _ & Hd & Hp).
  unfold Url.end_segment, Url.double_dot, Url.single_dot,
    Url.same_ignoring_case.
  cbn [map list_ascii_of_string string_of_list_ascii String.eqb].
  change (Url.lower ".") with "."%char. change (Url.lower "%") with "%"%char.
  now rewrite Hd, Hp.
Qed.

Lemma span_segment_alphanumeric s :
  forallb alphanumeric s = true -> Express.span_segment s = (s, []).
Proof.
  induction s as [|c s IH]; [reflexivity|].
  cbn [forallb Express.span_segment]. intros H.
  apply andb_true_iff in H as [Hc Hs].
  destruct (alphanumeric_facts c Hc) as (_ & _ & _ & _ & _ & Hsl & _).
  now rewrite Hsl, (IH Hs).
Qed.

Lemma decodeURIComponent_alphanumeric s :
  forallb alphanumeric s = true -> Express.decodeURIComponent s = Some s.
Proof.
  unfold Express.decodeURIComponent.
  induction s as [|c s IH]; [reflexivity|].
  cbn [forallb Express.tokens]. intros H.
  apply andb_true_iff in H as [Hc Hs].
  destruct (alphanumeric_facts c Hc) as (_ & _ & _ & _ & _ & _ & Hp & _).
  rewrite Hp. specialize (IH Hs).
  destruct (Express.tokens s) as [ts|]; [|discriminate].
  cbn [Express.decoded]. now rewrite IH.
Qed.

Lemma list_ascii_of_string_app (a b : string) :
  list_ascii_of_string (a ++ b)
  = (list_ascii_of_string a ++ list_ascii_of_string b)%list.
Proof. induction a as [|c a IH]; simpl; [reflexivity | now rewrite IH]. Qed.

(** An id of letters and digits reaches the handler as it is. *)
Lemma delete_target_alphanumeric (id_ : string) :
  id_ <> "" ->
  forallb alphanumeric (list_ascii_of_string id_) = true ->
  ApiService.delete_target id_
  = Express.Routed id_.
Proof.
  intros Hne Hw.
  unfold ApiService.delete_target.
  rewrite <- (string_of_list_ascii_of_string id_) at 2.
  unfold Url.path. rewrite list_ascii_of_string_app.
  destruct (list_ascii_of_string id_) as [|c s] eqn:E.
  { destruct id_; [congruence | discriminate]. }
  set (prefix := list_ascii_of_string "api/contacts/").
  assert (Hclean : Url.remove_tab_newline
                     (Url.strip_trailing (prefix ++ c :: s))
                   = (prefix ++ c :: s)%list).
  { rewrite strip_trailing_fixed.
    - unfold Url.remove_tab_newline. apply forallb_filter_id.
      rewrite forallb_app. apply andb_true_iff. split; [reflexivity|].
      apply (forallb_alphanumeric _ (c :: s)); [|exact Hw].
      intros x Hx. now destruct (alphanumeric_facts x Hx) as (_ & -> & _).
    - rewrite forallb_app. apply andb_true_iff. split; [reflexivity|].
      apply (forallb_alphanumeric _ (c :: s)); [|exact Hw].
      intros x Hx. now destruct (alphanumeric_facts x Hx) as (-> & _). }
  rewrite Hclean.
  assert (Hprefix : forall ids,
             Url.path_state (prefix ++ ids) [] []
             = Url.path_state ids []
                 [list_ascii_of_string "api"; list_ascii_of_string "contacts"])
    by reflexivity.
  rewrite Hprefix, <- (app_nil_r (c :: s)) at 1.
  rewrite (path_state_alphanumeric (c :: s) Hw).
  cbn [Url.path_state app].
  rewrite (end_segment_alphanumeric _ c s);
    [|cbn [forallb] in Hw; now apply andb_true_iff in Hw].
  assert (Hmatch : forall ids,
             Express.match_contact_id
               (Url.serialize
                  ([list_ascii_of_string "api"; list_ascii_of_string "contacts"]
                   ++ [ids]))
             = match Express.span_segment (ids ++ []) with
               | (c :: segment, []) => Some (c :: segment)
               | (c :: segment, [s]) =>
                   if Ascii.eqb s "/" then Some (c :: segment) else None
               | _ => None
               end)
    by reflexivity.
  unfold Express.delete_target. rewrite Hmatch, app_nil_r.
  rewrite (span_segment_alphanumeric (c :: s) Hw).
  now rewrite (decodeURIComponent_alphanumeric (c :: s) Hw).
Qed.

Lemma hex_digit_alphanumeric n :
  n < 16 -> alphanumeric (ObjectId.hex_digit n) = true.
Proof.
  intros H. do 16 (destruct n as [|n]; [reflexivity|]). lia.
Qed.

Lemma encode_alphanumeric l :
  forallb alphanumeric (ObjectId.encode l) = true.
Proof.
  induction l as [|b l IH]; [reflexivity|].
  cbn [ObjectId.encode forallb].
  pose proof (Byte.to_nat_bounded b) as Hb.
  rewrite !hex_digit_alphanumeric, IH; [reflexivity | |].
  - apply Nat.mod_upper_bound. lia.
  - apply Nat.Div0.div_lt_upper_bound. lia.
Qed.

(** The id of a stored contact reaches the handler as it is. *)
Lemma delete_target_toString oid :
  ApiService.delete_target (ObjectId.toString oid)
  = Express.Routed (ObjectId.toString oid).
Proof.
  apply delete_target_alphanumeric.
  - destruct oid as [[[[[[[[[[[b0 b1] b2] b3] b4] b5] b6] b7] b8] b9] b10] b11].
    discriminate.
  - unfold ObjectId.toString. rewrite list_ascii_of_string_of_list_ascii.
    apply encode_alphanumeric.
Qed.

Section Sync.

Variable server : Request -> Contact.Db -> Response * Contact.Db.
Hypothesis server_is_a_revision : server = V1.handle \/ server = V2.handle.

Lemma server_post oid now name phone docs :
  server (PostContacts oid now
            {| body_name := Some name; body_phone := Some phone |}) (Some docs)
  = create_result oid now
      {| body_name := Some name; body_phone := Some phone |} docs.
Proof.
  destruct server_is_a_revision as [-> | ->]; cbn [V1.handle V2.handle].
  - apply V1_post_contacts_run.
  - apply V2_post_contacts_run.
Qed.

Lemma server_delete id_ docs :
  server (DeleteContacts id_) (Some docs) = delete_result id_ docs.
Proof.
  destruct server_is_a_revision as [-> | ->]; cbn [V1.handle V2.handle].
  - apply V1_delete_contacts_run.
  - apply V2_delete_contacts_run.
Qed.

Lemma server_get docs :
  server GetContacts (Some docs)
  = ({| status := 200;
        body := JsonContacts
                  (map transformContact (Contact.sort_by_name docs)) |},
     Some docs).
Proof.
  destruct server_is_a_revision as [-> | ->]; reflexivity.
Qed.

Lemma fetchContacts_in_sync w docs :
  Dashboard.db w = Some docs ->
  Dashboard.in_sync (snd (Dashboard.fetchContacts server w)).
Proof.
  intros Hdb.
  unfold Dashboard.fetchContacts, Dashboard.lift, ApiService.getContacts,
    ApiService.call, try_catch, bind.
  rewrite Hdb, server_get. cbn.
  exists docs. split; [reflexivity|].
  apply Permutation_map. symmetry. apply sort_by_name_perm.
Qed.

Lemma addContact_in_sync w oid now name phone :
  Dashboard.in_sync w ->
  Dashboard.in_sync (snd (Dashboard.addContact server oid now name phone w)).
Proof.
  intros (docs & Hdb & Hperm).
  unfold Dashboard.addContact, Dashboard.lift, ApiService.addContact,
    ApiService.call, bind.
  rewrite Hdb, server_post. unfold create_result.
  destruct (Contact.validate _) as [|e errs].
  - destruct (_ || _); cbn.
    + exists docs. split; [reflexivity | exact Hperm].
    + eexists. split; [reflexivity|].
      rewrite map_app. now apply Permutation_app.
  - cbn. exists docs. split; [reflexivity | exact Hperm].
Qed.

Lemma deleteContact_in_sync refuses w id_ :
  (forall docs, Dashboard.db w = Some docs -> NoDup (map Contact._id docs)) ->
  Dashboard.in_sync w ->
  In id_ (map id (Dashboard.contacts (Dashboard.page w))) ->
  Dashboard.in_sync (snd (Dashboard.deleteContact server refuses id_ w)).
Proof.
  intros Hnd (docs & Hdb & Hperm) Hin.
  specialize (Hnd docs Hdb).
  assert (Hc : exists c, In c docs /\ id_ = ObjectId.toString (Contact._id c)).
  { apply in_map_iff in Hin as (j & <- & Hj).
    apply (Permutation_in _ Hperm) in Hj.
    apply in_map_iff in Hj as (c & <- & Hc). now exists c. }
  destruct Hc as (c & Hc & ->).
  unfold Dashboard.deleteContact, Dashboard.lift, ApiService.deleteContact,
    Dashboard.setContacts, try_catch, bind, get.
  rewrite delete_target_toString. unfold ApiService.call.
  cbn [Dashboard.db Dashboard.page]. rewrite Hdb, server_delete.
  unfold delete_result. rewrite ofString_toString.
  destruct (find_has_id_present c docs Hc) as [c' ->]. cbn.
  eexists. split; [reflexivity|].
  rewrite (remove_id_filter _ docs Hnd).
  etransitivity; [apply Permutation_filter_map, Hperm|].
  rewrite filter_map_transformContact. reflexivity.
Qed.

End Sync.

(** X16.  As long as the page deletes only contacts that it lists, its
    list stays a rearrangement of what the backend stores: loading the
    page puts the two in agreement, and [addContact] and [deleteContact]
    keep them so, whether the backend accepts the request or refuses
    it.  The id of a listed contact reaches the handler of the delete
    route as it is, so the answers to requests that reach no handler
    play no part. *)
Theorem page_stays_in_sync :
  forall server w,
    server = V1.handle \/ server = V2.handle ->
    reachable (Dashboard.db w) ->
    Dashboard.in_sync (snd (Dashboard.fetchContacts server w))
    /\ (Dashboard.in_sync w ->
        (forall oid now name phone,
            Dashboard.in_sync
              (snd (Dashboard.addContact server oid now name phone w)))
        /\ (forall refuses id_,
            In id_ (map id (Dashboard.contacts (Dashboard.page w))) ->
            Dashboard.in_sync
              (snd (Dashboard.deleteContact server refuses id_ w)))).
Proof.
  intros server w Hs Hr.
  destruct (reachable_well_formed _ Hr) as (docs & Hdb & Hid & _).
  split; [now apply (fetchContacts_in_sync server Hs w docs)|].
  intros Hsync. split.
  - intros. now apply addContact_in_sync.
  - intros refuses id_ Hin. apply deleteContact_in_sync; auto.
    intros docs' Hdb'. congruence.
Qed.

Lemma page_stays_in_sync_witness :
  Dashboard.in_sync (snd (Dashboard.fetchContacts V2.handle sample_world)).
Proof.
  apply (page_stays_in_sync V2.handle sample_world (or_intror eq_refl)).
  exact reachable_jane.
Defined.

Lemma world_eta (w : Dashboard.World) :
  {| Dashboard.page :=
       {| Dashboard.contacts := Dashboard.contacts (Dashboard.page w);
          Dashboard.isLoading := Dashboard.isLoading (Dashboard.page w);
          Dashboard.error := Dashboard.error (Dashboard.page w) |};
     Dashboard.db := Dashboard.db w |} = w.
Proof. destruct w as [[l b e] d]. reflexivity. Qed.

(** The path of a delete request on sample ids.  What follows a question
    mark or a number sign, a slash at the end and white space at the end
    are lost on the way, dot segments are resolved and escapes decoded, so
    that other strings than the id of a contact reach the handler with
    that id; an empty id or one with a slash inside reaches no route, and
    an escape that is not UTF-8 cannot be decoded. *)
Example delete_target_samples :
  let hex := "654f1a2b3c4d5e6f70819201" in
  map ApiService.delete_target
    [hex; hex ++ "?"; hex ++ "#top"; hex ++ "/"; hex ++ " ";
     "./" ++ hex; "../CONTACTS/" ++ hex; "%36" ++ "54f1a2b3c4d5e6f70819201";
     "not-an-id"; "a b"; "%41";
     ""; "."; ".."; hex ++ "/x"; hex ++ "//"; "a\b";
     "%"; "%zz"; "%ff"; "%c0%80"]
  = [Express.Routed hex; Express.Routed hex; Express.Routed hex;
     Express.Routed hex; Express.Routed hex;
     Express.Routed hex; Express.Routed hex; Express.Routed hex;
     Express.Routed "not-an-id"; Express.Routed "a b"; Express.Routed "A";
     Express.Refused Express.NoRoute; Express.Refused Express.NoRoute;
     Express.Refused Express.NoRoute; Express.Refused Express.NoRoute;
     Express.Refused Express.NoRoute; Express.Refused Express.NoRoute;
     Express.Refused Express.BadParam; Express.Refused Express.BadParam;
     Express.Refused Express.BadParam; Express.Refused Express.BadParam].
Proof. vm_compute. reflexivity. Qed.

(** A string that the page does not list can name a stored contact at
    the backend: the contact is deleted while the page keeps it. *)
Example delete_with_query_reaches_contact :
  let listed := {| Dashboard.contacts := [transformContact jane];
                   Dashboard.isLoading := false;
                   Dashboard.error := None |} in
  ObjectId.toString (Contact._id jane) = "654f1a2b3c4d5e6f70819201"
  /\ Dashboard.deleteContact V2.handle V2_refuses "654f1a2b3c4d5e6f70819201?"
       {| Dashboard.page := listed; Dashboard.db := Some [jane] |}
     = (inr tt, {| Dashboard.page := listed; Dashboard.db := Some [] |}).
Proof. split; vm_compute; reflexivity. Qed.

(** X17.  The optimistic delete of the page is undone when the backend
    refuses.  The id travels in the path of the request: if that path
    reaches no handler, or the parameter that the handler of the delete
    route receives does not denote a stored contact (it is malformed or
    unknown, or no database can be reached), the page and the backend are
    after [deleteContact] exactly as they were before. *)
Theorem refused_delete_is_rolled_back :
  forall server refuses w id_,
    (server = V1.handle /\ refuses = V1_refuses)
    \/ (server = V2.handle /\ refuses = V2_refuses) ->
    (forall docs p,
        Dashboard.db w = Some docs ->
        ApiService.delete_target id_ = Express.Routed p ->
        ~ exists c, In c docs /\ denotes p c) ->
    Dashboard.deleteContact server refuses id_ w = (inr tt, w).
Proof.
  intros server refuses w id_ Hs Hno.
  assert (Hthrown : exists e db',
             ApiService.deleteContact server refuses id_ (Dashboard.db w)
             = (inl e, db') /\ db' = Dashboard.db w).
  { unfold ApiService.deleteContact.
    destruct (ApiService.delete_target id_) as [p|why] eqn:Et.
    - assert (Hresp : exists resp,
                 server (DeleteContacts p) (Dashboard.db w)
                 = (resp, Dashboard.db w)
                 /\ exists e, ApiService.handleResponse resp = inl e).
      { destruct (Dashboard.db w) as [docs|] eqn:Hdb.
        - assert (Hrev : server = V1.handle \/ server = V2.handle)
            by (destruct Hs as [[-> _] | [-> _]]; auto).
          rewrite (server_delete server Hrev).
          specialize (Hno docs p eq_refl eq_refl).
          unfold delete_result, denotes in *.
          destruct (ObjectId.ofString p) as [oid|].
          + destruct (find (Contact.has_id oid) docs) as [c|] eqn:F.
            * exfalso. apply Hno. exists c. apply find_some in F as [Hin Hc].
              unfold Contact.has_id in Hc. apply ObjectId_eqb_eq in Hc.
              split; [exact Hin | congruence].
            * eexists. split; [reflexivity|]. eexists. reflexivity.
          + eexists. split; [reflexivity|]. eexists. reflexivity.
        - destruct Hs as [[-> _] | [-> _]]; cbn [V1.handle V2.handle].
          + unfold V1.delete_contacts, respond, try_catch,
              Routes.delete_contact, Contact.findByIdAndDelete, bind, get.
            destruct (ObjectId.isValid p); cbn;
              (eexists; split; [reflexivity|]; eexists; reflexivity).
          + eexists. split; [reflexivity|]. eexists. reflexivity. }
      destruct Hresp as (resp & Hserver & e & He).
      exists e, (Dashboard.db w). unfold ApiService.call.
      rewrite Hserver, He. split; reflexivity.
    - destruct Hs as [[_ ->] | [_ ->]]; destruct why;
        (eexists; eexists; split; reflexivity). }
  destruct Hthrown as (e & db' & Hcall & ->).
  unfold Dashboard.deleteContact, Dashboard.lift, Dashboard.setContacts,
    try_catch, bind, get.
  cbn [Dashboard.db Dashboard.page Dashboard.contacts Dashboard.isLoading
       Dashboard.error].
  rewrite Hcall. cbn. now rewrite world_eta.
Qed.

Lemma refused_delete_is_rolled_back_witness :
  Dashboard.deleteContact V2.handle V2_refuses "not-an-id"
    {| Dashboard.page := {| Dashboard.contacts := [transformContact jane];
                            Dashboard.isLoading := false;
                            Dashboard.error := None |};
       Dashboard.db := Some [jane] |}
  = (inr tt,
     {| Dashboard.page := {| Dashboard.contacts := [transformContact jane];
                             Dashboard.isLoading := false;
                             Dashboard.error := None |};
        Dashboard.db := Some [jane] |}).
Proof.
  apply refused_delete_is_rolled_back; [now right|].
  intros docs p _ Hp (c & _ & H).
  vm_compute in Hp. injection Hp as <-. vm_compute in H. discriminate.
Defined.

(** X18.  A form that passed the tests of [handleSubmit] has two
    outcomes on a connected database: when the phone and the drawn [_id]
    are free, the contact is stored, appended to the list of the page and
    the form is cleared; otherwise the page and the backend stay as they
    were and the form shows 'Phone number already exists.'.  No other
    error can reach a checked form. *)
Theorem checked_form_outcomes :
  forall server w docs f oid now,
    server = V1.handle \/ server = V2.handle ->
    Dashboard.db w = Some docs ->
    ContactManager.check (ContactManager.name f) (ContactManager.phone f) = None ->
    let b := {| body_name := Some (ContactManager.name f);
                body_phone := Some (ContactManager.phone f) |} in
    let c := Contact.document
               (Contact.new oid now (body_name b) (body_phone b)) in
    let r := ContactManager.handleSubmit (Dashboard.addContact server oid now)
               f w in
    (keys_free oid b docs ->
     fst r = inr {| ContactManager.name := ""; ContactManager.phone := "";
                    ContactManager.formError := "";
                    ContactManager.isAdding := false |}
     /\ Dashboard.db (snd r) = Some (docs ++ [c])%list
     /\ Dashboard.contacts (Dashboard.page (snd r))
        = (Dashboard.contacts (Dashboard.page w) ++ [transformContact c])%list)
    /\ (~ keys_free oid b docs ->
        r = (inr {| ContactManager.name := ContactManager.name f;
                    ContactManager.phone := ContactManager.phone f;
                    ContactManager.formError := "Phone number already exists.";
                    ContactManager.isAdding := false |}, w)).
Proof.
  intros server w docs f oid now Hs Hdb Hcheck b c r. subst r.
  apply check_passes_iff_valid in Hcheck as Hvalid. fold b in Hvalid.
  pose proof (proj2 (validate_nil_iff oid now b) Hvalid) as Hv.
  pose proof (duplicate_false_iff oid now b docs Hvalid) as Hd.
  unfold ContactManager.handleSubmit. rewrite Hcheck.
  unfold Dashboard.addContact, Dashboard.lift, ApiService.addContact,
    ApiService.call, Dashboard.setContacts, try_catch, bind.
  rewrite Hdb, (server_post server Hs). fold b.
  unfold create_result. rewrite Hv. fold c.
  destruct (_ || _) eqn:Edup.
  - split.
    + intros Hfree. apply Hd in Hfree. discriminate.
    + intros _. cbn. destruct w as [p d]. cbn in Hdb. subst d. reflexivity.
  - split.
    + intros _. cbn. repeat split.
    + intros Hn. exfalso. apply Hn. now apply Hd.
Qed.

Lemma checked_form_outcomes_witness :
  ContactManager.handleSubmit
    (Dashboard.addContact V2.handle (sample_oid x02) 2%Z)
    {| ContactManager.name := "John"; ContactManager.phone := "+12125551234";
       ContactManager.formError := ""; ContactManager.isAdding := false |}
    sample_world
  = (inr {| ContactManager.name := "John";
            ContactManager.phone := "+12125551234";
            ContactManager.formError := "Phone number already exists.";
            ContactManager.isAdding := false |}, sample_world).
Proof.
  apply (checked_form_outcomes V2.handle sample_world [jane]
           {| ContactManager.name := "John";
              ContactManager.phone := "+12125551234";
              ContactManager.formError := "";
              ContactManager.isAdding := false |}
           (sample_oid x02) 2%Z (or_intror eq_refl) eq_refl eq_refl).
  intros [_ H]. apply (H "+12125551234" eq_refl). simpl. auto.
Defined.


(** ** The list of the first revision of the page *)

Lemma digits_value fuel :
  forall n acc,
    n < fuel ->
    decimal_value 0 (JsString.digits fuel n acc) = decimal_value n acc.
Proof.
  induction fuel as [|fuel IH]; intros n acc Hn; [lia|].
  cbn [JsString.digits].
  assert (Hd : nat_of_ascii (ascii_of_nat (48 + n mod 10)) - 48 = n mod 10).
  { rewrite nat_ascii_embedding.
    - lia.
    - pose proof (Nat.mod_upper_bound n 10). lia. }
  pose proof (Nat.div_mod_eq n 10) as Hdm.
  destruct (n / 10 =? 0) eqn:E.
  - apply Nat.eqb_eq in E. cbn [decimal_value]. rewrite Hd.
    f_equal. lia.
  - apply Nat.eqb_neq in E. rewrite IH.
    + cbn [decimal_value]. rewrite Hd. f_equal. lia.
    + pose proof (Nat.mod_upper_bound n 10). lia.
Qed.

Lemma of_nat_value n : decimal_value 0 (JsString.of_nat n) = n.
Proof. unfold JsString.of_nat. now rewrite digits_value by lia. Qed.

Lemma of_nat_inj n m : JsString.of_nat n = JsString.of_nat m -> n = m.
Proof.
  intros H. rewrite <- (of_nat_value n), <- (of_nat_value m). now rewrite H.
Qed.

Lemma local_delete_app id_ l1 l2 :
  LocalDashboard.deleteContact id_ (l1 ++ l2)
  = (LocalDashboard.deleteContact id_ l1
     ++ LocalDashboard.deleteContact id_ l2)%list.
Proof. apply filter_app. Qed.

(** X20.  In the list of the first revision the id of a contact is the
    millisecond of its creation, so ids are not keys: deleting a contact
    removes every contact created in the same millisecond, and leaves in
    place, in order, those created in any other. *)
Theorem local_ids_are_timestamps :
  forall now1 now2 n1 p1 n2 p2 l,
    let l2 := LocalDashboard.addContact now2 n2 p2
                (LocalDashboard.addContact now1 n1 p1 l) in
    (now1 = now2 ->
     LocalDashboard.deleteContact (JsString.of_nat now1) l2
     = LocalDashboard.deleteContact (JsString.of_nat now1) l)
    /\ (now1 <> now2 ->
        LocalDashboard.deleteContact (JsString.of_nat now1) l2
        = LocalDashboard.addContact now2 n2 p2
            (LocalDashboard.deleteContact (JsString.of_nat now1) l)).
Proof.
  intros now1 now2 n1 p1 n2 p2 l l2. subst l2.
  unfold LocalDashboard.addContact.
  rewrite !local_delete_app.
  assert (Hone : forall i c,
             LocalDashboard.deleteContact i [c]
             = if String.eqb (LocalDashboard.id c) i then [] else [c]).
  { intros i c. unfold LocalDashboard.deleteContact. cbn [filter].
    now destruct (String.eqb _ _). }
  rewrite !Hone. cbn [LocalDashboard.id]. rewrite String.eqb_refl.
  rewrite app_nil_r. split.
  - intros ->. rewrite String.eqb_refl. now rewrite app_nil_r.
  - intros Hne.
    destruct (String.eqb (JsString.of_nat now2) (JsString.of_nat now1)) eqn:E.
    + apply String.eqb_eq in E. apply of_nat_inj in E. congruence.
    + reflexivity.
Qed.

(** X21.  Every contact of a list that the first revision builds by
    submitted forms and deletions has a name that is not blank and a phone
    of the E.164 shape: the form is the only way into the list, and
    [handleSubmit] adds nothing that fails its two tests. *)
Theorem local_list_invariant :
  forall l,
    local_reachable l ->
    Forall (fun c => JsString.trim (LocalDashboard.name c) <> ""
                     /\ e164_shape (LocalDashboard.phone c)) l.
Proof.
  intros l H. induction H as [|now f l H IH|id_ l H IH].
  - constructor.
  - unfold LocalContactManager.handleSubmit.
    destruct (ContactManager.check _ _) eqn:E; [exact IH|].
    cbn [snd]. unfold LocalDashboard.addContact.
    apply Forall_app. split; [exact IH|]. constructor; [|constructor].
    cbn [LocalDashboard.name LocalDashboard.phone].
    apply check_passes_iff_valid in E as [(n & Hn & Hn') (p & Hp & Hp')].
    cbn in Hn, Hp. injection Hn as <-. injection Hp as <-. now split.
  - unfold LocalDashboard.deleteContact.
    rewrite Forall_forall in *. intros c Hc.
    apply filter_In in Hc as [Hc _]. now apply IH.
Qed.

Lemma local_list_invariant_witness :
  Forall (fun c => JsString.trim (LocalDashboard.name c) <> ""
                   /\ e164_shape (LocalDashboard.phone c))
    (snd (LocalContactManager.handleSubmit (LocalDashboard.addContact 7)
            {| LocalContactManager.name := "Jane";
               LocalContactManager.phone := "+12125551234";
               LocalContactManager.error := "" |} [])).
Proof.
  apply local_list_invariant. apply local_submit. apply local_empty.
Defined.

(** ** The message composer *)

Lemma trim_nonblank (c : string) :
  JsString.trim c <> "" -> V2.hasTextContent (Some c) = true.
Proof.
  intros H. unfold V2.hasTextContent.
  destruct c as [|a c]; [now rewrite trim_empty in H|].
  cbn [JsString.truthy andb].
  destruct (JsString.trim (String a c)); [congruence | reflexivity].
Qed.

Lemma handleResponse_sent n :
  ApiService.handleResponse (sent_message n)
  = inr (JsonMessage ("Message successfully sent to " ++ JsString.of_nat n
                      ++ " contacts.")).
Proof. reflexivity. Qed.

(** X22.  [handleSend] sends nothing when the list of contacts is empty
    or when the content is blank and no file is chosen.  Otherwise it
    sends one request, which the second revision of the backend always
    accepts, reporting as many recipients as the page lists; the first
    revision accepts it unless the content is empty, and then the composer
    shows its 'Message content cannot be empty.'. *)
Theorem composer_send_outcomes :
  forall toISOString contacts heading_ content_ mediaFile_,
    let sent :=
      (MessageComposer.success
         (Some ("Message successfully sent to "
                ++ JsString.of_nat (length contacts) ++ " contacts.")),
       true) in
    (contacts = [] \/ (JsString.trim content_ = "" /\ mediaFile_ = None) ->
     forall send,
       snd (MessageComposer.handleSend send toISOString contacts heading_
              content_ mediaFile_) = false)
    /\ (contacts <> [] ->
        JsString.trim content_ <> "" \/ mediaFile_ <> None ->
        MessageComposer.handleSend V2.post_send_bulk toISOString contacts
          heading_ content_ mediaFile_ = sent
        /\ MessageComposer.handleSend V1.post_send_bulk toISOString contacts
             heading_ content_ mediaFile_
           = if JsString.truthy content_ then sent
             else (MessageComposer.error "Message content cannot be empty.",
                   true)).
Proof.
  intros toISOString contacts heading_ content_ mediaFile_ sent. subst sent.
  unfold MessageComposer.handleSend. split.
  - intros [-> | [Hc ->]] send; [reflexivity|].
    destruct (length contacts =? 0); [reflexivity|].
    rewrite Hc. reflexivity.
  - intros Hl Hm.
    assert (El : (length contacts =? 0) = false).
    { apply Nat.eqb_neq. destruct contacts; [congruence | discriminate]. }
    assert (Ec : negb (JsString.truthy (JsString.trim content_))
                 && negb (V2.isSome mediaFile_) = false).
    { destruct Hm as [Hm | Hm].
      - apply truthy_nonempty in Hm. now rewrite Hm.
      - destruct mediaFile_; [apply andb_false_r | congruence]. }
    rewrite El, Ec.
    pose proof (stringified_contacts_usable toISOString contacts Hl) as Hu.
    unfold ApiService.sendBulkMessage.
    rewrite V2_post_send_bulk_run, V1_post_send_bulk_run.
    cbn [content mediaFile contactsJSON JsString.truthy_opt].
    rewrite !(recipients_response_usable _ _ _ Hu).
    assert (Eb : blank (Some content_) && negb (V2.isSome mediaFile_) = false).
    { destruct Hm as [Hm | Hm].
      - rewrite blank_hasTextContent. now rewrite (trim_nonblank _ Hm).
      - destruct mediaFile_; [apply andb_false_r | congruence]. }
    rewrite Eb, handleResponse_sent. split; [reflexivity|].
    destruct (JsString.truthy content_); cbn [negb];
      [now rewrite handleResponse_sent | reflexivity].
Qed.

Lemma gateway_run_bind {A B} (svc : Gateway.service) (g : Gateway.t A)
  (f : A -> Gateway.t B) :
  Gateway.run svc (gateway_bind g f)
  = (fst (Gateway.run svc (f (fst (Gateway.run svc g)))),
     (snd (Gateway.run svc g)
      ++ snd (Gateway.run svc (f (fst (Gateway.run svc g)))))%list).
Proof.
  induction g as [a|apiKey model prompt k IH].
  - cbn [gateway_bind Gateway.run fst snd app].
    now destruct (Gateway.run svc (f a)).
  - cbn [gateway_bind Gateway.run]. rewrite IH.
    destruct (Gateway.run svc (k (svc model prompt))) as [a calls].
    cbn [fst snd]. reflexivity.
Qed.

(** X23.  [handleGenerateContent] never calls the service for an empty
    heading or without a key in the environment, and shows 'Please enter a
    heading to generate content.' or 'API key is not configured.'.  With a
    key and a heading it calls the service exactly once, then sets the
    content to the text of the response, or shows the one error of the
    service module whatever the call threw. *)
Theorem composer_generate_outcomes :
  forall env svc heading_,
    let r := Gateway.run svc (MessageComposer.handleGenerateContent env heading_) in
    (heading_ = "" ->
     r = (MessageComposer.aiError "Please enter a heading to generate content.",
          []))
    /\ (heading_ <> "" -> JsString.truthy_opt (API_KEY env) = false ->
        r = (MessageComposer.aiError "API key is not configured.", []))
    /\ (heading_ <> "" -> JsString.truthy_opt (API_KEY env) = true ->
        r = (match svc "gemini-2.5-flash" (Gateway.prompt heading_) with
             | inr text => MessageComposer.content_set text
             | inl _ =>
                 MessageComposer.aiError
                   "Failed to generate AI content. Please check the API key and try again."
             end,
             [("gemini-2.5-flash", Gateway.prompt heading_)])).
Proof.
  intros env svc heading_ r. subst r.
  unfold MessageComposer.handleGenerateContent.
  split; [|split].
  - intros ->. reflexivity.
  - intros Hh Hk. apply truthy_nonempty in Hh. rewrite Hh. cbn [negb].
    rewrite gateway_run_bind. unfold GeminiService.generateMessageContent.
    destruct (API_KEY env) as [key|]; cbn [JsString.truthy_opt] in Hk.
    + rewrite Hk. reflexivity.
    + reflexivity.
  - intros Hh Hk. apply truthy_nonempty in Hh. rewrite Hh. cbn [negb].
    rewrite gateway_run_bind. unfold GeminiService.generateMessageContent.
    destruct (API_KEY env) as [key|]; cbn [JsString.truthy_opt] in Hk;
      [|discriminate].
    rewrite Hk. cbn [Gateway.run].
    destruct (svc _ _) as [e|text]; reflexivity.
Qed.

(** X24.  [generateAiContent] against the second revision: without a key
    on the server it throws 'AI service is not configured on the server.'
    and with a blank heading 'Heading is required to generate content.',
    in both cases without a call of the service; otherwise the service is
    called once, and the client receives the content or throws 'Failed to
    generate AI content. Please check the server logs.'. *)
Theorem client_generate_outcomes :
  forall env svc heading_,
    let r := Gateway.run svc
               (ApiService.generateAiContent (V2.post_generate_content env)
                  heading_) in
    (V2.ai env = None ->
     r = (inl (OtherError "AI service is not configured on the server."), []))
    /\ (V2.ai env <> None -> JsString.trim heading_ = "" ->
        r = (inl (OtherError "Heading is required to generate content."), []))
    /\ (V2.ai env <> None -> JsString.trim heading_ <> "" ->
        r = (match svc "gemini-2.5-flash" (Gateway.prompt heading_) with
             | inr text => inr (JsonContent text)
             | inl _ =>
                 inl (OtherError
                        "Failed to generate AI content. Please check the server logs.")
             end,
             [("gemini-2.5-flash", Gateway.prompt heading_)])).
Proof.
  intros env svc heading_ r. subst r.
  unfold ApiService.generateAiContent. rewrite gateway_run_bind.
  unfold V2.post_generate_content.
  destruct (V2.ai env) as [key|].
  - split; [discriminate|]. split.
    + intros _ Hb. rewrite Hb. cbn [String.length Nat.eqb].
      rewrite orb_true_r. reflexivity.
    + intros _ Hh.
      assert (Ht : JsString.truthy heading_ = true).
      { apply truthy_nonempty. intros ->. now apply Hh. }
      assert (Hl : (String.length (JsString.trim heading_) =? 0) = false).
      { apply not_true_iff_false. now rewrite length_zero_string. }
      rewrite Ht, Hl. cbn [negb orb Gateway.run].
      destruct (svc _ _) as [e|text]; reflexivity.
  - split; [reflexivity|]. split; intros H; congruence.
Qed.
